(** * jbpmn-engine: a shallow embedding of the workflow execution engine

    The development follows the Go packages of the repository:

    - [GoStrings]: the functions of Go's [strings] package the engine calls;
    - the gateway condition evaluator and resolver ([workflow/gateway.go]);
    - the form merge ([MergeFormInputIntoContext]);
    - the script predicates ([scripts.EvaluateCondition]);
    - the persistence layer ([db/sqlite.go]) as programs over atomic
      SQL statements;
    - the engine ([ExecuteNextNode], [advanceInstance], the timeout
      goroutine, the signal registry), with a sequential interpreter, a
      crash-prefix interpreter and a goroutine scheduler.

    Go strings are byte sequences and are modelled by [string].  A
    [map[string]interface{}] is a [gmap string value]. *)

From Stdlib Require Import ZArith NArith Floats Uint63 String Ascii List Lia DecimalString.
From stdpp Require Import gmap strings list fin_maps.

Set Warnings "-register-all".
Local Open Scope string_scope.
Local Open Scope Z_scope.

(** ** Errors

    Every [fmt.Errorf] site of the modelled code has a constructor.  Where
    the Go code wraps an inner error with more text, the model keeps the
    inner error. *)

Inductive error : Type :=
| ErrEmptyCondition            (* "empty condition string provided" *)
| ErrUnsupportedFormat         (* "unsupported condition format or missing operator" *)
| ErrVariableNotFound (path : string) (* "variable '%s' not found in context" *)
| ErrTypeMismatch (literal path : string) (* "type mismatch: cannot compare number with non-numeric string" *)
| ErrUnsupportedType (path : string) (* "unsupported variable type for comparison" *)
| ErrUnsupportedOperator (op : string) (* "unsupported numeric/string operator" *)
| ErrNoConditions              (* "gateway node %s has no conditions defined" *)
| ErrNoMatchingCondition       (* "no matching gateway condition found" *)
| ErrBase64                    (* "error decoding base64 ..." *)
| ErrScript                    (* "error executing script" / "error evaluating condition script" *)
| ErrNotBoolean                (* "condition script did not return a boolean value" *)
| ErrNoRows                    (* sql.ErrNoRows *)
| ErrConstraint (table key : string) (* UNIQUE constraint failed: table.id *)
| ErrDefinitionNotFound (workflowID : string)
| ErrNoStartNode (workflowID : string)
| ErrNodeNotFound (nodeID : string) (* "current node definition '%s' not found" *)
| ErrStartHasNoNext (nodeID : string)
| ErrScriptConfigMissing (nodeID : string)
| ErrUnsupportedNodeType (ty : string)
| ErrDuration (d : string)     (* time.ParseDuration failed *)
| PanicNilPointer.             (* runtime panic: nil pointer dereference *)

Inductive result (A : Type) : Type :=
| Ok (a : A)
| Err (e : error).
Arguments Ok {A} a.
Arguments Err {A} e.

Definition is_Ok {A} (r : result A) : bool :=
  match r with Ok _ => true | Err _ => false end.

(** ** Go's [strings] package *)

Module GoStrings.

(** [strip_prefix sep s] is [Some r] when [s = sep ++ r]. *)
Fixpoint strip_prefix (sep s : string) : option string :=
  match sep, s with
  | EmptyString, _ => Some s
  | String a sep', String b s' =>
      if Ascii.eqb a b then strip_prefix sep' s' else None
  | String _ _, EmptyString => None
  end.

(** [strings.Cut]-style search for the first occurrence of [sep]: the
    text before it and the text after it. *)
Fixpoint cut (sep s : string) : option (string * string) :=
  match strip_prefix sep s with
  | Some r => Some (EmptyString, r)
  | None =>
      match s with
      | EmptyString => None
      | String c s' =>
          match cut sep s' with
          | Some (before, after) => Some (String c before, after)
          | None => None
          end
      end
  end.

(** [strings.Contains(s, substr)]. *)
Definition Contains (s substr : string) : bool :=
  match cut substr s with Some _ => true | None => false end.

(** [strings.SplitN(s, sep, 2)] for a non-empty [sep] (the engine only
    passes one of its operators). *)
Definition SplitN2 (s sep : string) : list string :=
  match cut sep s with
  | Some (before, after) => [before; after]
  | None => [s]
  end.

(** [strings.Split(s, sep)] for a non-empty [sep]; every cut consumes at
    least one byte, so [String.length s] rounds suffice. *)
Fixpoint Split_fuel (fuel : nat) (s sep : string) : list string :=
  match fuel with
  | O => [s]
  | S fuel' =>
      match cut sep s with
      | Some (before, after) => before :: Split_fuel fuel' after sep
      | None => [s]
      end
  end.

Definition Split (s sep : string) : list string :=
  Split_fuel (String.length s) s sep.

(** *** [strings.TrimSpace]

    Go trims the runes for which [unicode.IsSpace] holds: the six ASCII
    ones, U+0085 and U+00A0, and the [White_Space] runes U+1680,
    U+2000..U+200A, U+2028, U+2029, U+202F, U+205F, U+3000, each in its
    UTF-8 encoding.  A malformed sequence decodes to U+FFFD, which is
    not a space. *)

Definition byte (c : ascii) : N := N_of_ascii c.

Definition asciiSpace (c : ascii) : bool :=
  let b := byte c in
  ((9 <=? b) && (b <=? 13) || (b =? 32))%N.

Definition space2 (c1 c2 : ascii) : bool :=
  ((byte c1 =? 194) && ((byte c2 =? 133) || (byte c2 =? 160)))%N.

Definition space3 (c1 c2 c3 : ascii) : bool :=
  let b1 := byte c1 in let b2 := byte c2 in let b3 := byte c3 in
  ((b1 =? 225) && (b2 =? 154) && (b3 =? 128)
   || (b1 =? 226) && (b2 =? 128)
      && ((128 <=? b3) && (b3 <=? 138) || (b3 =? 168) || (b3 =? 169) || (b3 =? 175))
   || (b1 =? 226) && (b2 =? 129) && (b3 =? 159)
   || (b1 =? 227) && (b2 =? 128) && (b3 =? 128))%N.

(** Width in bytes of the space rune [s] starts with, [0] if none. *)
Definition leading_space (s : list ascii) : nat :=
  match s with
  | c1 :: r1 =>
      if asciiSpace c1 then 1%nat
      else match r1 with
           | c2 :: r2 =>
               if space2 c1 c2 then 2%nat
               else match r2 with
                    | c3 :: _ => if space3 c1 c2 c3 then 3%nat else 0%nat
                    | [] => 0%nat
                    end
           | [] => 0%nat
           end
  | [] => 0%nat
  end.

(** The same for the space rune [s] ends with; [r] is [s] reversed. *)
Definition trailing_space (r : list ascii) : nat :=
  match r with
  | c1 :: r1 =>
      if asciiSpace c1 then 1%nat
      else match r1 with
           | c2 :: r2 =>
               if space2 c2 c1 then 2%nat
               else match r2 with
                    | c3 :: _ => if space3 c3 c2 c1 then 3%nat else 0%nat
                    | [] => 0%nat
                    end
           | [] => 0%nat
           end
  | [] => 0%nat
  end.

Fixpoint trim_fuel (width : list ascii -> nat) (fuel : nat) (s : list ascii)
  : list ascii :=
  match fuel with
  | O => s
  | S fuel' =>
      match width s with
      | O => s
      | n => trim_fuel width fuel' (skipn n s)
      end
  end.

Definition TrimLeft (s : list ascii) : list ascii :=
  trim_fuel leading_space (List.length s) s.

Definition TrimRight (s : list ascii) : list ascii :=
  rev (trim_fuel trailing_space (List.length s) (rev s)).

Definition TrimSpace (s : string) : string :=
  string_of_list_ascii (TrimRight (TrimLeft (list_ascii_of_string s))).

End GoStrings.

(** ** Dynamic values and the context

    [interface{}] values as [encoding/json] produces them ([nil], [bool],
    [float64], [string], [[]interface{}], [map[string]interface{}]), and
    Go's [int], which the evaluator also accepts. *)

Inductive value : Type :=
| VNil
| VBool (b : bool)
| VFloat (f : float)
| VInt (z : Z)
| VString (s : string)
| VList (l : list value)
| VMap (m : gmap string value).

Abbreviation context := (gmap string value).

(** Values of the goja VM, as far as the engine inspects them:
    [goja.IsUndefined], [goja.IsNull], and [Export()] to a Go [bool] or to
    a [map[string]interface{}]. *)

Inductive jsval : Type :=
| JUndefined
| JNull
| JBool (b : bool)
| JNumber (f : float)
| JString (s : string)
| JObject (m : gmap string value)
| JOther.

(** ** The libraries the engine calls

    Functions of Go's standard library and of goja whose code is not part
    of the repository.  [None] stands for a non-nil [error]. *)

Class GoLib : Type := {
  (** [strconv.ParseFloat(s, 64)] *)
  ParseFloat : string -> option float;
  (** the conversion [float64(v)] of an [int] *)
  float64_of_int : Z -> float;
  (** [fmt.Sscanf(s, "%f", &num)] *)
  Sscanf_f : string -> option float;
  (** [base64.StdEncoding.DecodeString] *)
  DecodeString : string -> option string;
  (** [vm.RunString] of a fresh goja VM in which [process_data] is bound
      to the context: the completion value and the value of
      [process_data] afterwards *)
  RunString : string -> context -> option (jsval * jsval);
  (** [time.ParseDuration], in nanoseconds *)
  ParseDuration : string -> option Z;
}.

(** ** Workflow definitions ([workflow/types.go]) *)

Record SignalConfig : Type := {
  sig_Emit : string;
  sig_Catch : string;
  sig_Throw : string;
}.

Record TimeoutConfig : Type := {
  to_Duration : string;
  to_Next : string;
}.

Record FormField : Type := {
  field_ID : string;
  field_Name : string;
  field_Label : string;
  field_Type : string;
  field_Required : bool;
}.

Record ScriptConfig : Type := { script_Code : string }.

Record GatewayCondition : Type := {
  cond_When : string;
  cond_Next : string;
  cond_Else : bool;
  cond_Signal : option SignalConfig;
}.

Record EndConfig : Type := {
  end_Signal : option SignalConfig;
  end_HTML : string;
}.

Record WorkflowNode : Type := {
  node_ID : string;
  node_Type : string;
  node_Name : string;
  node_Next : string;
  node_Fields : list FormField;
  node_Script : option ScriptConfig;
  node_Conditions : list GatewayCondition;
  node_End : option EndConfig;
  node_Timeout : option TimeoutConfig;
  node_Signal : option SignalConfig;
}.

Record Workflow : Type := {
  wf_ID : string;
  wf_Name : string;
  wf_Nodes : list WorkflowNode;
}.

(** [time.Time] is a number of nanoseconds since the epoch. *)
Abbreviation time := Z.

Record WorkflowInstance : Type := {
  inst_ID : string;
  inst_WorkflowID : string;
  inst_CurrentNode : string;
  inst_CurrentNodeInstanceDBID : string;
  inst_Context : context;
  inst_WaitingSignal : string;
  inst_ExpiresAt : option time;
  inst_CreatedAt : time;
  inst_UpdatedAt : time;
  inst_WorkflowDef : Workflow;
  inst_CurrentNodeDef : option WorkflowNode;
}.

(** [(wf *Workflow) GetNodeByID]: the first node with that ID. *)
Definition GetNodeByID (wf : Workflow) (nodeID : string) : option WorkflowNode :=
  find (fun n => String.eqb (node_ID n) nodeID) (wf_Nodes wf).

(** ** The condition evaluator ([workflow/gateway.go]) *)

Section Gateway.
Context `{GoLib}.
Import GoStrings.

Fixpoint getNestedValue_parts (current : context) (parts : list string)
  : option value :=
  match parts with
  | [] => None
  | [part] => current !! part
  | part :: rest =>
      match current !! part with
      | Some (VMap next) => getNestedValue_parts next rest
      | _ => None
      end
  end.

(** [getNestedValue]: [None] is the Go result [(nil, false)]. *)
Definition getNestedValue (m : context) (path : string) : option value :=
  getNestedValue_parts m (Split path ".").

Definition compareNumbers (actual target : float) (op : string) : result bool :=
  if String.eqb op ">=" then Ok (PrimFloat.leb target actual)
  else if String.eqb op "<=" then Ok (PrimFloat.leb actual target)
  else if String.eqb op "==" then Ok (PrimFloat.eqb actual target)
  else if String.eqb op ">" then Ok (PrimFloat.ltb target actual)
  else if String.eqb op "<" then Ok (PrimFloat.ltb actual target)
  else if String.eqb op "!=" then Ok (negb (PrimFloat.eqb actual target))
  else Err (ErrUnsupportedOperator op).

Definition compareStrings (actual target : string) (op : string) : result bool :=
  if String.eqb op "==" then Ok (String.eqb actual target)
  else if String.eqb op "!=" then Ok (negb (String.eqb actual target))
  else if String.eqb op ">" then Ok (String.ltb target actual)
  else if String.eqb op "<" then Ok (String.ltb actual target)
  else if String.eqb op ">=" then Ok (String.leb target actual)
  else if String.eqb op "<=" then Ok (String.leb actual target)
  else Err (ErrUnsupportedOperator op).

(** Order matters: multi-character operators are checked first. *)
Definition operators : list string := [">="; "<="; "=="; "!="; ">"; "<"].

(** The first operator of the list the condition contains anywhere. *)
Definition find_operator (condition : string) : option string :=
  find (fun o => Contains condition o) operators.

Definition evaluateSimpleCondition (condition : string) (ctx : context)
  : result bool :=
  if String.eqb condition EmptyString then Err ErrEmptyCondition
  else
    match find_operator condition with
    | None => Err ErrUnsupportedFormat
    | Some op =>
        match SplitN2 condition op with
        | [part0; part1] =>
            let variablePath := TrimSpace part0 in
            let targetValueStr := TrimSpace part1 in
            match getNestedValue ctx variablePath with
            | None => Err (ErrVariableNotFound variablePath)
            | Some actualValue =>
                let target := ParseFloat targetValueStr in
                match actualValue with
                | VFloat v =>
                    match target with
                    | Some targetNum => compareNumbers v targetNum op
                    | None => Err (ErrTypeMismatch targetValueStr variablePath)
                    end
                | VInt v =>
                    match target with
                    | Some targetNum =>
                        compareNumbers (float64_of_int v) targetNum op
                    | None => Err (ErrTypeMismatch targetValueStr variablePath)
                    end
                | VString v => compareStrings v targetValueStr op
                | _ => Err (ErrUnsupportedType variablePath)
                end
            end
        | _ => Err ErrUnsupportedFormat
        end
    end.

(** ** The gateway resolver *)

Definition signal_to_throw (c : GatewayCondition) : string :=
  match cond_Signal c with
  | Some s => sig_Throw s
  | None => EmptyString
  end.

(** The body of the [for] loop: [None] is [continue] after an evaluation
    error, [Some b] the value of [conditionMet]. *)
Definition conditionMet (c : GatewayCondition) (ctx : context) : option bool :=
  if negb (String.eqb (cond_When c) EmptyString) then
    match evaluateSimpleCondition (cond_When c) ctx with
    | Err _ => None
    | Ok r => Some r
    end
  else if cond_Else c then Some true
  else Some false.

(** The loop: the values of [nextNodeID] and [signalToThrow] on exit. *)
Fixpoint scanConditions (conditions : list GatewayCondition) (ctx : context)
  : string * string :=
  match conditions with
  | [] => (EmptyString, EmptyString)
  | c :: rest =>
      match conditionMet c ctx with
      | Some true => (cond_Next c, signal_to_throw c)
      | _ => scanConditions rest ctx
      end
  end.

Definition resolveConditions (conditions : list GatewayCondition) (ctx : context)
  : result (string * string) :=
  match conditions with
  | [] => Err ErrNoConditions
  | _ =>
      let '(nextNodeID, signalToThrow) := scanConditions conditions ctx in
      if String.eqb nextNodeID EmptyString then Err ErrNoMatchingCondition
      else Ok (nextNodeID, signalToThrow)
  end.

Definition ResolveGatewayConditions (instance : WorkflowInstance)
  : result (string * string) :=
  match inst_CurrentNodeDef instance with
  | None => Err PanicNilPointer
  | Some def => resolveConditions (node_Conditions def) (inst_Context instance)
  end.

End Gateway.

(** ** Form input ([MergeFormInputIntoContext])

    The Go function writes into the map it is given; the model returns the
    map after the loop. *)

Section Forms.
Context `{GoLib}.

(** One iteration of the loop over [formFields]. *)
Definition mergeField (input : gmap string string) (ctx : context)
    (field : FormField) : context :=
  match input !! field_Name field with
  | Some val =>
      if String.eqb (field_Type field) "number" then
        match Sscanf_f val with
        | Some num => <[field_Name field := VFloat num]> ctx
        | None => <[field_Name field := VString val]> ctx
        end
      else <[field_Name field := VString val]> ctx
  | None => ctx
  end.

Definition MergeFormInputIntoContext (ctx : context)
    (formFields : list FormField) (input : gmap string string) : context :=
  fold_left (mergeField input) formFields ctx.

End Forms.

(** ** Scripts ([scripts.ExecuteScript], [scripts.EvaluateCondition])

    [setupConsole] and the copy of the context into the VM cannot fail on
    the values of a context and are part of [RunString]. *)

Section Scripts.
Context `{GoLib}.

Definition ExecuteScript (base64Script : string) (ctx : context)
  : result context :=
  match DecodeString base64Script with
  | None => Err ErrBase64
  | Some decodedScript =>
      match RunString decodedScript ctx with
      | None => Err ErrScript
      | Some (_, process_data) =>
          match process_data with
          | JObject newContext => Ok newContext
          | _ => Ok ctx
          end
      end
  end.

Definition EvaluateCondition (base64Condition : string) (ctx : context)
  : result bool :=
  match DecodeString base64Condition with
  | None => Err ErrBase64
  | Some decodedCondition =>
      match RunString decodedCondition ctx with
      | None => Err ErrScript
      | Some (val, _) =>
          match val with
          | JUndefined | JNull => Ok false (* Treat undefined/null as false *)
          | JBool result => Ok result
          | _ => Err ErrNotBoolean
          end
      end
  end.

End Scripts.

(** ** The store ([db/sqlite.go])

    Two tables keyed by their [id TEXT PRIMARY KEY].  The [context] column
    holds the text [json.Marshal] produces; the model keeps the mapping
    that text decodes to, so [json.Marshal] and [json.Unmarshal] are the
    identity and do not fail.  The [DATETIME] columns keep the
    [time.Time] they were formatted from. *)

Record instance_row : Type := {
  ir_workflow_id : string;
  ir_current_node_instance_id : string;
  ir_context : context;
  ir_waiting_signal : string;
  ir_expires_at : option time;
  ir_created_at : time;
  ir_updated_at : time;
}.

Record node_row : Type := {
  nr_workflow_instance_id : string;
  nr_node_id : string;
  nr_context : context;
  nr_waiting_signal : string;
  nr_expires_at : option time;
  nr_created_at : time;
  nr_updated_at : time;
}.

Record store : Type := {
  workflow_instances : gmap string instance_row;
  workflow_instance_nodes : gmap string node_row;
}.

(** The statements the code passes to [DB.Exec].  [database/sql] runs
    each of them in its own implicit transaction: the code never calls
    [DB.Begin]. *)

Inductive stmt : Type :=
| InsertInstance (id : string) (row : instance_row)
    (* INSERT INTO workflow_instances (...) VALUES (...) *)
| InsertNode (id : string) (row : node_row)
    (* INSERT INTO workflow_instance_nodes (...) VALUES (...) *)
| UpdateCurrentNodeInstance (current_node_instance_id id : string)
    (* UPDATE workflow_instances SET current_node_instance_id = ? WHERE id = ? *)
| UpdateInstance (current_node_instance_id : string) (ctx : context)
    (waiting_signal : string) (expires_at : option time) (updated_at : time)
    (id : string).
    (* UPDATE workflow_instances SET current_node_instance_id = ?, context = ?,
       waiting_signal = ?, expires_at = ?, updated_at = ? WHERE id = ? *)

(** An [INSERT] fails on a primary key that is present; an [UPDATE] that
    matches no row is not an error. *)
Definition exec_stmt (s : stmt) (db : store) : result store :=
  match s with
  | InsertInstance id row =>
      match workflow_instances db !! id with
      | Some _ => Err (ErrConstraint "workflow_instances" id)
      | None =>
          Ok {| workflow_instances := <[id := row]> (workflow_instances db);
                workflow_instance_nodes := workflow_instance_nodes db |}
      end
  | InsertNode id row =>
      match workflow_instance_nodes db !! id with
      | Some _ => Err (ErrConstraint "workflow_instance_nodes" id)
      | None =>
          Ok {| workflow_instances := workflow_instances db;
                workflow_instance_nodes := <[id := row]> (workflow_instance_nodes db) |}
      end
  | UpdateCurrentNodeInstance cur id =>
      Ok {| workflow_instances :=
              alter (fun r =>
                       {| ir_workflow_id := ir_workflow_id r;
                          ir_current_node_instance_id := cur;
                          ir_context := ir_context r;
                          ir_waiting_signal := ir_waiting_signal r;
                          ir_expires_at := ir_expires_at r;
                          ir_created_at := ir_created_at r;
                          ir_updated_at := ir_updated_at r |})
                    id (workflow_instances db);
            workflow_instance_nodes := workflow_instance_nodes db |}
  | UpdateInstance cur ctx sig exp upd id =>
      Ok {| workflow_instances :=
              alter (fun r =>
                       {| ir_workflow_id := ir_workflow_id r;
                          ir_current_node_instance_id := cur;
                          ir_context := ctx;
                          ir_waiting_signal := sig;
                          ir_expires_at := exp;
                          ir_created_at := ir_created_at r;
                          ir_updated_at := upd |})
                    id (workflow_instances db);
            workflow_instance_nodes := workflow_instance_nodes db |}
  end.

(** [SELECT id FROM workflow_instances WHERE waiting_signal = ?]; the
    query has no [ORDER BY], the rows come in the order of the map. *)
Definition select_waiting (signalName : string) (db : store) : list string :=
  (map_to_list
     (filter (fun kv => ir_waiting_signal (snd kv) = signalName)
             (workflow_instances db))).*1.

(** ** Programs

    The engine's functions are programs over the operations below; each
    operation is atomic.  A goroutine started with [go] is recorded as a
    [task].  Of the calls to [log.Printf], those that report an error the
    function then drops are kept ([LogError]). *)

Inductive task : Type :=
| TExecuteNextNode (instanceID : string)
    (* go func() { ExecuteNextNode(instanceID) ... }() *)
| TEmitSignal (signalName : string)
    (* go func() { EmitSignal(signalName) ... }() *)
| TTimeout (instID : string) (timeoutCfg : TimeoutConfig)
    (originalNodeID originalNodeInstanceDBID : string).
    (* the timeout goroutine of ExecuteNextNode *)

Inductive eff : Type -> Type :=
| DBExec (s : stmt) : eff (option error)
| SelectInstance (id : string) : eff (option instance_row)
| SelectNode (id : string) : eff (option node_row)
| SelectWaiting (signalName : string) : eff (list string)
| TimeNow : eff time
| UuidNew : eff string
| LoadDefinition (workflowID : string) : eff (option Workflow)
| Sleep (d : Z) : eff unit
| Go (t : task) : eff unit
| LogError (e : error) : eff unit.

Inductive prog (A : Type) : Type :=
| Ret (a : A)
| Vis {X : Type} (e : eff X) (k : X -> prog A).
Arguments Ret {A} a.
Arguments Vis {A X} e k.

Fixpoint bind {A B : Type} (p : prog A) (f : A -> prog B) : prog B :=
  match p with
  | Ret a => f a
  | Vis e k => Vis e (fun x => bind (k x) f)
  end.

Definition call {X : Type} (e : eff X) : prog X := Vis e Ret.

Notation "x <- p ; k" := (bind p (fun x => k))
  (at level 20, p at level 100, k at level 200, only parsing).

(** [if err != nil { return ..., err }] *)
Definition try {A B : Type} (p : prog (result A)) (k : A -> prog (result B))
  : prog (result B) :=
  r <- p; match r with Ok a => k a | Err e => Ret (Err e) end.

Notation "x <-? p ; k" := (try p (fun x => k))
  (at level 20, p at level 100, k at level 200, only parsing).

(** [DB.Exec] followed by the error check. *)
Definition exec (s : stmt) : prog (result unit) :=
  e <- call (DBExec s);
  Ret (match e with Some err => Err err | None => Ok tt end).

(** [fmt.Sprintf("%d", n)] *)
Definition itoa (n : Z) : string := NilZero.string_of_int (Z.to_int n).

(** ** The persistence functions *)

(** [db.SaveNewInstance]: the instance row (with an empty
    [current_node_instance_id]), the initial node row, then the pointer. *)
Definition SaveNewInstance (instanceID workflowID initialNodeID : string)
    (ctx : context) (waitingSignal : string) (expiresAt : option time)
  : prog (result (string * string)) :=
  now <- call TimeNow;
  _ <-? exec (InsertInstance instanceID
               {| ir_workflow_id := workflowID;
                  ir_current_node_instance_id := EmptyString;
                  ir_context := ctx;
                  ir_waiting_signal := waitingSignal;
                  ir_expires_at := expiresAt;
                  ir_created_at := now;
                  ir_updated_at := now |});
  let initialNodeInstanceID := initialNodeID +:+ "-" +:+ instanceID in
  _ <-? exec (InsertNode initialNodeInstanceID
               {| nr_workflow_instance_id := instanceID;
                  nr_node_id := initialNodeID;
                  nr_context := ctx;
                  nr_waiting_signal := waitingSignal;
                  nr_expires_at := expiresAt;
                  nr_created_at := now;
                  nr_updated_at := now |});
  _ <-? exec (UpdateCurrentNodeInstance initialNodeInstanceID instanceID);
  Ret (Ok (instanceID, initialNodeInstanceID)).

(** [db.UpdateInstanceCurrentNodeAndContext]: the new node row, then the
    instance row. *)
Definition UpdateInstanceCurrentNodeAndContext (instanceID newNodeID : string)
    (newContext : context) (waitingSignal : string) (expiresAt : option time)
  : prog (result string) :=
  now <- call TimeNow;
  let newNodeInstanceID :=
    newNodeID +:+ "-" +:+ instanceID +:+ "-" +:+ itoa now in
  _ <-? exec (InsertNode newNodeInstanceID
               {| nr_workflow_instance_id := instanceID;
                  nr_node_id := newNodeID;
                  nr_context := newContext;
                  nr_waiting_signal := waitingSignal;
                  nr_expires_at := expiresAt;
                  nr_created_at := now;
                  nr_updated_at := now |});
  _ <-? exec (UpdateInstance newNodeInstanceID newContext waitingSignal
                            expiresAt now instanceID);
  Ret (Ok newNodeInstanceID).

(** [db.GetInstance] and [db.GetNodeInstance]: [row.Scan] fails with
    [sql.ErrNoRows] when no row has the ID. *)
Definition GetInstance (instanceID : string) : prog (result instance_row) :=
  r <- call (SelectInstance instanceID);
  Ret (match r with Some row => Ok row | None => Err ErrNoRows end).

Definition GetNodeInstance (nodeInstanceID : string) : prog (result node_row) :=
  r <- call (SelectNode nodeInstanceID);
  Ret (match r with Some row => Ok row | None => Err ErrNoRows end).

Definition GetInstancesWaitingForSignal (signalName : string)
  : prog (result (list string)) :=
  ids <- call (SelectWaiting signalName);
  Ret (Ok ids).

(** ** The engine *)

(** [GetWorkflowDefinition]: the definition cached in memory or found in
    the workflow directory. *)
Definition GetWorkflowDefinition (workflowID : string) : prog (result Workflow) :=
  d <- call (LoadDefinition workflowID);
  Ret (match d with
        | Some wf => Ok wf
        | None => Err (ErrDefinitionNotFound workflowID)
        end).

Definition GetInstanceAndDefinition (instanceID : string)
  : prog (result WorkflowInstance) :=
  row <-? GetInstance instanceID;
  nrow <-? GetNodeInstance (ir_current_node_instance_id row);
  wf <-? GetWorkflowDefinition (ir_workflow_id row);
  let currentNodeDefinitionID := nr_node_id nrow in
  match GetNodeByID wf currentNodeDefinitionID with
  | None => Ret (Err (ErrNodeNotFound currentNodeDefinitionID))
  | Some def =>
      Ret (Ok {| inst_ID := instanceID;
                  inst_WorkflowID := ir_workflow_id row;
                  inst_CurrentNode := currentNodeDefinitionID;
                  inst_CurrentNodeInstanceDBID := ir_current_node_instance_id row;
                  inst_Context := ir_context row;
                  inst_WaitingSignal := ir_waiting_signal row;
                  inst_ExpiresAt := ir_expires_at row;
                  inst_CreatedAt := ir_created_at row;
                  inst_UpdatedAt := ir_updated_at row;
                  inst_WorkflowDef := wf;
                  inst_CurrentNodeDef := Some def |})
  end.

(** [advanceInstance]; [waitingSignal] is the [*string] argument.  The
    type of the next node is read after the store was updated: when the
    definition has no such node, the goroutine panics there. *)
Definition advanceInstance (instanceID nextNodeID : string)
    (waitingSignal : option string) : prog (result unit) :=
  instance <-? GetInstanceAndDefinition instanceID;
  let currentNodeDef := GetNodeByID (inst_WorkflowDef instance) nextNodeID in
  _ <- call TimeNow;
  let signalString := match waitingSignal with Some s => s | None => EmptyString end in
  _ <-? UpdateInstanceCurrentNodeAndContext (inst_ID instance) nextNodeID
         (inst_Context instance) signalString (inst_ExpiresAt instance);
  match currentNodeDef with
  | None => Ret (Err PanicNilPointer)
  | Some def =>
      if negb (String.eqb (node_Type def) "end")
         && negb (String.eqb (node_Type def) "form")
         && String.eqb signalString EmptyString
      then _ <- call (Go (TExecuteNextNode instanceID)); Ret (Ok tt)
      else Ret (Ok tt)
  end.

(** [AdvanceInstanceAfterForm]: the form data is laid over the stored
    context, key by key. *)
Definition AdvanceInstanceAfterForm (instanceID nextNodeID : string)
    (formData : context) : prog (result unit) :=
  instance <-? GetInstanceAndDefinition instanceID;
  let ctx := formData ∪ inst_Context instance in
  _ <-? UpdateInstanceCurrentNodeAndContext (inst_ID instance) nextNodeID
         ctx EmptyString None;
  _ <- call (Go (TExecuteNextNode instanceID));
  Ret (Ok tt).

(** [ResumeWorkflowsBySignal]: the loop over the instance IDs the query
    returned; a failing instance is logged and skipped. *)
Fixpoint resumeEach (instanceIDs : list string) : prog unit :=
  match instanceIDs with
  | [] => Ret tt
  | id :: rest =>
      r <- GetInstanceAndDefinition id;
      match r with
      | Err e => _ <- call (LogError e); resumeEach rest
      | Ok instance =>
          u <- UpdateInstanceCurrentNodeAndContext (inst_ID instance)
                (inst_CurrentNode instance) (inst_Context instance) EmptyString
                (inst_ExpiresAt instance);
          match u with
          | Err e => _ <- call (LogError e); resumeEach rest
          | Ok _ => _ <- call (Go (TExecuteNextNode id)); resumeEach rest
          end
      end
  end.

Definition ResumeWorkflowsBySignal (signalName : string) : prog (result unit) :=
  instanceIDs <-? GetInstancesWaitingForSignal signalName;
  match instanceIDs with
  | [] => Ret (Ok tt)
  | _ => _ <- resumeEach instanceIDs; Ret (Ok tt)
  end.

Definition EmitSignal (signalName : string) : prog (result unit) :=
  ResumeWorkflowsBySignal signalName.

Section Engine.
Context `{GoLib}.

(** [executeScriptNode]; the context the script returns is assigned to
    the instance in memory, and [advanceInstance] loads the instance
    again from the store. *)
Definition executeScriptNode (instance : WorkflowInstance)
    (def : WorkflowNode) : prog (result unit) :=
  match node_Script def with
  | None => Ret (Err (ErrScriptConfigMissing (inst_CurrentNode instance)))
  | Some scriptConfig =>
      match ExecuteScript (script_Code scriptConfig) (inst_Context instance) with
      | Err e => Ret (Err e)
      | Ok _ => advanceInstance (inst_ID instance) (node_Next def) None
      end
  end.

Definition executeEndNode (instance : WorkflowInstance)
    (def : WorkflowNode) : prog (result unit) :=
  match node_End def with
  | Some endConfig =>
      match end_Signal endConfig with
      | Some s =>
          if negb (String.eqb (sig_Emit s) EmptyString)
          then _ <- call (Go (TEmitSignal (sig_Emit s))); Ret (Ok tt)
          else Ret (Ok tt)
      | None => Ret (Ok tt)
      end
  | None => Ret (Ok tt)
  end.

(** The test that makes [ExecuteNextNode] return without acting. *)
Definition waitingOrExpired (instance : WorkflowInstance) : prog bool :=
  if negb (String.eqb (inst_WaitingSignal instance) EmptyString) then Ret true
  else match inst_ExpiresAt instance with
       | None => Ret false
       | Some expiresAt => now <- call TimeNow; Ret (expiresAt <? now)
       end.

Definition ExecuteNextNode (instanceID : string) : prog (result unit) :=
  instance <-? GetInstanceAndDefinition instanceID;
  paused <- waitingOrExpired instance;
  if paused then Ret (Ok tt)
  else
    match inst_CurrentNodeDef instance with
    | None => Ret (Err PanicNilPointer)
    | Some def =>
        _ <- match node_Timeout def with
            | Some timeoutCfg =>
                call (Go (TTimeout instanceID timeoutCfg
                            (inst_CurrentNode instance)
                            (inst_CurrentNodeInstanceDBID instance)))
            | None => Ret tt
            end;
        let ty := node_Type def in
        if String.eqb ty "start" then
          if negb (String.eqb (node_Next def) EmptyString)
          then advanceInstance instanceID (node_Next def) None
          else Ret (Err (ErrStartHasNoNext (inst_CurrentNode instance)))
        else if String.eqb ty "form" then Ret (Ok tt)
        else if String.eqb ty "script" then executeScriptNode instance def
        else if String.eqb ty "gateway" then
          match ResolveGatewayConditions instance with
          | Err e => Ret (Err e)
          | Ok (nextNodeID, signalToThrow) =>
              _ <- (if negb (String.eqb signalToThrow EmptyString)
                   then call (Go (TEmitSignal signalToThrow))
                   else Ret tt);
              advanceInstance (inst_ID instance) nextNodeID None
          end
        else if String.eqb ty "end" then executeEndNode instance def
        else Ret (Err (ErrUnsupportedNodeType ty))
    end.

(** The goroutine [ExecuteNextNode] starts for a node with a timeout. *)
Definition timeoutGoroutine (instID : string) (timeoutCfg : TimeoutConfig)
    (originalNodeID originalNodeInstanceDBID : string) : prog unit :=
  match ParseDuration (to_Duration timeoutCfg) with
  | None => call (LogError (ErrDuration (to_Duration timeoutCfg)))
  | Some duration =>
      _ <- call (Sleep duration);
      r <- GetInstanceAndDefinition instID;
      match r with
      | Err e => call (LogError e)
      | Ok currentInstance =>
          (* Only transition on timeout if still on the same node instance *)
          if String.eqb (inst_CurrentNodeInstanceDBID currentInstance)
                        originalNodeInstanceDBID
          then
            a <- advanceInstance instID (to_Next timeoutCfg) None;
            match a with
            | Err e => call (LogError e)
            | Ok _ => Ret tt
            end
          else Ret tt
      end
  end.

(** [CreateNewInstance] *)
Definition CreateNewInstance (workflowID : string)
  : prog (result WorkflowInstance) :=
  wf <-? GetWorkflowDefinition workflowID;
  instanceID <- call UuidNew;
  let initialContext : context := <["instanceID" := VString instanceID]> ∅ in
  match GetNodeByID wf "start_node" with
  | None => Ret (Err (ErrNoStartNode workflowID))
  | Some startNode =>
      let waitingSignal :=
        match node_Signal startNode with
        | Some s => sig_Catch s
        | None => EmptyString
        end in
      ids <-? SaveNewInstance instanceID workflowID (node_ID startNode)
               initialContext waitingSignal None;
      createdAt <- call TimeNow;
      updatedAt <- call TimeNow;
      let instance :=
        {| inst_ID := instanceID;
           inst_WorkflowID := workflowID;
           inst_CurrentNode := node_ID startNode;
           inst_CurrentNodeInstanceDBID := snd ids;
           inst_Context := initialContext;
           inst_WaitingSignal := waitingSignal;
           inst_ExpiresAt := None;
           inst_CreatedAt := createdAt;
           inst_UpdatedAt := updatedAt;
           inst_WorkflowDef := wf;
           inst_CurrentNodeDef := Some startNode |} in
      if String.eqb waitingSignal EmptyString
      then _ <- call (Go (TExecuteNextNode instanceID)); Ret (Ok instance)
      else Ret (Ok instance)
  end.

(** The body of a goroutine; an error it gets is logged. *)
Definition logged (p : prog (result unit)) : prog unit :=
  r <- p;
  match r with
  | Err e => call (LogError e)
  | Ok _ => Ret tt
  end.

Definition task_prog (t : task) : prog unit :=
  match t with
  | TExecuteNextNode instanceID => logged (ExecuteNextNode instanceID)
  | TEmitSignal signalName => logged (EmitSignal signalName)
  | TTimeout instID timeoutCfg originalNodeID originalNodeInstanceDBID =>
      timeoutGoroutine instID timeoutCfg originalNodeID originalNodeInstanceDBID
  end.

End Engine.

(** ** Running programs

    The world a program runs in: the store, the workflow definitions the
    definition store serves, and the values the next calls of
    [time.Now()] and [uuid.New()] return. *)

Record world : Type := {
  w_db : store;
  w_defs : gmap string Workflow;
  w_clock : list time;
  w_uuids : list string;
}.

Definition with_db (w : world) (db : store) : world :=
  {| w_db := db; w_defs := w_defs w; w_clock := w_clock w; w_uuids := w_uuids w |}.

(** [time.Now()] returns the head of the clock readings ([0] when none is
    left) and [uuid.New()] the head of the UUIDs. *)
Definition next_now (w : world) : time := hd 0 (w_clock w).

Definition tick (w : world) : world :=
  {| w_db := w_db w; w_defs := w_defs w; w_clock := tl (w_clock w);
     w_uuids := w_uuids w |}.

Definition next_uuid (w : world) : string := hd EmptyString (w_uuids w).

Definition draw (w : world) : world :=
  {| w_db := w_db w; w_defs := w_defs w; w_clock := w_clock w;
     w_uuids := tl (w_uuids w) |}.

(** What an observer of the engine sees: the statements executed and
    their outcome, the [current_node_instance_id] a read of an instance
    row returned, the goroutines started, the errors logged. *)
Inductive event : Type :=
| EvExec (s : stmt) (err : option error)
| EvSelectInstance (id : string) (current : option string)
| EvGo (t : task)
| EvLog (e : error).

Definition handle {X : Type} (e : eff X) (w : world) : X * world * list event :=
  match e in eff X return X * world * list event with
  | DBExec s =>
      match exec_stmt s (w_db w) with
      | Ok db' => (None, with_db w db', [EvExec s None])
      | Err err => (Some err, w, [EvExec s (Some err)])
      end
  | SelectInstance id =>
      let r := workflow_instances (w_db w) !! id in
      (r, w, [EvSelectInstance id (ir_current_node_instance_id <$> r)])
  | SelectNode id => (workflow_instance_nodes (w_db w) !! id, w, [])
  | SelectWaiting signalName => (select_waiting signalName (w_db w), w, [])
  | TimeNow => (next_now w, tick w, [])
  | UuidNew => (next_uuid w, draw w, [])
  | LoadDefinition workflowID => (w_defs w !! workflowID, w, [])
  | Sleep _ => (tt, w, [])
  | Go t => (tt, w, [EvGo t])
  | LogError err => (tt, w, [EvLog err])
  end.

(** A program run to its end with nothing else running. *)
Fixpoint run {A : Type} (p : prog A) (w : world) : A * world * list event :=
  match p with
  | Ret a => (a, w, [])
  | Vis e k =>
      let '(x, w', evs) := handle e w in
      let '(a, w'', evs') := run (k x) w' in
      (a, w'', (evs ++ evs')%list)
  end.

(** The world left behind when the process dies after [n] operations. *)
Fixpoint crash_after {A : Type} (n : nat) (p : prog A) (w : world) : world :=
  match n, p with
  | S n', Vis e k => let '(x, w', _) := handle e w in crash_after n' (k x) w'
  | _, _ => w
  end.

(** *** Goroutines

    A configuration is the world and the goroutines alive; a step runs one
    operation of one goroutine, and a [go] statement adds a goroutine. *)

Record config : Type := {
  c_world : world;
  c_threads : list (prog unit);
  c_trace : list (nat * event);
}.

Definition spawned (evs : list event) : list task :=
  omap (fun ev => match ev with EvGo t => Some t | _ => None end) evs.

Section Scheduler.
Context `{GoLib}.

Definition sched_step (i : nat) (c : config) : config :=
  match c_threads c !! i with
  | Some (Vis e k) =>
      let '(x, w', evs) := handle e (c_world c) in
      {| c_world := w';
         c_threads := (<[i := k x]> (c_threads c) ++ map task_prog (spawned evs))%list;
         c_trace := (c_trace c ++ map (pair i) evs)%list |}
  | _ => c
  end.

Definition sched (schedule : list nat) (c : config) : config :=
  fold_left (fun c i => sched_step i c) schedule c.

End Scheduler.

Definition finished (p : prog unit) : bool :=
  match p with Ret _ => true | Vis _ _ => false end.

(** ** Fixtures

    A stand-in for the libraries, used to run the model on concrete
    inputs.  [ParseFloat] and [Sscanf_f] agree with Go's on unsigned
    decimal integers below [2^53]; the base64 table and the VM cover the
    four scripts [undefined], [null], [true] and [42]. *)

Module Fixture.

Fixpoint parse_digits (s : string) (acc : Z) : option Z :=
  match s with
  | EmptyString => Some acc
  | String c rest =>
      let d := Z.of_N (N_of_ascii c) - 48 in
      if (0 <=? d) && (d <=? 9) then parse_digits rest (10 * acc + d)
      else None
  end.

Definition parse_number (s : string) : option float :=
  match s with
  | EmptyString => None
  | _ =>
      match parse_digits s 0 with
      | Some z => Some (PrimFloat.of_uint63 (Uint63.of_Z z))
      | None => None
      end
  end.

Definition decode (s : string) : option string :=
  if String.eqb s "dW5kZWZpbmVk" then Some "undefined"
  else if String.eqb s "bnVsbA==" then Some "null"
  else if String.eqb s "dHJ1ZQ==" then Some "true"
  else if String.eqb s "NDI=" then Some "42"
  else None.

Definition vm (script : string) (ctx : context) : option (jsval * jsval) :=
  if String.eqb script "undefined" then Some (JUndefined, JObject ctx)
  else if String.eqb script "null" then Some (JNull, JObject ctx)
  else if String.eqb script "true" then Some (JBool true, JObject ctx)
  else if String.eqb script "42" then Some (JNumber 42%float, JObject ctx)
  else None.

Definition duration (s : string) : option Z :=
  if String.eqb s "50ms" then Some 50000000
  else if String.eqb s "30s" then Some 30000000000
  else None.

Definition lib : GoLib :=
  {| ParseFloat := parse_number;
     float64_of_int := fun z => PrimFloat.of_uint63 (Uint63.of_Z z);
     Sscanf_f := parse_number;
     DecodeString := decode;
     RunString := vm;
     ParseDuration := duration |}.

Definition node (id ty next : string) : WorkflowNode :=
  {| node_ID := id; node_Type := ty; node_Name := id; node_Next := next;
     node_Fields := []; node_Script := None; node_Conditions := [];
     node_End := None; node_Timeout := None; node_Signal := None |}.

(** [start_node -> first (form) -> ask (form, timeout 50ms -> late) -> done] *)
Definition ask : WorkflowNode :=
  {| node_ID := "ask"; node_Type := "form"; node_Name := "ask"; node_Next := "done";
     node_Fields := []; node_Script := None; node_Conditions := [];
     node_End := None;
     node_Timeout := Some {| to_Duration := "50ms"; to_Next := "late" |};
     node_Signal := None |}.

Definition wf_forms : Workflow :=
  {| wf_ID := "wf_forms"; wf_Name := "two forms";
     wf_Nodes := [node "start_node" "start" "first"; node "first" "form" "ask"; ask;
                  node "done" "end" EmptyString; node "late" "end" EmptyString] |}.

(** [start_node -> check (gateway, else: notified, throws "go") -> notified] *)
Definition check : WorkflowNode :=
  {| node_ID := "check"; node_Type := "gateway"; node_Name := "check"; node_Next := EmptyString;
     node_Fields := []; node_Script := None;
     node_Conditions :=
       [{| cond_When := EmptyString; cond_Next := "notified"; cond_Else := true;
           cond_Signal := Some {| sig_Emit := EmptyString; sig_Catch := EmptyString; sig_Throw := "go" |} |}];
     node_End := None; node_Timeout := None; node_Signal := None |}.

Definition wf_gateway : Workflow :=
  {| wf_ID := "wf_gateway"; wf_Name := "gateway";
     wf_Nodes := [node "start_node" "start" "check"; check; node "notified" "end" EmptyString] |}.

(** [start_node (catches "go") -> finish] *)
Definition start_catching : WorkflowNode :=
  {| node_ID := "start_node"; node_Type := "start"; node_Name := "start";
     node_Next := "finish";
     node_Fields := []; node_Script := None; node_Conditions := [];
     node_End := None; node_Timeout := None;
     node_Signal := Some {| sig_Emit := EmptyString; sig_Catch := "go"; sig_Throw := EmptyString |} |}.

Definition wf_signal : Workflow :=
  {| wf_ID := "wf_signal"; wf_Name := "signal";
     wf_Nodes := [start_catching; node "finish" "end" EmptyString] |}.

Definition definitions : gmap string Workflow :=
  {[ "wf_forms" := wf_forms; "wf_gateway" := wf_gateway; "wf_signal" := wf_signal ]}.

(** An empty store, a clock that gives 100, 101, ... and two UUIDs. *)
Definition w_empty : world :=
  {| w_db := {| workflow_instances := ∅; workflow_instance_nodes := ∅ |};
     w_defs := definitions;
     w_clock := map Z.of_nat (seq 100 40);
     w_uuids := ["u1"; "u2"] |}.

(** A goroutine that runs a program and drops its result. *)
Definition thread {A : Type} (p : prog A) : prog unit := _ <- p; Ret tt.

(** The world after program [p]. *)
Definition after {A : Type} (p : prog A) (w : world) : world := (run p w).1.2.

(** An instance of [wf_forms]: created, taken to its first form by
    [ExecuteNextNode], and, the first form submitted, waiting at [ask]. *)
Definition w_created : world := after (CreateNewInstance "wf_forms") w_empty.
Definition w_first : world := after (ExecuteNextNode (H := lib) "u1") w_created.
Definition w_ask : world := after (AdvanceInstanceAfterForm "u1" "ask" ∅) w_first.

(** An instance of [wf_signal], waiting for ["go"] at its start node. *)
Definition w_waiting : world := after (CreateNewInstance "wf_signal") w_empty.

(** An instance of [wf_gateway] that has reached the gateway. *)
Definition w_gateway : world :=
  after (ExecuteNextNode (H := lib) "u1")
        (after (CreateNewInstance "wf_gateway") w_empty).

End Fixture.

(** ** Observations on a trace of goroutines *)

(** The execution ID goroutine [i] found instance [id] at: what its first
    read of the instance row returned. *)
Definition first_read (tr : list (nat * event)) (i : nat) (id : string)
  : option string :=
  head (omap (fun '(j, ev) =>
                match ev with
                | EvSelectInstance id' (Some cur) =>
                    if Nat.eqb j i && String.eqb id' id then Some cur else None
                | _ => None
                end) tr).

(** The head updates that committed: goroutine, instance, new execution ID. *)
Definition head_commits (tr : list (nat * event)) : list (nat * string * string) :=
  omap (fun '(j, ev) =>
          match ev with
          | EvExec (UpdateInstance cur _ _ _ _ id) None => Some (j, id, cur)
          | _ => None
          end) tr.

(** The transitions out of execution [e] of instance [id] that committed:
    the head updates made by goroutines that found the instance at [e]. *)
Definition transitions_out_of (tr : list (nat * event)) (id e : string)
  : list string :=
  omap (fun '(j, id', cur) =>
          match first_read tr j id with
          | Some e' => if String.eqb id' id && String.eqb e' e then Some cur else None
          | None => None
          end) (head_commits tr).

(** The initial goroutines of the timeout race: an instance is created,
    its first form is submitted, and the second form is submitted while
    the timeout of that form's node is pending. *)
Definition race_form_timeout : config :=
  {| c_world := Fixture.w_empty;
     c_threads :=
       [Fixture.thread (CreateNewInstance "wf_forms");
        Fixture.thread (AdvanceInstanceAfterForm "u1" "ask" ∅);
        Fixture.thread (AdvanceInstanceAfterForm "u1" "done" {["name" := VString "alice"]})];
     c_trace := [] |}.

(** Goroutine 0 creates the instance; goroutine 3 ([ExecuteNextNode])
    takes it to [first]; goroutine 1 submits the first form; goroutine 4
    ([ExecuteNextNode]) arms the timeout of [ask]; goroutine 5 (the
    timeout) sleeps, re-reads the instance and finds the execution it
    captured; goroutine 2 submits the second form; goroutine 5 goes on. *)
Definition race_form_timeout_schedule : list nat :=
  concat [repeat 0 20; repeat 3 20; repeat 1 20; repeat 4 20; repeat 5 4;
          repeat 2 20; repeat 5 20]%nat.

(** The initial goroutines of the gateway throw: an instance that waits
    for ["go"] at its start node, and an instance that runs into a
    gateway throwing ["go"]. *)
Definition throw_before_advance : config :=
  {| c_world := Fixture.w_empty;
     c_threads :=
       [Fixture.thread (CreateNewInstance "wf_signal");
        Fixture.thread (CreateNewInstance "wf_gateway")];
     c_trace := [] |}.

(** Goroutines 0 and 1 create the instances; goroutine 2
    ([ExecuteNextNode]) takes [u2] to the gateway; goroutine 3
    ([ExecuteNextNode] at the gateway) loads [u2] and starts goroutine 4,
    the emit of ["go"]; goroutine 4 runs to its end. *)
Definition throw_before_advance_schedule : list nat :=
  concat [repeat 0 20; repeat 1 20; repeat 2 20; repeat 3 4; repeat 4 20]%nat.

(** ** Vocabulary of the statements *)

Section Vocabulary.
Context `{GoLib}.
Import GoStrings.

(** The bytes an operator is made of. *)
Definition opchar (c : ascii) : bool :=
  Ascii.eqb c "<" || Ascii.eqb c ">" || Ascii.eqb c "=" || Ascii.eqb c "!".

Fixpoint no_opchar (s : string) : bool :=
  match s with
  | EmptyString => true
  | String c s' => negb (opchar c) && no_opchar s'
  end.

(** No space rune at either end. *)
Definition trimmed (s : string) : Prop :=
  leading_space (list_ascii_of_string s) = 0%nat
  /\ trailing_space (rev (list_ascii_of_string s)) = 0%nat.

Definition op_headed (sep : string) : bool :=
  match sep with
  | String a _ => opchar a
  | EmptyString => false
  end.

(** A well-formed operand of a condition: no operator byte in it and no
    space at its ends. *)
Definition operand (s : string) : Prop := no_opchar s = true /\ trimmed s.

(** The condition text [<path> <op> <literal>]. *)
Definition condition_text (path op literal : string) : string :=
  path +:+ " " +:+ op +:+ " " +:+ literal.

(** What [evaluateSimpleCondition] does once the text is parsed. *)
Definition compareValue (actualValue : value) (op variablePath targetValueStr : string)
  : result bool :=
  match actualValue with
  | VFloat v =>
      match ParseFloat targetValueStr with
      | Some targetNum => compareNumbers v targetNum op
      | None => Err (ErrTypeMismatch targetValueStr variablePath)
      end
  | VInt v =>
      match ParseFloat targetValueStr with
      | Some targetNum => compareNumbers (float64_of_int v) targetNum op
      | None => Err (ErrTypeMismatch targetValueStr variablePath)
      end
  | VString v => compareStrings v targetValueStr op
  | _ => Err (ErrUnsupportedType variablePath)
  end.

(** Lexicographic comparison of byte strings, by operator. *)
Definition lexicographic (op : string) (c : comparison) : bool :=
  if String.eqb op "==" then match c with Eq => true | _ => false end
  else if String.eqb op "!=" then match c with Eq => false | _ => true end
  else if String.eqb op "<" then match c with Lt => true | _ => false end
  else if String.eqb op "<=" then match c with Gt => false | _ => true end
  else if String.eqb op ">" then match c with Gt => true | _ => false end
  else match c with Lt => false | _ => true end.

(** The claim's reading of a match: the [when] expression evaluates to
    true, or the condition has [else: true]. *)
Definition claimed_match (ctx : context) (c : GatewayCondition) : bool :=
  match evaluateSimpleCondition (cond_When c) ctx with
  | Ok true => true
  | _ => false
  end || cond_Else c.

(** The resolver as the claim states it. *)
Definition claimed_resolve (conditions : list GatewayCondition) (ctx : context)
  : result (string * string) :=
  match find (claimed_match ctx) conditions with
  | Some c => Ok (cond_Next c, signal_to_throw c)
  | None => Err ErrNoMatchingCondition
  end.

(** The match the code computes: a condition with a [when] matches when
    the expression evaluates to true, and only a condition without a
    [when] is matched by [else: true]. *)
Definition matched (ctx : context) (c : GatewayCondition) : bool :=
  if String.eqb (cond_When c) EmptyString then cond_Else c
  else match evaluateSimpleCondition (cond_When c) ctx with
       | Ok true => true
       | _ => false
       end.

Definition both_when_and_else : GatewayCondition :=
  {| cond_When := "age >= 30"; cond_Next := "B"; cond_Else := true;
     cond_Signal := None |}.

(** The last field of the form with the given name. *)
Definition declared (formFields : list FormField) (key : string)
  : option FormField :=
  find (fun f => String.eqb (field_Name f) key) (rev formFields).

Definition advance_row_id (w : world) (instanceID newNodeID : string) : string :=
  newNodeID +:+ "-" +:+ instanceID +:+ "-" +:+ itoa (next_now w).

Definition advance_node_row (w : world) (instanceID newNodeID : string)
    (ctx : context) (waitingSignal : string) (expiresAt : option time) : node_row :=
  {| nr_workflow_instance_id := instanceID;
     nr_node_id := newNodeID;
     nr_context := ctx;
     nr_waiting_signal := waitingSignal;
     nr_expires_at := expiresAt;
     nr_created_at := next_now w;
     nr_updated_at := next_now w |}.

Definition advance_head (w : world) (instanceID newNodeID : string)
    (ctx : context) (waitingSignal : string) (expiresAt : option time)
    (r : instance_row) : instance_row :=
  {| ir_workflow_id := ir_workflow_id r;
     ir_current_node_instance_id := advance_row_id w instanceID newNodeID;
     ir_context := ctx;
     ir_waiting_signal := waitingSignal;
     ir_expires_at := expiresAt;
     ir_created_at := ir_created_at r;
     ir_updated_at := next_now w |}.

(** The store after both statements of an advance. *)
Definition advanced (w : world) (instanceID newNodeID : string)
    (ctx : context) (waitingSignal : string) (expiresAt : option time) : store :=
  {| workflow_instances :=
       alter (advance_head w instanceID newNodeID ctx waitingSignal expiresAt)
             instanceID (workflow_instances (w_db w));
     workflow_instance_nodes :=
       <[advance_row_id w instanceID newNodeID :=
           advance_node_row w instanceID newNodeID ctx waitingSignal expiresAt]>
         (workflow_instance_nodes (w_db w)) |}.

Definition advance_events (w : world) (instanceID newNodeID : string)
    (ctx : context) (waitingSignal : string) (expiresAt : option time) : list event :=
  [EvExec (InsertNode (advance_row_id w instanceID newNodeID)
             (advance_node_row w instanceID newNodeID ctx waitingSignal expiresAt)) None;
   EvExec (UpdateInstance (advance_row_id w instanceID newNodeID) ctx waitingSignal
             expiresAt (next_now w) instanceID) None].

(** What [GetInstanceAndDefinition] returns in a world. *)
Definition load (w : world) (instanceID : string) : result WorkflowInstance :=
  match workflow_instances (w_db w) !! instanceID with
  | None => Err ErrNoRows
  | Some row =>
      match workflow_instance_nodes (w_db w) !! ir_current_node_instance_id row with
      | None => Err ErrNoRows
      | Some nrow =>
          match w_defs w !! ir_workflow_id row with
          | None => Err (ErrDefinitionNotFound (ir_workflow_id row))
          | Some wf =>
              match GetNodeByID wf (nr_node_id nrow) with
              | None => Err (ErrNodeNotFound (nr_node_id nrow))
              | Some def =>
                  Ok {| inst_ID := instanceID;
                        inst_WorkflowID := ir_workflow_id row;
                        inst_CurrentNode := nr_node_id nrow;
                        inst_CurrentNodeInstanceDBID := ir_current_node_instance_id row;
                        inst_Context := ir_context row;
                        inst_WaitingSignal := ir_waiting_signal row;
                        inst_ExpiresAt := ir_expires_at row;
                        inst_CreatedAt := ir_created_at row;
                        inst_UpdatedAt := ir_updated_at row;
                        inst_WorkflowDef := wf;
                        inst_CurrentNodeDef := Some def |}
              end
          end
      end
  end.

Definition head_read (w : world) (instanceID : string) : event :=
  EvSelectInstance instanceID
    (ir_current_node_instance_id <$> workflow_instances (w_db w) !! instanceID).

Definition may_continue (def : WorkflowNode) : bool :=
  negb (String.eqb (node_Type def) "end") && negb (String.eqb (node_Type def) "form").

(** One round of the loop of [ResumeWorkflowsBySignal]: the world after it
    and what it did. *)
Definition resume_one (w : world) (id : string) : world * list event :=
  match load w id with
  | Err e => (w, [head_read w id; EvLog e])
  | Ok instance =>
      let node := inst_CurrentNode instance in
      let ctx := inst_Context instance in
      let exp := inst_ExpiresAt instance in
      let rowID := advance_row_id w id node in
      match workflow_instance_nodes (w_db w) !! rowID with
      | None =>
          (with_db (tick w) (advanced w id node ctx EmptyString exp),
           (head_read w id :: advance_events w id node ctx EmptyString exp
            ++ [EvGo (TExecuteNextNode id)])%list)
      | Some _ =>
          (tick w,
           [head_read w id;
            EvExec (InsertNode rowID (advance_node_row w id node ctx EmptyString exp))
                   (Some (ErrConstraint "workflow_instance_nodes" rowID));
            EvLog (ErrConstraint "workflow_instance_nodes" rowID)])
      end
  end.

(** The claim of atomicity: the store holds the node row exactly when the
    head points to it. *)
Definition both_or_neither (db : store) (instanceID rowID : string) : Prop :=
  is_Some (workflow_instance_nodes db !! rowID)
  <-> ir_current_node_instance_id <$> workflow_instances db !! instanceID = Some rowID.

(** The goroutine [ExecuteNextNode] starts for a node with a timeout. *)
Definition timeout_started (instance : WorkflowInstance) (def : WorkflowNode)
  : list event :=
  match node_Timeout def with
  | Some timeoutCfg =>
      [EvGo (TTimeout (inst_ID instance) timeoutCfg (inst_CurrentNode instance)
               (inst_CurrentNodeInstanceDBID instance))]
  | None => []
  end.

Definition ask_timeout : TimeoutConfig :=
  {| to_Duration := "50ms"; to_Next := "late" |}.

End Vocabulary.

(** * Further definitions *)

(** ** Form validation ([ValidateFormInput]) *)

Section Validation.
Context `{GoLib}.
Import GoStrings.

Definition msg_required : string := "This field is required.".
Definition msg_number : string := "Must be a valid number.".
Definition msg_email : string := "Must be a valid email address.".

(** One iteration of the loop over [formFields]; a missing key reads as
    the empty string with [exists] false. *)
Definition validateField (input : gmap string string)
    (errors : gmap string string) (field : FormField) : gmap string string :=
  let name := field_Name field in
  let value := default EmptyString (input !! name) in
  let exists_ := bool_decide (is_Some (input !! name)) in
  let blank := String.eqb (TrimSpace value) EmptyString in
  if field_Required field && (negb exists_ || blank) then
    <[name := msg_required]> errors
  else if exists_ && negb blank then
    if String.eqb (field_Type field) "number" then
      match Sscanf_f value with
      | None => <[name := msg_number]> errors
      | Some _ => errors
      end
    else if String.eqb (field_Type field) "email" then
      if negb (Contains value "@") || negb (Contains value ".")
      then <[name := msg_email]> errors
      else errors
    else errors
  else errors.

Definition ValidateFormInput (formFields : list FormField)
    (input : gmap string string) : gmap string string :=
  fold_left (validateField input) formFields ∅.

(** ** The form handler ([submitFormHandler] of [main.go], [POST])

    The [POST] branch.  The handler gets the instance ID from the URL
    path and the first value of every submitted key ([formDataStr]).
    The [Fields] slice of a node is [nil] when its definition has no
    [fields] array, which the list of fields does not show:
    [fieldsNil] tells it.  The error of [GetInstanceAndDefinition] is
    built with [fmt.Errorf], so the test [err == sql.ErrNoRows] is false
    and the answer is 500.  The typed merge of
    [MergeFormInputIntoContext] is made on the instance in memory, which
    is not used afterwards. *)

(** The fields of [APIResponse] that the start and signal handlers set. *)
Record APIResponse : Type := {
  api_InstanceID : string;
  api_WorkflowID : string;
  api_CurrentNode : string;
  api_Message : string;
  api_StatusURL : string;
  api_FormURL : string;
}.

Inductive response : Type :=
| MethodNotAllowed                 (* 405 *)
| BadRequest                       (* 400, no ID in the path or not a form node *)
| InternalServerError (e : error)  (* 500 *)
| FormErrors (errors : gmap string string) (* 400, the form with its errors *)
| Found (instanceID : string)      (* 302 to /status/{instanceID} *)
| OK (body : APIResponse).         (* 200 *)

Variable fieldsNil : WorkflowNode -> bool.

Definition submitFormHandler (instanceID : string)
    (formDataStr : gmap string string) : prog response :=
  if String.eqb instanceID "form" || String.eqb instanceID EmptyString
  then Ret BadRequest
  else
    r <- GetInstanceAndDefinition instanceID;
    match r with
    | Err e => Ret (InternalServerError e)
    | Ok instance =>
        match inst_CurrentNodeDef instance with
        | None => Ret BadRequest
        | Some def =>
            if negb (String.eqb (node_Type def) "form")
               || fieldsNil def
            then Ret BadRequest
            else
              let validationErrors := ValidateFormInput (node_Fields def) formDataStr in
              if negb (Nat.eqb (size validationErrors) 0)
              then Ret (FormErrors validationErrors)
              else
                let formDataMap : context := VString <$> formDataStr in
                a <- AdvanceInstanceAfterForm (inst_ID instance) (node_Next def) formDataMap;
                match a with
                | Err e => Ret (InternalServerError e)
                | Ok _ => Ret (Found (inst_ID instance))
                end
        end
    end.

End Validation.

(** ** The start and signal handlers ([main.go])

    A handler gets the method and the URL path of the request. *)

Definition startWorkflowHandler (method path : string) : prog response :=
  if negb (String.eqb method "GET") && negb (String.eqb method "POST")
  then Ret MethodNotAllowed
  else
    let pathParts := GoStrings.Split path "/" in
    if Nat.ltb (length pathParts) 3 || String.eqb (nth 2 pathParts EmptyString) EmptyString
    then Ret BadRequest
    else
      let workflowID := nth 2 pathParts EmptyString in
      r <- CreateNewInstance workflowID;
      match r with
      | Err e => Ret (InternalServerError e)
      | Ok instance =>
          let answer (message formURL : string) :=
            OK {| api_InstanceID := inst_ID instance;
                  api_WorkflowID := inst_WorkflowID instance;
                  api_CurrentNode := inst_CurrentNode instance;
                  api_Message := message;
                  api_StatusURL := "/status/" +:+ inst_ID instance;
                  api_FormURL := formURL |} in
          if negb (String.eqb (inst_WaitingSignal instance) EmptyString) then
            Ret (answer ("Workflow instance created. Waiting for signal: '"
                         +:+ inst_WaitingSignal instance +:+ "'.") EmptyString)
          else if match inst_CurrentNodeDef instance with
                  | Some def => String.eqb (node_Type def) "form"
                  | None => false
                  end then
            Ret (answer "Workflow instance created. Awaiting form submission."
                        ("/form/" +:+ inst_ID instance))
          else
            Ret (answer "Workflow instance created and started execution." EmptyString)
      end.

Definition signalWorkflowHandler (method path : string) : prog response :=
  if negb (String.eqb method "GET") then Ret MethodNotAllowed
  else
    let pathParts := GoStrings.Split path "/" in
    if Nat.ltb (length pathParts) 3 || String.eqb (nth 2 pathParts EmptyString) EmptyString
    then Ret BadRequest
    else
      let signalName := nth 2 pathParts EmptyString in
      r <- EmitSignal signalName;
      match r with
      | Err e => Ret (InternalServerError e)
      | Ok _ =>
          Ret (OK {| api_InstanceID := EmptyString;
                     api_WorkflowID := EmptyString;
                     api_CurrentNode := EmptyString;
                     api_Message := "Signal '" +:+ signalName
                                    +:+ "' processed. Attempting to resume workflows.";
                     api_StatusURL := EmptyString;
                     api_FormURL := EmptyString |})
      end.

(** ** Vocabulary of the further statements *)

(** The byte [c] does not occur in [s]. *)
Fixpoint lacks (c : ascii) (s : string) : bool :=
  match s with
  | EmptyString => true
  | String b s' => negb (Ascii.eqb c b) && lacks c s'
  end.

Section ValidationVocabulary.
Context `{GoLib}.
Import GoStrings.

(** A field passes validation: a required field is present and not
    blank; a present, non-blank value of a [number] field scans as a
    float, and one of an [email] field contains [@] and [.]. *)
Definition passes (input : gmap string string) (field : FormField) : bool :=
  match input !! field_Name field with
  | None => negb (field_Required field)
  | Some value =>
      if String.eqb (TrimSpace value) EmptyString then negb (field_Required field)
      else if String.eqb (field_Type field) "number" then
             match Sscanf_f value with Some _ => true | None => false end
      else if String.eqb (field_Type field) "email" then
             Contains value "@" && Contains value "."
      else true
  end.

End ValidationVocabulary.

(** A required field of type [number]. *)
Definition age_field : FormField :=
  {| field_ID := EmptyString; field_Name := "age"; field_Label := EmptyString;
     field_Type := "number"; field_Required := true |}.

(** What [AdvanceInstanceAfterForm] does in a world. *)
Definition after_form (w : world) (instanceID nextNodeID : string) (formData : context)
  : result unit * world * list event :=
  match load w instanceID with
  | Err e => (Err e, w, [head_read w instanceID])
  | Ok instance =>
      let ctx := formData ∪ inst_Context instance in
      let rowID := advance_row_id w instanceID nextNodeID in
      match workflow_instance_nodes (w_db w) !! rowID with
      | None =>
          (Ok tt, with_db (tick w) (advanced w instanceID nextNodeID ctx EmptyString None),
           (head_read w instanceID
            :: advance_events w instanceID nextNodeID ctx EmptyString None
            ++ [EvGo (TExecuteNextNode instanceID)])%list)
      | Some _ =>
          (Err (ErrConstraint "workflow_instance_nodes" rowID), tick w,
           [head_read w instanceID;
            EvExec (InsertNode rowID
                      (advance_node_row w instanceID nextNodeID ctx EmptyString None))
                   (Some (ErrConstraint "workflow_instance_nodes" rowID))])
      end
  end.

(** A workflow with a form that declares fields:
    [start_node -> profile (form: age, name) -> done]. *)
Module Survey.
Import Fixture.

Definition name_field : FormField :=
  {| field_ID := EmptyString; field_Name := "name"; field_Label := EmptyString;
     field_Type := "text"; field_Required := false |}.

Definition profile : WorkflowNode :=
  {| node_ID := "profile"; node_Type := "form"; node_Name := "profile";
     node_Next := "done";
     node_Fields := [age_field; name_field]; node_Script := None; node_Conditions := [];
     node_End := None; node_Timeout := None; node_Signal := None |}.

Definition wf_survey : Workflow :=
  {| wf_ID := "wf_survey"; wf_Name := "survey";
     wf_Nodes := [node "start_node" "start" "profile"; profile;
                  node "done" "end" EmptyString] |}.

Definition w_start : world :=
  {| w_db := {| workflow_instances := ∅; workflow_instance_nodes := ∅ |};
     w_defs := {[ "wf_survey" := wf_survey ]};
     w_clock := map Z.of_nat (seq 100 40);
     w_uuids := ["u1"] |}.

(** An instance of [wf_survey] that has reached the form. *)
Definition w_profile : world :=
  after (ExecuteNextNode (H := lib) "u1") (after (CreateNewInstance "wf_survey") w_start).

(** The definitions of the fixtures are decoded from files in which a
    node either has fields or no [fields] array. *)
Definition no_fields (def : WorkflowNode) : bool :=
  match node_Fields def with [] => true | _ => false end.

Definition answers : gmap string string := {[ "age" := "30"; "name" := "Ann" ]}.

Definition bad_answers : gmap string string := {[ "age" := "old" ]}.

End Survey.

(** ** The store over time *)

(** The store [db'] extends [db]: every node row of [db] is in [db'] as
    it was, and every instance of [db] is in [db'] with the workflow and
    the creation time it had. *)
Definition extends (db db' : store) : Prop :=
  (forall id nrow,
      workflow_instance_nodes db !! id = Some nrow ->
      workflow_instance_nodes db' !! id = Some nrow)
  /\ (forall id row,
        workflow_instances db !! id = Some row ->
        exists row',
          workflow_instances db' !! id = Some row'
          /\ ir_workflow_id row' = ir_workflow_id row
          /\ ir_created_at row' = ir_created_at row).


(** The stored context of every instance. *)
Definition contexts (db : store) : gmap string context :=
  ir_context <$> workflow_instances db.


(** The goroutine [executeEndNode] starts. *)
Definition end_emits (def : WorkflowNode) : list event :=
  match node_End def with
  | Some endConfig =>
      match end_Signal endConfig with
      | Some s =>
          if String.eqb (sig_Emit s) EmptyString then []
          else [EvGo (TEmitSignal (sig_Emit s))]
      | None => []
      end
  | None => []
  end.

(** The world of [Fixture.w_first] with a clock that gives the same
    reading twice. *)
Definition w_same_reading : world :=
  {| w_db := w_db Fixture.w_first; w_defs := w_defs Fixture.w_first;
     w_clock := [200; 200]; w_uuids := [] |}.

(** ** Threads that keep the heads sound

    What a thread may rely on while others run: the node rows it has
    inserted itself, each with the instance it belongs to. *)








(** The ways into the engine: the creation of an instance, a form
    submission, and the goroutines. *)
Inductive entry : Type :=
| ECreate (workflowID : string)
| ESubmit (instanceID : string) (formDataStr : gmap string string)
| ETask (t : task).

Section Entries.
Context `{GoLib}.
Variable fieldsNil : WorkflowNode -> bool.

Definition entry_prog (e : entry) : prog unit :=
  match e with
  | ECreate workflowID => _ <- CreateNewInstance workflowID; Ret tt
  | ESubmit instanceID formDataStr => _ <- submitFormHandler fieldsNil instanceID formDataStr; Ret tt
  | ETask t => task_prog t
  end.

(** The engine at work: the entries as threads of one process. *)
Definition serving (w : world) (entries : list entry) : config :=
  {| c_world := w; c_threads := map entry_prog entries; c_trace := [] |}.

End Entries.

(** ** Threads under a discipline

    A discipline names the statements a thread may issue ([ok]) and what
    it may assume of an instance row it reads ([R]). *)

(** Every statement the program can come to issue is allowed, provided
    each read of an instance row returns a row of which [R] holds; [Q]
    holds of the result. *)
Fixpoint obeys {A : Type} (R : string -> instance_row -> Prop) (ok : stmt -> Prop)
    (Q : A -> Prop) (p : prog A) {struct p} : Prop :=
  match p with
  | Ret a => Q a
  | Vis e k =>
      match e in eff X return (X -> prog A) -> Prop with
      | DBExec s => fun k => ok s /\ forall x, obeys R ok Q (k x)
      | SelectInstance id => fun k =>
          forall r, (forall row, r = Some row -> R id row) -> obeys R ok Q (k r)
      | _ => fun k => forall x, obeys R ok Q (k x)
      end k
  end.

(** The result of [GetInstanceAndDefinition] carries a row that was read. *)
Definition loaded (R : string -> instance_row -> Prop) (instanceID : string)
    (r : result WorkflowInstance) : Prop :=
  match r with
  | Ok instance =>
      exists row,
        R instanceID row
        /\ inst_ID instance = instanceID
        /\ inst_Context instance = ir_context row
        /\ inst_ExpiresAt instance = ir_expires_at row
  | Err _ => True
  end.

Definition anything {A : Type} (a : A) : Prop := True.

(** *** The contexts: [c0] holds the stored context of every instance;
    no instance is inserted, and a row is only given the context it has. *)
Definition context_read (c0 : gmap string context) (id : string) (row : instance_row)
  : Prop :=
  c0 !! id = Some (ir_context row).

Definition context_kept (c0 : gmap string context) (s : stmt) : Prop :=
  match s with
  | InsertInstance _ _ => False
  | InsertNode _ _ => True
  | UpdateCurrentNodeInstance _ _ => True
  | UpdateInstance _ ctx _ _ _ id => forall c, c0 !! id = Some c -> c = ctx
  end.




(** *** The waiting signal: every instance of [db] is in [db'], waiting
    for the signal it waited for or for none. *)
Definition waits_less (db db' : store) : Prop :=
  forall id row,
    workflow_instances db !! id = Some row ->
    exists row',
      workflow_instances db' !! id = Some row'
      /\ (ir_waiting_signal row' = ir_waiting_signal row
          \/ ir_waiting_signal row' = EmptyString).

Definition any_row (id : string) (row : instance_row) : Prop := True.

Definition signal_cleared (s : stmt) : Prop :=
  match s with
  | UpdateInstance _ _ sig _ _ _ => sig = EmptyString
  | _ => True
  end.

Section Goroutines.
Context `{GoLib}.

(** The goroutines of the engine as the threads of one process. *)
Definition running (w : world) (tasks : list task) : config :=
  {| c_world := w; c_threads := map task_prog tasks; c_trace := [] |}.

End Goroutines.

(** * Theorems *)

(** * Facts about the string functions *)

Module GoStringsFacts.
Import GoStrings.

Lemma strip_prefix_head_ne a sep' c s :
  Ascii.eqb a c = false -> strip_prefix (String a sep') (String c s) = None.
Proof. intros E. simpl. now rewrite E. Qed.

Lemma opchar_eqb_false a c : opchar a = true -> opchar c = false -> Ascii.eqb a c = false.
Proof.
  intros Ha Hc. destruct (Ascii.eqb_spec a c) as [->|]; [congruence | reflexivity].
Qed.

Lemma cut_no_opchar sep s :
  op_headed sep = true -> no_opchar s = true -> cut sep s = None.
Proof.
  destruct sep as [|a sep']; [discriminate|]. simpl. intros Ha.
  induction s as [|c s IH]; intros Hs; [reflexivity|].
  simpl in Hs. apply andb_prop in Hs as [Hc Hs]. apply negb_true_iff in Hc.
  cbn [cut]. rewrite strip_prefix_head_ne by now apply opchar_eqb_false.
  now rewrite IH.
Qed.

Lemma cut_skip sep p r :
  op_headed sep = true -> no_opchar p = true ->
  cut sep (p +:+ r) =
    match cut sep r with
    | Some (before, after) => Some (p +:+ before, after)
    | None => None
    end.
Proof.
  destruct sep as [|a sep']; [discriminate|]. simpl. intros Ha.
  induction p as [|c p IH]; intros Hp.
  - change (EmptyString +:+ r) with r.
    destruct (cut (String a sep') r) as [[? ?]|]; reflexivity.
  - simpl in Hp. apply andb_prop in Hp as [Hc Hp]. apply negb_true_iff in Hc.
    change (String c p +:+ r) with (String c (p +:+ r)).
    cbn [cut]. rewrite strip_prefix_head_ne by now apply opchar_eqb_false.
    rewrite IH by assumption.
    now destruct (cut (String a sep') r) as [[? ?]|].
Qed.

Lemma list_ascii_app a b :
  list_ascii_of_string (a +:+ b)
  = (list_ascii_of_string a ++ list_ascii_of_string b)%list.
Proof. induction a as [|c a IH]; simpl; [reflexivity | now rewrite IH]. Qed.

Lemma trim_fuel_id width fuel s :
  width s = 0%nat -> trim_fuel width fuel s = s.
Proof. intros E. destruct fuel; simpl; [reflexivity | now rewrite E]. Qed.

Lemma TrimSpace_trimmed s : trimmed s -> TrimSpace s = s.
Proof.
  intros [Hl Hr]. unfold TrimSpace, TrimRight, TrimLeft.
  rewrite (trim_fuel_id leading_space) by assumption.
  rewrite (trim_fuel_id trailing_space) by assumption.
  rewrite rev_involutive. apply string_of_list_ascii_of_string.
Qed.

Lemma TrimSpace_space_l s : trimmed s -> TrimSpace (" " +:+ s) = s.
Proof.
  intros Hs. rewrite <- (TrimSpace_trimmed s Hs) at 2. reflexivity.
Qed.

Lemma leading_space_snoc l :
  l <> [] -> leading_space l = 0%nat -> leading_space (l ++ [" "%char]) = 0%nat.
Proof.
  destruct l as [|c1 [|c2 [|c3 r]]]; intros Hne; [congruence| | |]; simpl.
  - destruct (asciiSpace c1); [discriminate|]. intros _.
    unfold space2. cbn. now rewrite andb_false_r.
  - destruct (asciiSpace c1); [discriminate|].
    destruct (space2 c1 c2); [discriminate|]. intros _.
    unfold space3. cbn. now rewrite !andb_false_r.
  - trivial.
Qed.

Lemma TrimSpace_space_r s : trimmed s -> TrimSpace (s +:+ " ") = s.
Proof.
  intros [Hl Hr]. unfold TrimSpace. rewrite list_ascii_app.
  change (list_ascii_of_string " ") with [" "%char].
  destruct (list_ascii_of_string s) as [|c l] eqn:E.
  - apply (f_equal string_of_list_ascii) in E.
    rewrite string_of_list_ascii_of_string in E. now subst s.
  - rewrite <- E in *.
    assert (Hne : list_ascii_of_string s <> []) by (rewrite E; discriminate).
    unfold TrimLeft.
    rewrite (trim_fuel_id leading_space) by now apply leading_space_snoc.
    unfold TrimRight. rewrite rev_app_distr, length_app, Nat.add_1_r.
    cbn [rev app trim_fuel trailing_space].
    change (asciiSpace " ") with true. cbn iota.
    change (drop 1 (" "%char :: rev (list_ascii_of_string s)))
      with (rev (list_ascii_of_string s)).
    rewrite (trim_fuel_id trailing_space) by assumption.
    rewrite rev_involutive. apply string_of_list_ascii_of_string.
Qed.

End GoStringsFacts.

(** * The condition evaluator *)

Section GatewayFacts.
Context `{GoLib}.
Import GoStrings GoStringsFacts.

Lemma condition_text_nonempty path op literal :
  String.eqb (condition_text path op literal) EmptyString = false.
Proof. unfold condition_text. now destruct path. Qed.

Lemma append_cons c a b : String c a +:+ b = String c (a +:+ b).
Proof. reflexivity. Qed.

Lemma append_nil b : EmptyString +:+ b = b.
Proof. reflexivity. Qed.

Ltac scan_operator :=
  unfold Contains; rewrite cut_skip by (reflexivity || assumption);
  rewrite ?append_cons, ?append_nil; cbn;
  rewrite ?cut_no_opchar by (reflexivity || assumption); cbn iota.

(** The operator scan finds the operator the text was built with, and
    the split gives back its two operands. *)
Lemma operator_scan path op literal :
  In op operators -> no_opchar path = true -> no_opchar literal = true ->
  find_operator (condition_text path op literal) = Some op
  /\ SplitN2 (condition_text path op literal) op = [path +:+ " "; " " +:+ literal].
Proof.
  intros Hop Hp Hl. unfold condition_text, find_operator, operators, SplitN2.
  simpl in Hop.
  destruct Hop as [<-|[<-|[<-|[<-|[<-|[<-|[]]]]]]]; cbn [find];
    repeat scan_operator; split; reflexivity.
Qed.

Lemma evaluateSimpleCondition_parsed path op literal ctx :
  In op operators -> operand path -> operand literal ->
  evaluateSimpleCondition (condition_text path op literal) ctx =
    match getNestedValue ctx path with
    | None => Err (ErrVariableNotFound path)
    | Some actualValue => compareValue actualValue op path literal
    end.
Proof.
  intros Hop [Hp Tp] [Hl Tl]. unfold evaluateSimpleCondition.
  rewrite condition_text_nonempty.
  destruct (operator_scan path op literal Hop Hp Hl) as [-> ->].
  rewrite TrimSpace_space_r, TrimSpace_space_l by assumption.
  destruct (getNestedValue ctx path) as [[]|]; reflexivity.
Qed.

Lemma string_compare_refl s : String.compare s s = Eq.
Proof.
  pose proof (String.compare_antisym s s) as A.
  destruct (String.compare s s); simpl in A; congruence.
Qed.

Lemma compareStrings_lexicographic actual target op :
  In op operators ->
  compareStrings actual target op = Ok (lexicographic op (String.compare actual target)).
Proof.
  intros Hop. simpl in Hop.
  assert (Heq : String.eqb actual target
                = match String.compare actual target with Eq => true | _ => false end).
  { destruct (String.eqb_spec actual target) as [->|Hne].
    - now rewrite string_compare_refl.
    - destruct (String.compare actual target) eqn:E; try reflexivity.
      apply String.compare_eq_iff in E. congruence. }
  unfold compareStrings, lexicographic, String.ltb, String.leb.
  rewrite (String.compare_antisym target actual).
  destruct Hop as [<-|[<-|[<-|[<-|[<-|[<-|[]]]]]]]; cbn;
    rewrite ?Heq; destruct (String.compare actual target); reflexivity.
Qed.

(** C6.  For a condition [<path> <op> <literal>]: a string at the path
    is compared with the literal as a string, lexicographically,
    whether or not the literal parses as a number; a number (float or
    int) at the path with a literal that does not parse as a number is
    an error; a path missing from the context is an error. *)
Theorem evaluateSimpleCondition_type_rules path op literal ctx :
  In op operators -> operand path -> operand literal ->
  (forall s, getNestedValue ctx path = Some (VString s) ->
     evaluateSimpleCondition (condition_text path op literal) ctx
     = Ok (lexicographic op (String.compare s literal)))
  /\ (forall f, getNestedValue ctx path = Some (VFloat f) ->
        ParseFloat literal = None ->
        evaluateSimpleCondition (condition_text path op literal) ctx
        = Err (ErrTypeMismatch literal path))
  /\ (forall z, getNestedValue ctx path = Some (VInt z) ->
        ParseFloat literal = None ->
        evaluateSimpleCondition (condition_text path op literal) ctx
        = Err (ErrTypeMismatch literal path))
  /\ (getNestedValue ctx path = None ->
        evaluateSimpleCondition (condition_text path op literal) ctx
        = Err (ErrVariableNotFound path)).
Proof.
  intros Hop Hp Hl.
  rewrite (evaluateSimpleCondition_parsed path op literal ctx Hop Hp Hl).
  repeat split.
  - intros s ->. cbn. now apply compareStrings_lexicographic.
  - intros f -> E. cbn. now rewrite E.
  - intros z -> E. cbn. now rewrite E.
  - now intros ->.
Qed.

End GatewayFacts.

(** The type rules at ["age >= 30"] with the string ["4"] at [age]: the
    strings are compared, and ["4"] is above ["30"]. *)
Lemma evaluateSimpleCondition_type_rules_witness :
  evaluateSimpleCondition (H := Fixture.lib) "age >= 30" {["age" := VString "4"]}
  = Ok true.
Proof.
  assert (Hop : In ">=" operators) by (simpl; auto).
  assert (Hp : operand "age") by (repeat split; reflexivity).
  assert (Hl : operand "30") by (repeat split; reflexivity).
  exact (proj1 (evaluateSimpleCondition_type_rules (H := Fixture.lib)
                  "age" ">=" "30" {["age" := VString "4"]} Hop Hp Hl)
               "4" eq_refl).
Defined.

(** * The gateway resolver *)

Section ResolverFacts.
Context `{GoLib}.

Lemma conditionMet_matched ctx c :
  matched ctx c = match conditionMet c ctx with Some true => true | _ => false end.
Proof.
  unfold matched, conditionMet.
  destruct (String.eqb (cond_When c) EmptyString); simpl.
  - now destruct (cond_Else c).
  - now destruct (evaluateSimpleCondition (cond_When c) ctx) as [[]|].
Qed.

Lemma scanConditions_find conditions ctx :
  scanConditions conditions ctx =
    match find (matched ctx) conditions with
    | Some c => (cond_Next c, signal_to_throw c)
    | None => (EmptyString, EmptyString)
    end.
Proof.
  induction conditions as [|c rest IH]; [reflexivity|].
  cbn [scanConditions find]. rewrite conditionMet_matched.
  destruct (conditionMet c ctx) as [[]|]; auto.
Qed.

(** C3, amended.  The resolver returns the [next] and the throw-signal
    of the first condition, in order, that is [matched]; an evaluation
    error is no match and the scan goes on.  No match, or a first match
    whose [next] is empty, is the "no matching gateway condition" error;
    an empty list is the "no conditions defined" error. *)
Theorem resolveConditions_first_match conditions ctx :
  resolveConditions conditions ctx =
    match conditions with
    | [] => Err ErrNoConditions
    | _ =>
        match find (matched ctx) conditions with
        | Some c =>
            if String.eqb (cond_Next c) EmptyString then Err ErrNoMatchingCondition
            else Ok (cond_Next c, signal_to_throw c)
        | None => Err ErrNoMatchingCondition
        end
    end.
Proof.
  unfold resolveConditions. destruct conditions as [|c rest]; [reflexivity|].
  rewrite scanConditions_find.
  destruct (find (matched ctx) (c :: rest)); reflexivity.
Qed.

End ResolverFacts.

(** C3 as stated fails: with [age = 17], a condition that has both
    [when: "age >= 30"] and [else: true] is a match by the claim, and the
    resolver reports that nothing matched. *)
Lemma resolveConditions_else_with_when :
  let ctx : context := {["age" := VFloat 17%float]} in
  claimed_resolve (H := Fixture.lib) [both_when_and_else] ctx = Ok ("B", EmptyString)
  /\ resolveConditions (H := Fixture.lib) [both_when_and_else] ctx
     = Err ErrNoMatchingCondition.
Proof. split; vm_compute; reflexivity. Qed.

(** The other two departures from the claim. *)
Example resolveConditions_empty_list :
  resolveConditions (H := Fixture.lib) [] ∅ = Err ErrNoConditions.
Proof. reflexivity. Qed.

Example resolveConditions_empty_next :
  resolveConditions (H := Fixture.lib)
    [{| cond_When := EmptyString; cond_Next := EmptyString; cond_Else := true; cond_Signal := None |}] ∅
  = Err ErrNoMatchingCondition.
Proof. reflexivity. Qed.

Example gateway_scenario :
  let conditions :=
    [{| cond_When := "age >= 30"; cond_Next := "A"; cond_Else := false;
        cond_Signal := Some {| sig_Emit := EmptyString; sig_Catch := EmptyString; sig_Throw := "go" |} |};
     {| cond_When := EmptyString; cond_Next := "B"; cond_Else := true; cond_Signal := None |}] in
  resolveConditions (H := Fixture.lib) conditions {["age" := VFloat 31%float]} = Ok ("A", "go")
  /\ resolveConditions (H := Fixture.lib) conditions {["age" := VFloat 17%float]} = Ok ("B", EmptyString)
  /\ resolveConditions (H := Fixture.lib) conditions ∅ = Ok ("B", EmptyString).
Proof. repeat split; vm_compute; reflexivity. Qed.

(** * Script predicates *)

Section ScriptFacts.
Context `{GoLib}.

(** C8, amended.  When the condition decodes and runs, a boolean result
    is returned as it is, an undefined or null result is [false] without
    an error, and every other result is the "did not return a boolean"
    error. *)
Theorem EvaluateCondition_result base64Condition ctx script val process_data :
  DecodeString base64Condition = Some script ->
  RunString script ctx = Some (val, process_data) ->
  EvaluateCondition base64Condition ctx =
    match val with
    | JBool b => Ok b
    | JUndefined | JNull => Ok false
    | _ => Err ErrNotBoolean
    end.
Proof.
  intros Hd Hr. unfold EvaluateCondition. rewrite Hd, Hr. now destruct val.
Qed.

End ScriptFacts.

Lemma EvaluateCondition_result_witness :
  EvaluateCondition (H := Fixture.lib) "NDI=" ∅ = Err ErrNotBoolean.
Proof.
  exact (EvaluateCondition_result (H := Fixture.lib) "NDI=" ∅ "42"
           (JNumber 42%float) (JObject ∅) eq_refl eq_refl).
Defined.

(** C8 as stated fails: the scripts [undefined] and [null] do not evaluate
    to a boolean, and [EvaluateCondition] returns [false] and no error. *)
Lemma EvaluateCondition_undefined_is_false :
  EvaluateCondition (H := Fixture.lib) "dW5kZWZpbmVk" ∅ = Ok false
  /\ EvaluateCondition (H := Fixture.lib) "bnVsbA==" ∅ = Ok false.
Proof. split; reflexivity. Qed.

(** * Form input *)

Section FormFacts.
Context `{GoLib}.

Lemma mergeField_other input ctx field key :
  field_Name field <> key -> mergeField input ctx field !! key = ctx !! key.
Proof.
  intros Hne. unfold mergeField.
  destruct (input !! field_Name field) as [val|]; [|reflexivity].
  destruct (String.eqb (field_Type field) "number");
    [destruct (Sscanf_f val)|]; now rewrite lookup_insert_ne.
Qed.

Lemma MergeFormInputIntoContext_snoc ctx formFields field input :
  MergeFormInputIntoContext ctx (formFields ++ [field]) input
  = mergeField input (MergeFormInputIntoContext ctx formFields input) field.
Proof. unfold MergeFormInputIntoContext. now rewrite fold_left_app. Qed.

(** C10.  After the merge, a key that is the name of a declared field
    and is present in the input holds the submitted text, or, for a
    field of type [number] whose text scans as a float, that float; any
    other key of the context, declared or not, submitted or not, holds
    what it held before. *)
Theorem MergeFormInputIntoContext_lookup ctx formFields input key :
  MergeFormInputIntoContext ctx formFields input !! key =
    match declared formFields key, input !! key with
    | Some field, Some val =>
        if String.eqb (field_Type field) "number" then
          match Sscanf_f val with
          | Some num => Some (VFloat num)
          | None => Some (VString val)
          end
        else Some (VString val)
    | _, _ => ctx !! key
    end.
Proof.
  induction formFields as [|field formFields IH] using rev_ind.
  - reflexivity.
  - rewrite MergeFormInputIntoContext_snoc. unfold declared.
    rewrite rev_app_distr. cbn [rev app find].
    destruct (String.eqb_spec (field_Name field) key) as [E|Hne].
    + unfold mergeField. rewrite E.
      destruct (input !! key) as [val|] eqn:Ei.
      * destruct (String.eqb (field_Type field) "number");
          [destruct (Sscanf_f val)|]; now rewrite lookup_insert_eq.
      * rewrite IH. now destruct (declared formFields key).
    + rewrite mergeField_other by assumption. apply IH.
Qed.

End FormFacts.

Example merge_number_and_text :
  let fields :=
    [{| field_ID := EmptyString; field_Name := "age"; field_Label := EmptyString; field_Type := "number";
        field_Required := true |};
     {| field_ID := EmptyString; field_Name := "name"; field_Label := EmptyString; field_Type := "text";
        field_Required := false |}] in
  let input : gmap string string :=
    {["age" := "31"; "name" := "alice"; "extra" := "x"]} in
  let ctx := MergeFormInputIntoContext (H := Fixture.lib) {["k" := VBool true]} fields input in
  ctx !! "age" = Some (VFloat 31%float) /\ ctx !! "name" = Some (VString "alice")
  /\ ctx !! "extra" = None /\ ctx !! "k" = Some (VBool true).
Proof. repeat split; vm_compute; reflexivity. Qed.

(** * Running programs: the equations of [run] *)

Lemma run_bind {A B : Type} (p : prog A) (f : A -> prog B) (w : world) :
  run (bind p f) w =
    let '(a, w1, evs1) := run p w in
    let '(b, w2, evs2) := run (f a) w1 in
    (b, w2, (evs1 ++ evs2)%list).
Proof.
  revert w. induction p as [a|X e k IH]; intros w.
  - cbn [bind run]. now destruct (run (f a) w) as [[b w2] evs2].
  - cbn [bind run]. destruct (handle e w) as [[x w'] evs].
    rewrite IH. destruct (run (k x) w') as [[a w1] evs1].
    destruct (run (f a) w1) as [[b w2] evs2]. now rewrite app_assoc.
Qed.

Lemma run_call {X : Type} (e : eff X) (w : world) :
  run (call e) w = let '(x, w', evs) := handle e w in (x, w', evs).
Proof.
  unfold call. cbn [run]. destruct (handle e w) as [[x w'] evs].
  now rewrite app_nil_r.
Qed.

Lemma run_try {A B : Type} (p : prog (result A)) (k : A -> prog (result B)) w :
  run (try p k) w =
    let '(r, w1, evs1) := run p w in
    match r with
    | Ok a => let '(b, w2, evs2) := run (k a) w1 in (b, w2, (evs1 ++ evs2)%list)
    | Err e => (Err e, w1, evs1)
    end.
Proof.
  unfold try. rewrite run_bind. destruct (run p w) as [[[a|e] w1] evs1].
  - reflexivity.
  - cbn [run]. now rewrite app_nil_r.
Qed.

(** * The persistence functions *)

Lemma run_UpdateInstanceCurrentNodeAndContext w instanceID newNodeID ctx sig exp :
  workflow_instance_nodes (w_db w) !! advance_row_id w instanceID newNodeID = None ->
  run (UpdateInstanceCurrentNodeAndContext instanceID newNodeID ctx sig exp) w
  = (Ok (advance_row_id w instanceID newNodeID),
     with_db (tick w) (advanced w instanceID newNodeID ctx sig exp),
     advance_events w instanceID newNodeID ctx sig exp).
Proof.
  intros Hfresh. unfold UpdateInstanceCurrentNodeAndContext.
  rewrite run_bind, run_call. cbn [handle].
  rewrite run_try. unfold exec at 1. rewrite run_bind, run_call. cbn [handle exec_stmt tick w_db].
  fold (advance_row_id w instanceID newNodeID). rewrite Hfresh.
  cbn [run]. rewrite run_try. unfold exec. rewrite run_bind, run_call.
  cbn [handle exec_stmt with_db w_db run workflow_instances workflow_instance_nodes].
  reflexivity.
Qed.

Lemma run_UpdateInstanceCurrentNodeAndContext_taken w instanceID newNodeID ctx sig exp :
  is_Some (workflow_instance_nodes (w_db w) !! advance_row_id w instanceID newNodeID) ->
  run (UpdateInstanceCurrentNodeAndContext instanceID newNodeID ctx sig exp) w
  = (Err (ErrConstraint "workflow_instance_nodes" (advance_row_id w instanceID newNodeID)),
     tick w,
     [EvExec (InsertNode (advance_row_id w instanceID newNodeID)
                (advance_node_row w instanceID newNodeID ctx sig exp))
             (Some (ErrConstraint "workflow_instance_nodes"
                      (advance_row_id w instanceID newNodeID)))]).
Proof.
  intros [old Hold]. unfold UpdateInstanceCurrentNodeAndContext.
  rewrite run_bind, run_call. cbn [handle].
  rewrite run_try. unfold exec at 1. rewrite run_bind, run_call. cbn [handle exec_stmt tick w_db].
  fold (advance_row_id w instanceID newNodeID). rewrite Hold.
  reflexivity.
Qed.

Lemma run_GetInstanceAndDefinition w instanceID :
  run (GetInstanceAndDefinition instanceID) w
  = (load w instanceID, w, [head_read w instanceID]).
Proof.
  unfold GetInstanceAndDefinition, load, head_read.
  rewrite run_try. unfold GetInstance. rewrite run_bind, run_call. cbn [handle run].
  destruct (workflow_instances (w_db w) !! instanceID) as [row|]; [|reflexivity].
  rewrite run_try. unfold GetNodeInstance. rewrite run_bind, run_call. cbn [handle run].
  destruct (workflow_instance_nodes (w_db w) !! ir_current_node_instance_id row)
    as [nrow|]; [|reflexivity].
  rewrite run_try. unfold GetWorkflowDefinition. rewrite run_bind, run_call.
  cbn [handle run].
  destruct (w_defs w !! ir_workflow_id row) as [wf|]; [|reflexivity].
  destruct (GetNodeByID wf (nr_node_id nrow)); reflexivity.
Qed.

Lemma load_inv w instanceID instance :
  load w instanceID = Ok instance ->
  exists row nrow wf def,
    workflow_instances (w_db w) !! instanceID = Some row
    /\ workflow_instance_nodes (w_db w) !! ir_current_node_instance_id row = Some nrow
    /\ w_defs w !! ir_workflow_id row = Some wf
    /\ GetNodeByID wf (nr_node_id nrow) = Some def
    /\ inst_ID instance = instanceID
    /\ inst_CurrentNode instance = nr_node_id nrow
    /\ inst_CurrentNodeInstanceDBID instance = ir_current_node_instance_id row
    /\ inst_Context instance = ir_context row
    /\ inst_WaitingSignal instance = ir_waiting_signal row
    /\ inst_ExpiresAt instance = ir_expires_at row
    /\ inst_WorkflowDef instance = wf
    /\ inst_CurrentNodeDef instance = Some def.
Proof.
  unfold load. intros Hl.
  destruct (workflow_instances (w_db w) !! instanceID) as [row|]; [|discriminate].
  destruct (workflow_instance_nodes (w_db w) !! ir_current_node_instance_id row)
    as [nrow|] eqn:En; [|discriminate].
  destruct (w_defs w !! ir_workflow_id row) as [wf|] eqn:Ew; [|discriminate].
  destruct (GetNodeByID wf (nr_node_id nrow)) as [def|] eqn:Ed; [|discriminate].
  injection Hl as <-. exists row, nrow, wf, def. repeat split; auto.
Qed.

Lemma alter_lookup_Some {A} (f : A -> A) (m : gmap string A) k x :
  m !! k = Some x -> alter f k m = <[k := f x]> m.
Proof.
  intros Hk. apply map_eq. intros j. rewrite lookup_alter, lookup_insert.
  destruct (decide (k = j)) as [<-|]; [now rewrite Hk | reflexivity].
Qed.

(** * The engine *)

Lemma run_advanceInstance w instanceID nextNodeID instance :
  load w instanceID = Ok instance ->
  workflow_instance_nodes (w_db w) !! advance_row_id (tick w) instanceID nextNodeID = None ->
  run (advanceInstance instanceID nextNodeID None) w
  = (match GetNodeByID (inst_WorkflowDef instance) nextNodeID with
     | None => Err PanicNilPointer
     | Some _ => Ok tt
     end,
     with_db (tick (tick w))
       (advanced (tick w) instanceID nextNodeID (inst_Context instance) EmptyString
                 (inst_ExpiresAt instance)),
     (head_read w instanceID
      :: advance_events (tick w) instanceID nextNodeID (inst_Context instance) EmptyString
           (inst_ExpiresAt instance)
      ++ match GetNodeByID (inst_WorkflowDef instance) nextNodeID with
         | Some def => if may_continue def then [EvGo (TExecuteNextNode instanceID)] else []
         | None => []
         end)%list).
Proof.
  intros Hload Hfresh. unfold advanceInstance.
  rewrite run_try, run_GetInstanceAndDefinition, Hload.
  destruct (load_inv _ _ _ Hload) as (row & nrow & wf & def & _ & _ & _ & _ & Hid & _).
  rewrite Hid. rewrite run_bind, run_call. cbn [handle].
  rewrite run_try.
  rewrite (run_UpdateInstanceCurrentNodeAndContext (tick w)) by exact Hfresh.
  unfold may_continue.
  destruct (GetNodeByID (inst_WorkflowDef instance) nextNodeID) as [next|].
  - destruct (negb (node_Type next =? "end")%string && negb (node_Type next =? "form")%string);
      cbn [andb String.eqb]; [rewrite run_bind, run_call|]; cbn [handle run];
      rewrite ?app_nil_r; reflexivity.
  - cbn [run]. rewrite ?app_nil_r. reflexivity.
Qed.

Section TimeoutFacts.
Context `{GoLib}.

(** C4.  When the timeout goroutine wakes up and the instance loads:
    if the head's [current_node_instance_id] is the execution ID the
    goroutine captured, the store gets a node row for [timeout.next]
    and the head points to it, with an empty [waiting_signal] and the
    context it had; if the head holds another ID, the store is left as
    it was. *)
Theorem timeoutGoroutine_cookie_check w instID timeoutCfg originalNodeID
    originalNodeInstanceDBID duration row nrow wf def :
  ParseDuration (to_Duration timeoutCfg) = Some duration ->
  workflow_instances (w_db w) !! instID = Some row ->
  workflow_instance_nodes (w_db w) !! ir_current_node_instance_id row = Some nrow ->
  w_defs w !! ir_workflow_id row = Some wf ->
  GetNodeByID wf (nr_node_id nrow) = Some def ->
  let now := next_now (tick w) in
  let newID := to_Next timeoutCfg +:+ "-" +:+ instID +:+ "-" +:+ itoa now in
  workflow_instance_nodes (w_db w) !! newID = None ->
  let '(_, w', _) :=
    run (timeoutGoroutine instID timeoutCfg originalNodeID originalNodeInstanceDBID) w in
  (ir_current_node_instance_id row = originalNodeInstanceDBID ->
     workflow_instances (w_db w')
     = <[instID := {| ir_workflow_id := ir_workflow_id row;
                      ir_current_node_instance_id := newID;
                      ir_context := ir_context row;
                      ir_waiting_signal := EmptyString;
                      ir_expires_at := ir_expires_at row;
                      ir_created_at := ir_created_at row;
                      ir_updated_at := now |}]> (workflow_instances (w_db w))
     /\ workflow_instance_nodes (w_db w')
        = <[newID := {| nr_workflow_instance_id := instID;
                        nr_node_id := to_Next timeoutCfg;
                        nr_context := ir_context row;
                        nr_waiting_signal := EmptyString;
                        nr_expires_at := ir_expires_at row;
                        nr_created_at := now;
                        nr_updated_at := now |}]> (workflow_instance_nodes (w_db w)))
  /\ (ir_current_node_instance_id row <> originalNodeInstanceDBID ->
        w_db w' = w_db w).
Proof.
  intros Hd Hrow Hnrow Hwf Hdef now newID Hfresh.
  assert (Hload : load w instID
                  = Ok {| inst_ID := instID;
                          inst_WorkflowID := ir_workflow_id row;
                          inst_CurrentNode := nr_node_id nrow;
                          inst_CurrentNodeInstanceDBID := ir_current_node_instance_id row;
                          inst_Context := ir_context row;
                          inst_WaitingSignal := ir_waiting_signal row;
                          inst_ExpiresAt := ir_expires_at row;
                          inst_CreatedAt := ir_created_at row;
                          inst_UpdatedAt := ir_updated_at row;
                          inst_WorkflowDef := wf;
                          inst_CurrentNodeDef := Some def |}).
  { unfold load. now rewrite Hrow, Hnrow, Hwf, Hdef. }
  unfold timeoutGoroutine. rewrite Hd.
  rewrite run_bind, run_call. cbn [handle].
  rewrite run_bind, run_GetInstanceAndDefinition, Hload.
  cbn [inst_CurrentNodeInstanceDBID].
  destruct (String.eqb_spec (ir_current_node_instance_id row) originalNodeInstanceDBID)
    as [Heq|Hne].
  - rewrite run_bind.
    rewrite (run_advanceInstance w instID (to_Next timeoutCfg) _ Hload Hfresh).
    cbn [inst_Context inst_ExpiresAt inst_WorkflowDef].
    match goal with
    | |- context [run (match ?r with Ok _ => _ | Err _ => _ end) ?w1] =>
        destruct (run (match r with Ok _ => Ret tt | Err e => call (LogError e) end) w1)
          as [[u w2] evs2] eqn:Elog;
        assert (Hw2 : w2 = w1)
          by (destruct r; [|rewrite run_call in Elog]; cbn in Elog; congruence)
    end.
    subst w2. cbn [with_db w_db advanced workflow_instances workflow_instance_nodes].
    split; [|congruence]. intros _. split; [|reflexivity].
    now rewrite (alter_lookup_Some _ _ _ _ Hrow).
  - cbn [run]. split; [congruence | reflexivity].
Qed.

End TimeoutFacts.

(** * The signal registry *)

Lemma run_resumeEach_cons w id rest :
  run (resumeEach (id :: rest)) w =
    let '(w1, evs1) := resume_one w id in
    let '(u, w2, evs2) := run (resumeEach rest) w1 in
    (u, w2, (evs1 ++ evs2)%list).
Proof.
  cbn [resumeEach]. unfold resume_one.
  rewrite run_bind, run_GetInstanceAndDefinition.
  destruct (load w id) as [instance|e] eqn:Hload.
  - destruct (load_inv _ _ _ Hload) as (row & nrow & wf & def & _ & _ & _ & _ & Hid & _).
    rewrite Hid. rewrite run_bind.
    destruct (workflow_instance_nodes (w_db w)
                !! advance_row_id w id (inst_CurrentNode instance)) eqn:Hrow.
    + rewrite run_UpdateInstanceCurrentNodeAndContext_taken by (rewrite Hrow; eauto).
      rewrite run_bind, run_call. cbn [handle].
      destruct (run (resumeEach rest) (tick w)) as [[u w2] evs2]. reflexivity.
    + rewrite run_UpdateInstanceCurrentNodeAndContext by exact Hrow.
      rewrite run_bind, run_call. cbn [handle].
      destruct (run (resumeEach rest) _) as [[u w2] evs2].
      cbn [app]. now rewrite <- !app_assoc.
  - rewrite run_bind, run_call. cbn [handle].
    destruct (run (resumeEach rest) w) as [[u w2] evs2]. reflexivity.
Qed.

Lemma resume_one_other w id id' :
  id <> id' ->
  workflow_instances (w_db (resume_one w id).1) !! id'
  = workflow_instances (w_db w) !! id'.
Proof.
  intros Hne. unfold resume_one.
  destruct (load w id) as [instance|e]; [|reflexivity].
  destruct (workflow_instance_nodes (w_db w) !! _); [reflexivity|].
  cbn. now rewrite lookup_alter_ne.
Qed.

Lemma resumeEach_other ids : forall w id',
  id' ∉ ids ->
  workflow_instances (w_db (run (resumeEach ids) w).1.2) !! id'
  = workflow_instances (w_db w) !! id'.
Proof.
  induction ids as [|id rest IH]; intros w id' Hnotin; [reflexivity|].
  rewrite run_resumeEach_cons.
  apply not_elem_of_cons in Hnotin as [Hne Hrest].
  destruct (resume_one w id) as [w1 evs1] eqn:E1.
  specialize (IH w1 id' Hrest).
  destruct (run (resumeEach rest) w1) as [[u w2] evs2]. cbn in *.
  rewrite IH. pose proof (resume_one_other w id id' (not_eq_sym Hne)) as Ho.
  now rewrite E1 in Ho.
Qed.

(** A round that logs nothing advanced the instance. *)
Lemma resume_one_quiet w id row :
  workflow_instances (w_db w) !! id = Some row ->
  (forall e, EvLog e ∉ (resume_one w id).2) ->
  exists node,
    workflow_instance_nodes (w_db w) !! advance_row_id w id node = None
    /\ is_Some (workflow_instance_nodes (w_db w) !! ir_current_node_instance_id row)
    /\ workflow_instances (w_db (resume_one w id).1) !! id
       = Some (advance_head w id node (ir_context row) EmptyString (ir_expires_at row) row)
    /\ EvGo (TExecuteNextNode id) ∈ (resume_one w id).2.
Proof.
  intros Hrow Hquiet. unfold resume_one in *.
  destruct (load w id) as [instance|e] eqn:Hload.
  - destruct (load_inv _ _ _ Hload)
      as (row0 & nrow & wf & def & Hrow0 & Hnrow & _ & _ & _ & _ & _ & Hctx & _ & Hexp & _).
    rewrite Hrow in Hrow0. injection Hrow0 as <-.
    rewrite Hctx, Hexp in *.
    destruct (workflow_instance_nodes (w_db w)
                !! advance_row_id w id (inst_CurrentNode instance)) eqn:Hfresh.
    + exfalso. eapply Hquiet. cbn. apply list_elem_of_In. right. right. left. reflexivity.
    + exists (inst_CurrentNode instance).
      split; [exact Hfresh|]. split; [rewrite Hnrow; eauto|]. split.
      * cbn. now rewrite lookup_alter_eq, Hrow.
      * cbn. apply list_elem_of_In. right. right. right. now left.
  - exfalso. eapply Hquiet. cbn. apply list_elem_of_In. right. left. reflexivity.
Qed.

Lemma quiet_app (evs1 evs2 : list event) :
  (forall e, EvLog e ∉ (evs1 ++ evs2)%list) ->
  (forall e, EvLog e ∉ evs1) /\ (forall e, EvLog e ∉ evs2).
Proof.
  intros Hq. split; intros e Hin; apply (Hq e), elem_of_app; auto.
Qed.

Lemma resumeEach_quiet ids :
  NoDup ids -> forall w,
  (forall e, EvLog e ∉ (run (resumeEach ids) w).2) ->
  forall id row,
    id ∈ ids -> workflow_instances (w_db w) !! id = Some row ->
    exists row',
      workflow_instances (w_db (run (resumeEach ids) w).1.2) !! id = Some row'
      /\ ir_waiting_signal row' = EmptyString
      /\ ir_context row' = ir_context row
      /\ ir_current_node_instance_id row' <> ir_current_node_instance_id row
      /\ EvGo (TExecuteNextNode id) ∈ (run (resumeEach ids) w).2.
Proof.
  induction 1 as [|id0 rest Hnotin Hnodup IH]; intros w Hquiet id row Hin Hrow.
  - now apply elem_of_nil in Hin.
  - rewrite run_resumeEach_cons in *.
    pose proof (resumeEach_other rest (resume_one w id0).1 id0 Hnotin) as Hkeep.
    pose proof (resume_one_other w id0 id) as Hother.
    pose proof (resume_one_quiet w id0) as Hone.
    destruct (resume_one w id0) as [w1 evs1]. cbn [fst snd] in *.
    specialize (IH w1).
    destruct (run (resumeEach rest) w1) as [[u w2] evs2]. cbn [fst snd] in *.
    apply quiet_app in Hquiet as [Hq1 Hq2].
    apply elem_of_cons in Hin as [->|Hin].
    + destruct (Hone row Hrow Hq1) as (node & Hfresh & [nrow Hnrow] & Hrow1 & Hgo).
      eexists. split; [rewrite Hkeep; exact Hrow1|]. cbn.
      repeat split; [|apply elem_of_app; auto].
      intros Heq. unfold advance_row_id in *. rewrite Heq in Hfresh. congruence.
    + assert (Hne : id0 <> id) by (intros ->; contradiction).
      rewrite <- (Hother Hne) in Hrow.
      destruct (IH Hq2 id row Hin Hrow) as (row' & ? & ? & ? & ? & ?).
      exists row'. repeat split; auto. apply elem_of_app. auto.
Qed.

Lemma elem_of_select_waiting signalName db id :
  id ∈ select_waiting signalName db <->
  exists row, workflow_instances db !! id = Some row
              /\ ir_waiting_signal row = signalName.
Proof.
  unfold select_waiting. rewrite list_elem_of_fmap. split.
  - intros ([id' row] & -> & Hin). apply elem_of_map_to_list in Hin.
    apply map_lookup_filter_Some in Hin as [Hrow Hsig]. eauto.
  - intros (row & Hrow & Hsig). exists (id, row). split; [reflexivity|].
    apply elem_of_map_to_list, map_lookup_filter_Some. auto.
Qed.

Lemma NoDup_select_waiting signalName db : NoDup (select_waiting signalName db).
Proof. apply NoDup_fst_map_to_list. Qed.

Lemma select_waiting_nil signalName db :
  (forall id row, workflow_instances db !! id = Some row ->
                  ir_waiting_signal row <> signalName) ->
  select_waiting signalName db = [].
Proof.
  intros Hno. destruct (select_waiting signalName db) as [|id rest] eqn:E; [reflexivity|].
  assert (Hin : id ∈ select_waiting signalName db) by (rewrite E; left).
  apply elem_of_select_waiting in Hin as (row & Hrow & Hsig).
  now destruct (Hno id row Hrow).
Qed.

Lemma run_ResumeWorkflowsBySignal w signalName :
  run (ResumeWorkflowsBySignal signalName) w =
    let '(_, w', evs) := run (resumeEach (select_waiting signalName (w_db w))) w in
    (Ok tt, w', evs).
Proof.
  unfold ResumeWorkflowsBySignal, GetInstancesWaitingForSignal.
  rewrite run_try, run_bind, run_call. cbn [handle run].
  destruct (select_waiting signalName (w_db w)) as [|id rest]; [reflexivity|].
  rewrite run_bind.
  destruct (run (resumeEach (id :: rest)) w) as [[u w'] evs]. cbn [run app].
  now rewrite app_nil_r.
Qed.

(** C5.  [ResumeWorkflowsBySignal] never returns an error.  It leaves
    alone every instance whose [waiting_signal] is not the emitted name.
    When it logs no failure, every instance whose [waiting_signal] is the
    emitted name gets a new current execution with an empty
    [waiting_signal] and the same context, and is scheduled for
    execution; an emit of the same (non-empty) name in the world this
    leaves finds no instance and changes nothing.  With no instance
    waiting, nothing is changed and nothing is started. *)
Theorem ResumeWorkflowsBySignal_exactly_waiting w signalName :
  let '(r, w', evs) := run (ResumeWorkflowsBySignal signalName) w in
  r = Ok tt
  /\ (forall id,
        (forall row, workflow_instances (w_db w) !! id = Some row ->
                     ir_waiting_signal row <> signalName) ->
        workflow_instances (w_db w') !! id = workflow_instances (w_db w) !! id)
  /\ ((forall e, EvLog e ∉ evs) ->
      forall id row,
        workflow_instances (w_db w) !! id = Some row ->
        ir_waiting_signal row = signalName ->
        exists row',
          workflow_instances (w_db w') !! id = Some row'
          /\ ir_waiting_signal row' = EmptyString
          /\ ir_context row' = ir_context row
          /\ ir_current_node_instance_id row' <> ir_current_node_instance_id row
          /\ EvGo (TExecuteNextNode id) ∈ evs)
  /\ (signalName <> EmptyString -> (forall e, EvLog e ∉ evs) ->
      run (ResumeWorkflowsBySignal signalName) w' = (Ok tt, w', []))
  /\ (select_waiting signalName (w_db w) = [] -> w' = w /\ evs = []).
Proof.
  rewrite run_ResumeWorkflowsBySignal.
  pose proof (resumeEach_other (select_waiting signalName (w_db w)) w) as Hother.
  pose proof (resumeEach_quiet _ (NoDup_select_waiting signalName (w_db w)) w) as Hquiet.
  assert (Hnil : select_waiting signalName (w_db w) = [] ->
                 run (resumeEach (select_waiting signalName (w_db w))) w = (tt, w, []))
    by (now intros ->).
  destruct (run (resumeEach (select_waiting signalName (w_db w))) w) as [[u w'] evs].
  cbn in Hother, Hquiet.
  assert (Huntouched : forall id,
            (forall row, workflow_instances (w_db w) !! id = Some row ->
                         ir_waiting_signal row <> signalName) ->
            workflow_instances (w_db w') !! id = workflow_instances (w_db w) !! id).
  { intros id Hno. apply Hother. intros Hin.
    apply elem_of_select_waiting in Hin as (row & Hrow & Hsig).
    now destruct (Hno row Hrow). }
  assert (Hcleared : (forall e, EvLog e ∉ evs) ->
            forall id row,
              workflow_instances (w_db w) !! id = Some row ->
              ir_waiting_signal row = signalName ->
              exists row',
                workflow_instances (w_db w') !! id = Some row'
                /\ ir_waiting_signal row' = EmptyString
                /\ ir_context row' = ir_context row
                /\ ir_current_node_instance_id row' <> ir_current_node_instance_id row
                /\ EvGo (TExecuteNextNode id) ∈ evs).
  { intros Hq id row Hrow Hsig. apply (Hquiet Hq id row); [|exact Hrow].
    apply elem_of_select_waiting. eauto. }
  split; [reflexivity|]. split; [exact Huntouched|]. split; [exact Hcleared|].
  split.
  - intros Hname Hq. rewrite run_ResumeWorkflowsBySignal.
    rewrite select_waiting_nil; [reflexivity|].
    intros id row' Hrow' Hsig.
    destruct (workflow_instances (w_db w) !! id) as [row|] eqn:Hrow.
    + destruct (decide (ir_waiting_signal row = signalName)) as [Hw|Hw].
      * destruct (Hcleared Hq id row Hrow Hw) as (row'' & Hrow'' & Hempty & _).
        rewrite Hrow' in Hrow''. injection Hrow'' as <-. congruence.
      * rewrite Huntouched, Hrow in Hrow'.
        -- injection Hrow' as <-. contradiction.
        -- intros row0 Hrow0. rewrite Hrow in Hrow0. now injection Hrow0 as <-.
    + rewrite Huntouched, Hrow in Hrow'; [discriminate|].
      intros row0 Hrow0. rewrite Hrow in Hrow0. discriminate.
  - intros Hsel. specialize (Hnil Hsel). now injection Hnil as -> ->.
Qed.

(** * The advancement primitive *)

(** C1, amended.  An advance names the instance and the new node and
    nothing else: whatever [current_node_instance_id] the head holds,
    [UpdateInstanceCurrentNodeAndContext] succeeds when the row ID it
    generates is free, inserts the node row and points the head to it. *)
Theorem UpdateInstanceCurrentNodeAndContext_unconditional
    w instanceID newNodeID ctx sig exp row :
  workflow_instances (w_db w) !! instanceID = Some row ->
  let now := next_now w in
  let newID := newNodeID +:+ "-" +:+ instanceID +:+ "-" +:+ itoa now in
  workflow_instance_nodes (w_db w) !! newID = None ->
  let '(r, w', _) :=
    run (UpdateInstanceCurrentNodeAndContext instanceID newNodeID ctx sig exp) w in
  r = Ok newID
  /\ workflow_instances (w_db w') !! instanceID
     = Some {| ir_workflow_id := ir_workflow_id row;
               ir_current_node_instance_id := newID;
               ir_context := ctx;
               ir_waiting_signal := sig;
               ir_expires_at := exp;
               ir_created_at := ir_created_at row;
               ir_updated_at := now |}
  /\ workflow_instance_nodes (w_db w') !! newID
     = Some {| nr_workflow_instance_id := instanceID;
               nr_node_id := newNodeID;
               nr_context := ctx;
               nr_waiting_signal := sig;
               nr_expires_at := exp;
               nr_created_at := now;
               nr_updated_at := now |}.
Proof.
  intros Hrow now newID Hfresh.
  rewrite (run_UpdateInstanceCurrentNodeAndContext w) by exact Hfresh.
  cbn [with_db w_db advanced workflow_instances workflow_instance_nodes].
  split; [reflexivity|]. split.
  - now rewrite lookup_alter_eq, Hrow.
  - now rewrite lookup_insert_eq.
Qed.

(** * Crashes *)

(** C2, amended.  An advance is two statements, each committed on its
    own: when the process dies between them the store holds the new node
    row and the head as it was; when both run, the head points to the new
    row.  Creation is three statements: after the first the store holds
    the instance row with an empty [current_node_instance_id] and no node
    row, after the second also the node row, and only after the third
    does the head point to it. *)
Theorem advance_and_creation_statements w instanceID nodeID ctx sig exp :
  let now := next_now w in
  let instances := workflow_instances (w_db w) in
  let nodes := workflow_instance_nodes (w_db w) in
  let nrow := {| nr_workflow_instance_id := instanceID; nr_node_id := nodeID;
                 nr_context := ctx; nr_waiting_signal := sig; nr_expires_at := exp;
                 nr_created_at := now; nr_updated_at := now |} in
  (forall row,
     let newID := nodeID +:+ "-" +:+ instanceID +:+ "-" +:+ itoa now in
     let advance := UpdateInstanceCurrentNodeAndContext instanceID nodeID ctx sig exp in
     instances !! instanceID = Some row -> nodes !! newID = None ->
     w_db (crash_after 2 advance w)
     = {| workflow_instances := instances;
          workflow_instance_nodes := <[newID := nrow]> nodes |}
     /\ w_db (run advance w).1.2
        = {| workflow_instances :=
               <[instanceID := {| ir_workflow_id := ir_workflow_id row;
                                  ir_current_node_instance_id := newID;
                                  ir_context := ctx; ir_waiting_signal := sig;
                                  ir_expires_at := exp;
                                  ir_created_at := ir_created_at row;
                                  ir_updated_at := now |}]> instances;
             workflow_instance_nodes := <[newID := nrow]> nodes |})
  /\ (forall workflowID,
        let initialID := nodeID +:+ "-" +:+ instanceID in
        let create := SaveNewInstance instanceID workflowID nodeID ctx sig exp in
        let irow cur := {| ir_workflow_id := workflowID;
                           ir_current_node_instance_id := cur;
                           ir_context := ctx; ir_waiting_signal := sig;
                           ir_expires_at := exp; ir_created_at := now;
                           ir_updated_at := now |} in
        instances !! instanceID = None -> nodes !! initialID = None ->
        w_db (crash_after 2 create w)
        = {| workflow_instances := <[instanceID := irow EmptyString]> instances;
             workflow_instance_nodes := nodes |}
        /\ w_db (crash_after 3 create w)
           = {| workflow_instances := <[instanceID := irow EmptyString]> instances;
                workflow_instance_nodes := <[initialID := nrow]> nodes |}
        /\ w_db (run create w).1.2
           = {| workflow_instances := <[instanceID := irow initialID]> instances;
                workflow_instance_nodes := <[initialID := nrow]> nodes |}).
Proof.
  intros now instances nodes nrow. split.
  - intros row newID advance Hrow Hfresh. split.
    + unfold advance, UpdateInstanceCurrentNodeAndContext.
      cbn [crash_after bind call try exec handle exec_stmt tick w_db].
      fold now. fold newID. fold nodes. rewrite Hfresh. reflexivity.
    + unfold advance.
      rewrite (run_UpdateInstanceCurrentNodeAndContext w) by exact Hfresh.
      cbn [fst snd with_db w_db]. unfold advanced.
      now rewrite (alter_lookup_Some _ _ _ _ Hrow).
  - intros workflowID initialID create irow Hfree Hfresh.
    unfold create, SaveNewInstance.
    cbn [crash_after run bind call try exec handle exec_stmt tick w_db].
    fold instances. rewrite Hfree.
    cbn [crash_after run bind call try exec handle exec_stmt tick w_db with_db
         workflow_instances workflow_instance_nodes].
    fold nodes. fold initialID. rewrite Hfresh.
    cbn [crash_after run bind call try exec handle exec_stmt tick w_db with_db
         workflow_instances workflow_instance_nodes fst snd].
    split; [reflexivity|]. split; [reflexivity|].
    f_equal. rewrite (alter_lookup_Some _ _ _ _ (lookup_insert_eq _ _ _)).
    fold now. now rewrite insert_insert_eq.
Qed.

(** * The gateway step *)

Lemma run_waitingOrExpired instance w :
  (run (waitingOrExpired instance) w).2 = [].
Proof.
  unfold waitingOrExpired.
  destruct (negb (inst_WaitingSignal instance =? EmptyString)%string); [reflexivity|].
  destruct (inst_ExpiresAt instance); [|reflexivity].
  rewrite run_bind, run_call. reflexivity.
Qed.

Section GatewayStep.
Context `{GoLib}.

(** C7, amended.  At a gateway whose matched branch throws a signal,
    [ExecuteNextNode] starts the goroutine that emits it and then calls
    [advanceInstance]: everything the advance does, its statements and
    its failure if any, comes after the [go]. *)
Theorem ExecuteNextNode_throws_then_advances
    w instanceID instance def w1 nextNodeID signalToThrow :
  load w instanceID = Ok instance ->
  inst_CurrentNodeDef instance = Some def ->
  node_Type def = "gateway" ->
  (run (waitingOrExpired instance) w).1 = (false, w1) ->
  ResolveGatewayConditions instance = Ok (nextNodeID, signalToThrow) ->
  signalToThrow <> EmptyString ->
  run (ExecuteNextNode instanceID) w =
    let '(r, w2, evs) := run (advanceInstance instanceID nextNodeID None) w1 in
    (r, w2,
     (head_read w instanceID :: timeout_started instance def
      ++ EvGo (TEmitSignal signalToThrow) :: evs)%list).
Proof.
  intros Hload Hdef Hty Hpaused Hres Hthrow. unfold ExecuteNextNode.
  rewrite run_try, run_GetInstanceAndDefinition, Hload.
  rewrite run_bind.
  pose proof (run_waitingOrExpired instance w) as Hevs.
  destruct (run (waitingOrExpired instance) w) as [[paused w1'] evs0].
  cbn [fst snd] in Hpaused, Hevs. injection Hpaused as -> ->. subst evs0.
  rewrite Hdef, Hty. rewrite run_bind.
  destruct (load_inv _ _ _ Hload) as (row & nrow & wf & def' & _ & _ & _ & _ & Hid & _).
  assert (Hto : run (match node_Timeout def with
                     | Some timeoutCfg =>
                         call (Go (TTimeout instanceID timeoutCfg
                                     (inst_CurrentNode instance)
                                     (inst_CurrentNodeInstanceDBID instance)))
                     | None => Ret tt
                     end) w1 = (tt, w1, timeout_started instance def)).
  { unfold timeout_started. rewrite Hid.
    destruct (node_Timeout def); [rewrite run_call|]; reflexivity. }
  rewrite Hto. cbn [String.eqb Ascii.eqb Bool.eqb]. rewrite Hres.
  apply String.eqb_neq in Hthrow. rewrite Hthrow. cbn [negb].
  rewrite run_bind, run_call. cbn [handle]. rewrite Hid.
  destruct (run (advanceInstance instanceID nextNodeID None) w1) as [[r w2] evs].
  reflexivity.
Qed.

End GatewayStep.

(** * Creation *)

(** C9.  When [CreateNewInstance] succeeds, the context of the instance it
    returns has the one key ["instanceID"], bound to the instance's ID,
    which is the UUID just generated; and the node row of the initial
    execution holds that context. *)
Theorem CreateNewInstance_initial_context w workflowID instance w' evs :
  run (CreateNewInstance workflowID) w = (Ok instance, w', evs) ->
  inst_ID instance = next_uuid w
  /\ inst_Context instance = {["instanceID" := VString (inst_ID instance)]}
  /\ size (inst_Context instance) = 1%nat
  /\ exists nrow,
       workflow_instance_nodes (w_db w') !! inst_CurrentNodeInstanceDBID instance
       = Some nrow
       /\ nr_context nrow = inst_Context instance.
Proof.
  unfold CreateNewInstance. rewrite run_try.
  unfold GetWorkflowDefinition. rewrite run_bind, run_call. cbn [handle run].
  destruct (w_defs w !! workflowID) as [wf|]; [|discriminate].
  rewrite run_bind, run_call. cbn [handle].
  destruct (GetNodeByID wf "start_node") as [startNode|]; [|discriminate].
  rewrite run_try. unfold SaveNewInstance.
  rewrite run_bind, run_call. cbn [handle].
  rewrite run_try. unfold exec at 1. rewrite run_bind, run_call.
  cbn [handle exec_stmt tick draw w_db].
  destruct (workflow_instances (w_db w) !! next_uuid w); [discriminate|]. cbn [run].
  rewrite run_try. unfold exec at 1. rewrite run_bind, run_call.
  cbn [handle exec_stmt with_db w_db workflow_instances workflow_instance_nodes].
  destruct (workflow_instance_nodes (w_db w) !! _) eqn:Hfresh; [discriminate|].
  cbn [run]. rewrite run_try. unfold exec at 1. rewrite run_bind, run_call.
  cbn [handle exec_stmt with_db w_db workflow_instances workflow_instance_nodes run].
  rewrite run_bind, run_call. cbn [handle]. rewrite run_bind, run_call. cbn [handle].
  intros Hrun.
  assert (Hres : exists w0 evs0,
            (Ok {| inst_ID := next_uuid w;
                   inst_WorkflowID := workflowID;
                   inst_CurrentNode := node_ID startNode;
                   inst_CurrentNodeInstanceDBID :=
                     node_ID startNode +:+ "-" +:+ next_uuid w;
                   inst_Context := <["instanceID" := VString (next_uuid w)]> ∅;
                   inst_WaitingSignal :=
                     match node_Signal startNode with
                     | Some s => sig_Catch s
                     | None => EmptyString
                     end;
                   inst_ExpiresAt := None;
                   inst_CreatedAt := next_now (tick (draw w));
                   inst_UpdatedAt := next_now (tick (tick (draw w)));
                   inst_WorkflowDef := wf;
                   inst_CurrentNodeDef := Some startNode |}, w0, evs0)
            = (Ok instance, w', evs)
            /\ workflow_instance_nodes (w_db w') = workflow_instance_nodes (w_db w0)
            /\ workflow_instance_nodes (w_db w0)
               = <[node_ID startNode +:+ "-" +:+ next_uuid w :=
                     {| nr_workflow_instance_id := next_uuid w;
                        nr_node_id := node_ID startNode;
                        nr_context := <["instanceID" := VString (next_uuid w)]> ∅;
                        nr_waiting_signal :=
                          match node_Signal startNode with
                          | Some s => sig_Catch s
                          | None => EmptyString
                          end;
                        nr_expires_at := None;
                        nr_created_at := next_now (draw w);
                        nr_updated_at := next_now (draw w) |}]>
                   (workflow_instance_nodes (w_db w))).
  { destruct (match node_Signal startNode with Some s => sig_Catch s | None => EmptyString end =? EmptyString)%string;
      [rewrite run_bind, run_call in Hrun|]; cbn [handle run fst snd] in Hrun;
      injection Hrun as Hi Hw He; subst;
      do 2 eexists; (split; [reflexivity|]); split; reflexivity. }
  destruct Hres as (w0 & evs0 & Heq & Hnodes' & Hnodes).
  injection Heq as <- -> ->.
  cbn [inst_ID inst_Context inst_CurrentNodeInstanceDBID].
  rewrite insert_empty.
  split; [reflexivity|]. split; [reflexivity|].
  split; [apply map_size_singleton|].
  eexists. rewrite Hnodes. split; [apply lookup_insert_eq|].
  cbn [nr_context]. apply insert_empty.
Qed.

(** * The model at work *)

Import Fixture.

Lemma UpdateInstanceCurrentNodeAndContext_unconditional_witness :
  (run (UpdateInstanceCurrentNodeAndContext "u1" "first" ∅ EmptyString None) w_created).1.1
  = Ok "first-u1-103".
Proof.
  destruct (workflow_instances (w_db w_created) !! "u1") as [row|] eqn:Hrow;
    [|vm_compute in Hrow; discriminate].
  assert (Hfresh : workflow_instance_nodes (w_db w_created)
                     !! ("first" +:+ "-" +:+ "u1" +:+ "-" +:+ itoa (next_now w_created))
                   = None) by (vm_compute; reflexivity).
  pose proof (UpdateInstanceCurrentNodeAndContext_unconditional
                w_created "u1" "first" ∅ EmptyString None row Hrow Hfresh) as Hthm.
  destruct (run (UpdateInstanceCurrentNodeAndContext "u1" "first" ∅ EmptyString None) w_created)
    as [[r w'] evs].
  destruct Hthm as [-> _]. vm_compute. reflexivity.
Defined.

(** C1 as stated fails.  The timeout goroutine of [ask] and the submission
    of the form of [ask] both find the instance at execution
    ["ask-u1-105"]; the submission commits the transition to [done], and
    the timeout, whose comparison was made before, commits the transition
    to [late]. *)
Lemma race_form_timeout_two_transitions :
  let c := sched (H := lib) race_form_timeout_schedule race_form_timeout in
  let db := w_db (c_world c) in
  transitions_out_of (c_trace c) "u1" "ask-u1-105" = ["done-u1-106"; "late-u1-108"]
  /\ nr_node_id <$> workflow_instance_nodes db !! "done-u1-106" = Some "done"
  /\ nr_node_id <$> workflow_instance_nodes db !! "late-u1-108" = Some "late"
  /\ ir_current_node_instance_id <$> workflow_instances db !! "u1" = Some "late-u1-108".
Proof. vm_compute. repeat split; reflexivity. Qed.

(** C2 as stated fails.  When the process dies after the [INSERT] of an
    advance, the store holds the node row ["first-u1-103"] and the head of
    [u1] still points to the initial execution; when it dies after the
    first [INSERT] of a creation, the store holds an instance row that
    points to no execution. *)
Lemma crash_between_the_statements :
  let advance := UpdateInstanceCurrentNodeAndContext "u1" "first" ∅ EmptyString None in
  let db := w_db (crash_after 2 advance w_created) in
  let create := SaveNewInstance "u1" "wf_forms" "start_node" ∅ EmptyString None in
  let db0 := w_db (crash_after 2 create w_empty) in
  ~ both_or_neither db "u1" "first-u1-103"
  /\ is_Some (workflow_instance_nodes db !! "first-u1-103")
  /\ ir_current_node_instance_id <$> workflow_instances db !! "u1" = Some "start_node-u1"
  /\ ir_current_node_instance_id <$> workflow_instances db0 !! "u1" = Some EmptyString
  /\ workflow_instance_nodes db0 !! "start_node-u1" = None.
Proof.
  intros advance db create db0.
  assert (Hrow : is_Some (workflow_instance_nodes db !! "first-u1-103"))
    by (vm_compute; eauto).
  assert (Hhead : ir_current_node_instance_id <$> workflow_instances db !! "u1"
                  = Some "start_node-u1") by (vm_compute; reflexivity).
  split; [|split; [exact Hrow|split; [exact Hhead|split; vm_compute; reflexivity]]].
  intros [Hboth _]. specialize (Hboth Hrow). rewrite Hhead in Hboth. discriminate.
Qed.

Lemma advance_and_creation_statements_witness :
  ir_current_node_instance_id
    <$> workflow_instances
          (w_db (crash_after 2 (UpdateInstanceCurrentNodeAndContext "u1" "first" ∅ EmptyString None)
                             w_created)) !! "u1"
  = Some "start_node-u1"
  /\ ir_current_node_instance_id
       <$> workflow_instances
             (w_db (crash_after 3 (SaveNewInstance "u1" "wf_forms" "start_node" ∅ EmptyString None)
                                w_empty)) !! "u1"
     = Some EmptyString.
Proof.
  destruct (workflow_instances (w_db w_created) !! "u1") as [row|] eqn:Hrow;
    [|vm_compute in Hrow; discriminate].
  destruct (advance_and_creation_statements w_created "u1" "first" ∅ EmptyString None)
    as [Hadvance _].
  destruct (advance_and_creation_statements w_empty "u1" "start_node" ∅ EmptyString None)
    as [_ Hcreate].
  destruct (Hadvance row Hrow ltac:(vm_compute; reflexivity)) as [-> _].
  destruct (Hcreate "wf_forms" ltac:(vm_compute; reflexivity)
                    ltac:(vm_compute; reflexivity)) as (_ & -> & _).
  cbn [workflow_instances]. rewrite Hrow, lookup_insert_eq.
  split; [vm_compute in Hrow; injection Hrow as <-|]; reflexivity.
Defined.

(** The timeout of [ask] fires while the instance is at the execution it
    was armed for, and fires after the instance has left it. *)
Lemma timeoutGoroutine_cookie_check_witness :
  ir_current_node_instance_id
    <$> workflow_instances
          (w_db (after (timeoutGoroutine (H := lib) "u1" ask_timeout "ask" "ask-u1-105")
                       w_ask)) !! "u1"
  = Some "late-u1-107"
  /\ w_db (after (timeoutGoroutine (H := lib) "u1" ask_timeout "ask" "first-u1-104") w_ask)
     = w_db w_ask.
Proof.
  destruct (workflow_instances (w_db w_ask) !! "u1") as [row|] eqn:Hrow;
    [|vm_compute in Hrow; discriminate].
  destruct (workflow_instance_nodes (w_db w_ask) !! ir_current_node_instance_id row)
    as [nrow|] eqn:Hnrow;
    [|vm_compute in Hrow; injection Hrow as <-; vm_compute in Hnrow; discriminate].
  assert (Hcur : ir_current_node_instance_id row = "ask-u1-105")
    by (vm_compute in Hrow; now injection Hrow as <-).
  assert (Hwf : w_defs w_ask !! ir_workflow_id row = Some wf_forms)
    by (vm_compute in Hrow; injection Hrow as <-; vm_compute; reflexivity).
  assert (Hdef : GetNodeByID wf_forms (nr_node_id nrow) = Some ask).
  { rewrite Hcur in Hnrow. vm_compute in Hnrow. now injection Hnrow as <-. }
  assert (Hfresh : workflow_instance_nodes (w_db w_ask)
                     !! (to_Next ask_timeout +:+ "-" +:+ "u1" +:+ "-"
                         +:+ itoa (next_now (tick w_ask))) = None)
    by (vm_compute; reflexivity).
  pose proof (timeoutGoroutine_cookie_check (H := lib) w_ask "u1" ask_timeout "ask"
                "ask-u1-105" 50000000 row nrow wf_forms ask
                eq_refl Hrow Hnrow Hwf Hdef Hfresh) as Hsame.
  pose proof (timeoutGoroutine_cookie_check (H := lib) w_ask "u1" ask_timeout "ask"
                "first-u1-104" 50000000 row nrow wf_forms ask
                eq_refl Hrow Hnrow Hwf Hdef Hfresh) as Hmoved.
  unfold after.
  destruct (run (timeoutGoroutine "u1" ask_timeout "ask" "ask-u1-105") w_ask)
    as [[u1 w1] evs1].
  destruct (run (timeoutGoroutine "u1" ask_timeout "ask" "first-u1-104") w_ask)
    as [[u2 w2] evs2].
  cbn [fst snd]. split.
  - destruct Hsame as [Hfire _]. destruct (Hfire Hcur) as [-> _].
    rewrite lookup_insert_eq. vm_compute. reflexivity.
  - destruct Hmoved as [_ Hdiscard]. apply Hdiscard. rewrite Hcur. discriminate.
Defined.

(** The emit of ["go"] resumes the instance that waits for it, and a
    second emit finds nobody. *)
Lemma ResumeWorkflowsBySignal_exactly_waiting_witness :
  let w' := after (ResumeWorkflowsBySignal "go") w_waiting in
  ir_waiting_signal <$> workflow_instances (w_db w') !! "u1" = Some EmptyString
  /\ run (ResumeWorkflowsBySignal "go") w' = (Ok tt, w', []).
Proof.
  destruct (workflow_instances (w_db w_waiting) !! "u1") as [row|] eqn:Hrow;
    [|vm_compute in Hrow; discriminate].
  assert (Hsig : ir_waiting_signal row = "go")
    by (vm_compute in Hrow; now injection Hrow as <-).
  assert (Hquiet : forall e, EvLog e ∉ (run (ResumeWorkflowsBySignal "go") w_waiting).2).
  { vm_compute. intros e Hin.
    repeat (apply elem_of_cons in Hin as [Hin|Hin]; [discriminate Hin|]).
    now apply elem_of_nil in Hin. }
  pose proof (ResumeWorkflowsBySignal_exactly_waiting w_waiting "go") as Hthm.
  unfold after.
  destruct (run (ResumeWorkflowsBySignal "go") w_waiting) as [[r w'] evs].
  cbn [fst snd] in *.
  destruct Hthm as (_ & _ & Hcleared & Hagain & _).
  destruct (Hcleared Hquiet "u1" row Hrow Hsig) as (row' & -> & Hempty & _).
  split; [cbn; now rewrite Hempty|]. apply Hagain; [discriminate | exact Hquiet].
Defined.

(** The gateway of [wf_gateway] starts the emit of ["go"] and then
    advances. *)
Lemma ExecuteNextNode_throws_then_advances_witness :
  exists evs,
    (run (ExecuteNextNode (H := lib) "u1") w_gateway).2
    = head_read w_gateway "u1" :: EvGo (TEmitSignal "go") :: evs
    /\ evs = (run (advanceInstance "u1" "notified" None) w_gateway).2.
Proof.
  destruct (load w_gateway "u1") as [instance|] eqn:Hload;
    [|vm_compute in Hload; discriminate].
  assert (Hinst : inst_CurrentNodeDef instance = Some check
                  /\ inst_WaitingSignal instance = EmptyString
                  /\ inst_ExpiresAt instance = None
                  /\ inst_Context instance = {["instanceID" := VString "u1"]}).
  { vm_compute in Hload. injection Hload as <-. repeat split; reflexivity. }
  destruct Hinst as (Hdef & Hws & Hexp & Hctx).
  assert (Hpaused : (run (waitingOrExpired instance) w_gateway).1 = (false, w_gateway)).
  { unfold waitingOrExpired. now rewrite Hws, Hexp. }
  assert (Hres : ResolveGatewayConditions (H := lib) instance = Ok ("notified", "go")).
  { unfold ResolveGatewayConditions. now rewrite Hdef. }
  pose proof (ExecuteNextNode_throws_then_advances (H := lib) w_gateway "u1" instance
                check w_gateway "notified" "go" Hload Hdef eq_refl Hpaused Hres
                ltac:(discriminate)) as Hthm.
  rewrite Hthm.
  destruct (run (advanceInstance "u1" "notified" None) w_gateway) as [[r w2] evs].
  exists evs. split; reflexivity.
Defined.

(** C7 as stated fails.  The gateway step of [u2] (goroutine 3) has
    started the emit of ["go"] (goroutine 4) and not yet advanced; the
    emit runs and resumes [u1], while the head of [u2] is still the
    gateway execution and no row for [notified] exists. *)
Lemma throw_delivered_before_advance :
  let c := sched (H := lib) throw_before_advance_schedule throw_before_advance in
  let db := w_db (c_world c) in
  head_commits (c_trace c) = [(2%nat, "u2", "check-u2-107"); (4%nat, "u1", "start_node-u1-108")]
  /\ ir_waiting_signal <$> workflow_instances db !! "u1" = Some EmptyString
  /\ ir_current_node_instance_id <$> workflow_instances db !! "u2" = Some "check-u2-107"
  /\ nr_node_id <$> workflow_instance_nodes db !! "check-u2-107" = Some "check"
  /\ finished <$> c_threads c !! 3%nat = Some false
  /\ finished <$> c_threads c !! 4%nat = Some true.
Proof. vm_compute. repeat split; reflexivity. Qed.

(** Creation of an instance of [wf_forms] with the UUID ["u1"]. *)
Lemma CreateNewInstance_initial_context_witness :
  match (run (CreateNewInstance "wf_forms") w_empty).1.1 with
  | Ok instance => inst_Context instance = {["instanceID" := VString "u1"]}
  | Err _ => False
  end.
Proof.
  destruct (run (CreateNewInstance "wf_forms") w_empty) as [[[instance|e] w'] evs] eqn:E;
    cbn [fst]; [|vm_compute in E; discriminate].
  destruct (CreateNewInstance_initial_context _ _ _ _ _ E) as (Hid & Hctx & _).
  rewrite Hctx, Hid. reflexivity.
Defined.

(** * Further facts: paths into the context *)

Module SplitFacts.
Import GoStrings GoStringsFacts.

Lemma strip_prefix_length sep s r :
  strip_prefix sep s = Some r -> String.length s = (String.length sep + String.length r)%nat.
Proof.
  revert s. induction sep as [|a sep IH]; intros s; simpl.
  - now intros [= ->].
  - destruct s as [|b s]; [discriminate|]. destruct (Ascii.eqb a b); [|discriminate].
    intros Hs. simpl. now rewrite (IH _ Hs).
Qed.

Lemma cut_length sep s before after :
  cut sep s = Some (before, after) ->
  String.length s = (String.length before + String.length sep + String.length after)%nat.
Proof.
  revert before. induction s as [|c s IH]; intros before; cbn [cut].
  - destruct (strip_prefix sep EmptyString) eqn:E; [|discriminate].
    intros [= <- <-]. pose proof (strip_prefix_length _ _ _ E) as Hl. simpl in *. lia.
  - destruct (strip_prefix sep (String c s)) eqn:E.
    + intros [= <- <-]. pose proof (strip_prefix_length _ _ _ E) as Hl. simpl in *. lia.
    + destruct (cut sep s) as [[b a]|] eqn:Ec; [|discriminate].
      intros [= <- <-]. simpl. rewrite (IH b eq_refl). lia.
Qed.

Lemma cut_lacks a sep s : lacks a s = true -> cut (String a sep) s = None.
Proof.
  induction s as [|c s IH]; [reflexivity|]. simpl. intros Hs.
  apply andb_prop in Hs as [Hc Hs]. apply negb_true_iff in Hc.
  rewrite Hc. now rewrite IH.
Qed.

Lemma cut_first a p r :
  lacks a p = true ->
  cut (String a EmptyString) (p +:+ String a r) = Some (p, r).
Proof.
  induction p as [|c p IH]; intros Hp.
  - change (EmptyString +:+ String a r) with (String a r). cbn [cut strip_prefix].
    now rewrite Ascii.eqb_refl.
  - simpl in Hp. apply andb_prop in Hp as [Hc Hp]. apply negb_true_iff in Hc.
    rewrite append_cons. cbn [cut strip_prefix]. rewrite Hc. now rewrite IH.
Qed.

(** Fuel beyond the length of the text changes nothing. *)
Lemma Split_fuel_any a sep fuel1 : forall fuel2 s,
  (String.length s <= fuel1)%nat -> (String.length s <= fuel2)%nat ->
  Split_fuel fuel1 s (String a sep) = Split_fuel fuel2 s (String a sep).
Proof.
  induction fuel1 as [|fuel1 IH]; intros fuel2 s H1 H2.
  - destruct s; [|simpl in H1; lia]. destruct fuel2; reflexivity.
  - cbn [Split_fuel]. destruct (cut (String a sep) s) as [[before after]|] eqn:E.
    + pose proof (cut_length _ _ _ _ E) as Hl. simpl in Hl.
      destruct fuel2 as [|fuel2]; [lia|]. cbn [Split_fuel]. rewrite E.
      f_equal. apply IH; lia.
    + destruct fuel2; cbn [Split_fuel]; [reflexivity | now rewrite E].
Qed.

Lemma Split_fuel_enough a sep fuel s :
  (String.length s <= fuel)%nat ->
  Split_fuel fuel s (String a sep) = Split s (String a sep).
Proof. intros Hlen. unfold Split. apply Split_fuel_any; lia. Qed.

Lemma Split_no_separator a s :
  lacks a s = true -> Split s (String a EmptyString) = [s].
Proof.
  intros Hs. unfold Split. destruct (String.length s); cbn [Split_fuel]; [reflexivity|].
  now rewrite cut_lacks.
Qed.

Lemma append_length a b :
  String.length (a +:+ b) = (String.length a + String.length b)%nat.
Proof. induction a as [|c a IH]; simpl; [reflexivity | now rewrite IH]. Qed.

Lemma Split_first a p r :
  lacks a p = true ->
  Split (p +:+ String a r) (String a EmptyString) = p :: Split r (String a EmptyString).
Proof.
  intros Hp. unfold Split at 1. rewrite append_length. simpl String.length.
  rewrite Nat.add_succ_r. cbn [Split_fuel]. rewrite cut_first by assumption.
  f_equal. apply Split_fuel_enough. lia.
Qed.

Lemma Split_nonempty s sep : Split s sep <> [].
Proof.
  unfold Split. destruct (String.length s); cbn [Split_fuel]; [discriminate|].
  destruct (cut sep s) as [[? ?]|]; discriminate.
Qed.

End SplitFacts.

Section PathFacts.
Context `{GoLib}.
Import GoStrings GoStringsFacts SplitFacts.

(** X1.  A path without a dot is a key of the context itself. *)
Theorem getNestedValue_key (m : context) key :
  lacks "." key = true -> getNestedValue m key = m !! key.
Proof.
  intros Hk. unfold getNestedValue. now rewrite Split_no_separator.
Qed.

(** X2.  A path [key.rest] is the path [rest] inside the mapping stored
    under [key]; when [key] is missing or holds anything but a mapping,
    the path is not found. *)
Theorem getNestedValue_descends (m : context) key rest :
  lacks "." key = true ->
  getNestedValue m (key +:+ "." +:+ rest) =
    match m !! key with
    | Some (VMap next) => getNestedValue next rest
    | _ => None
    end.
Proof.
  intros Hk. unfold getNestedValue.
  change ("." +:+ rest) with (String "." rest). rewrite Split_first by assumption.
  pose proof (Split_nonempty rest ".") as Hne.
  destruct (Split rest ".") as [|part parts]; [congruence|]. reflexivity.
Qed.

End PathFacts.

Lemma getNestedValue_key_witness :
  getNestedValue {["age" := VInt 3]} "age" = Some (VInt 3).
Proof. rewrite (getNestedValue_key _ "age" eq_refl). apply lookup_singleton_eq. Defined.

Lemma getNestedValue_descends_witness :
  getNestedValue {["user" := VMap {["age" := VInt 3]}]} "user.age"
  = getNestedValue {["age" := VInt 3]} "age".
Proof.
  rewrite (getNestedValue_descends _ "user" "age" eq_refl).
  now rewrite lookup_singleton_eq.
Defined.

(** * Further facts: conditions and gateways *)

Section ConditionFacts.
Context `{GoLib}.
Import GoStrings GoStringsFacts SplitFacts.

Lemma compareNumbers_operator actual target op :
  In op operators -> is_Ok (compareNumbers actual target op) = true.
Proof.
  simpl. intros [<-|[<-|[<-|[<-|[<-|[<-|[]]]]]]]; reflexivity.
Qed.

(** X3.  For a condition [<path> <op> <literal>], the evaluation gives a
    boolean when the path holds a string, or a number (float or int) and
    the literal parses as a number; for a missing path, a number with
    another literal, and a value of any other type (nil, boolean, list,
    mapping) it gives an error. *)
Theorem evaluateSimpleCondition_succeeds path op literal ctx :
  In op operators -> operand path -> operand literal ->
  is_Ok (evaluateSimpleCondition (condition_text path op literal) ctx) =
    match getNestedValue ctx path with
    | Some (VString _) => true
    | Some (VFloat _) | Some (VInt _) =>
        match ParseFloat literal with Some _ => true | None => false end
    | _ => false
    end.
Proof.
  intros Hop Hp Hl. rewrite evaluateSimpleCondition_parsed by assumption.
  destruct (getNestedValue ctx path) as [[]|]; try reflexivity; cbn [compareValue].
  - destruct (ParseFloat literal); [now apply compareNumbers_operator | reflexivity].
  - destruct (ParseFloat literal); [now apply compareNumbers_operator | reflexivity].
  - now rewrite compareStrings_lexicographic.
Qed.

(** X4.  A condition in which none of the six operators occurs is
    rejected: without [<] and [>], and without [==] and [!=], the text is
    an unsupported format, so a single [=] is no operator. *)
Theorem evaluateSimpleCondition_no_operator condition ctx :
  condition <> EmptyString ->
  lacks "<" condition = true -> lacks ">" condition = true ->
  Contains condition "==" = false -> Contains condition "!=" = false ->
  evaluateSimpleCondition condition ctx = Err ErrUnsupportedFormat.
Proof.
  intros Hne Hlt Hgt Heq Hneq. unfold evaluateSimpleCondition.
  apply String.eqb_neq in Hne. rewrite Hne.
  unfold find_operator, operators. cbn [find]. rewrite Heq, Hneq.
  unfold Contains. now rewrite !cut_lacks by assumption.
Qed.

(** X5.  A gateway in which every branch names a next node and some
    branch is a plain [else] always resolves: whatever the context, and
    whatever the [when] expressions do, the resolver returns the next
    node of one of the branches. *)
Theorem resolveConditions_with_else conditions ctx otherwise :
  Forall (fun c => cond_Next c <> EmptyString) conditions ->
  In otherwise conditions ->
  cond_When otherwise = EmptyString -> cond_Else otherwise = true ->
  exists c,
    In c conditions
    /\ resolveConditions conditions ctx = Ok (cond_Next c, signal_to_throw c).
Proof.
  intros Hnext Hin Hwhen Helse. unfold resolveConditions.
  destruct conditions as [|c0 rest]; [contradiction|].
  rewrite scanConditions_find.
  destruct (find (matched ctx) (c0 :: rest)) as [c|] eqn:Hfind.
  - apply find_some in Hfind as [Hc _]. exists c. split; [exact Hc|].
    rewrite Forall_forall in Hnext. specialize (Hnext c).
    destruct (String.eqb_spec (cond_Next c) EmptyString) as [E|_]; [|reflexivity].
    exfalso. apply Hnext; [now apply list_elem_of_In | exact E].
  - exfalso. apply (find_none _ _ Hfind) in Hin.
    unfold matched in Hin. now rewrite Hwhen, Helse in Hin.
Qed.

End ConditionFacts.

Lemma evaluateSimpleCondition_succeeds_witness :
  is_Ok (evaluateSimpleCondition (H := Fixture.lib) "age >= 30" {["age" := VBool true]})
  = false.
Proof.
  assert (Hop : In ">=" operators) by (simpl; auto).
  assert (Hp : operand "age") by (repeat split; reflexivity).
  assert (Hl : operand "30") by (repeat split; reflexivity).
  rewrite (evaluateSimpleCondition_succeeds (H := Fixture.lib) "age" ">=" "30"
             {["age" := VBool true]} Hop Hp Hl).
  vm_compute. reflexivity.
Defined.

Lemma evaluateSimpleCondition_no_operator_witness :
  evaluateSimpleCondition (H := Fixture.lib) "age = 30" ∅ = Err ErrUnsupportedFormat.
Proof.
  apply (evaluateSimpleCondition_no_operator (H := Fixture.lib));
    [discriminate | reflexivity..].
Defined.

Lemma resolveConditions_with_else_witness :
  exists c,
    resolveConditions (H := Fixture.lib) (node_Conditions Fixture.check) ∅
    = Ok (cond_Next c, signal_to_throw c).
Proof.
  destruct (resolveConditions_with_else (H := Fixture.lib)
              (node_Conditions Fixture.check) ∅
              {| cond_When := EmptyString; cond_Next := "notified"; cond_Else := true;
                 cond_Signal := Some {| sig_Emit := EmptyString; sig_Catch := EmptyString;
                                        sig_Throw := "go" |} |})
    as (c & _ & Hc).
  - repeat constructor. discriminate.
  - now left.
  - reflexivity.
  - reflexivity.
  - now exists c.
Defined.

(** * Further facts: forms *)

Section ValidationFacts.
Context `{GoLib}.
Import GoStrings.

Lemma insert_is_Some (errors : gmap string string) name msg key :
  is_Some (<[name := msg]> errors !! key) <-> is_Some (errors !! key) \/ name = key.
Proof.
  rewrite lookup_insert. case_decide; split; intros; eauto; tauto.
Qed.

Lemma validateField_lookup input errors field key :
  is_Some (validateField input errors field !! key) <->
  is_Some (errors !! key) \/ (field_Name field = key /\ passes input field = false).
Proof.
  unfold validateField, passes.
  destruct (input !! field_Name field) as [value|] eqn:Hin.
  - change (default EmptyString (Some value)) with value.
    rewrite bool_decide_eq_true_2 by eauto.
    destruct (String.eqb (TrimSpace value) EmptyString), (field_Required field);
      cbn [negb orb andb]; rewrite ?insert_is_Some; try tauto;
      try (split; [auto | intros [?|[_ ?]]; [assumption | discriminate]]).
    + destruct (String.eqb (field_Type field) "number").
      * destruct (Sscanf_f value); rewrite ?insert_is_Some; try tauto.
        split; [auto | intros [?|[_ ?]]; [assumption | discriminate]].
      * destruct (String.eqb (field_Type field) "email").
        -- destruct (Contains value "@"), (Contains value ".");
             cbn [negb orb andb]; rewrite ?insert_is_Some; try tauto;
             split; [auto | intros [?|[_ ?]]; [assumption | discriminate]].
        -- split; [auto | intros [?|[_ ?]]; [assumption | discriminate]].
    + destruct (String.eqb (field_Type field) "number").
      * destruct (Sscanf_f value); rewrite ?insert_is_Some; try tauto.
        split; [auto | intros [?|[_ ?]]; [assumption | discriminate]].
      * destruct (String.eqb (field_Type field) "email").
        -- destruct (Contains value "@"), (Contains value ".");
             cbn [negb orb andb]; rewrite ?insert_is_Some; try tauto;
             split; [auto | intros [?|[_ ?]]; [assumption | discriminate]].
        -- split; [auto | intros [?|[_ ?]]; [assumption | discriminate]].
  - change (default EmptyString None) with EmptyString.
    rewrite bool_decide_eq_false_2 by (intros [? ?]; discriminate).
    destruct (field_Required field); cbn [negb orb andb];
      rewrite ?insert_is_Some; try tauto.
    split; [auto | intros [?|[_ ?]]; [assumption | discriminate]].
Qed.

Lemma validate_fold_lookup input formFields : forall errors key,
  is_Some (fold_left (validateField input) formFields errors !! key) <->
  is_Some (errors !! key)
  \/ exists field, In field formFields /\ field_Name field = key
                   /\ passes input field = false.
Proof.
  induction formFields as [|field rest IH]; intros errors key; cbn [fold_left].
  - split; [auto | intros [?|(? & [] & _)]; assumption].
  - rewrite IH, validateField_lookup. split.
    + intros [[?|[? ?]]|(f & ? & ? & ?)]; eauto 8 using in_eq, in_cons.
    + intros [?|(f & [<-|?] & ? & ?)]; eauto 8.
Qed.

(** X6.  [ValidateFormInput] reports an error under a key exactly when
    the key is the name of a declared field that does not pass; a key of
    the input that no field declares is never reported. *)
Theorem ValidateFormInput_errors formFields input key :
  is_Some (ValidateFormInput formFields input !! key) <->
  exists field, In field formFields /\ field_Name field = key
                /\ passes input field = false.
Proof.
  unfold ValidateFormInput. rewrite validate_fold_lookup, lookup_empty.
  split; [intros [[? ?]|?]; [discriminate | assumption] | auto].
Qed.

Lemma ValidateFormInput_valid formFields input field :
  size (ValidateFormInput formFields input) = 0%nat ->
  In field formFields -> passes input field = true.
Proof.
  intros Hsize Hin. apply map_size_empty_inv in Hsize.
  destruct (passes input field) eqn:Hp; [reflexivity|].
  assert (Hsome : is_Some (ValidateFormInput formFields input !! field_Name field))
    by (apply validate_fold_lookup; eauto 6).
  rewrite Hsize, lookup_empty in Hsome. destruct Hsome. discriminate.
Qed.

End ValidationFacts.

Section MergeFacts.
Context `{GoLib}.
Import GoStrings.

Lemma declared_In formFields key field :
  declared formFields key = Some field ->
  In field formFields /\ field_Name field = key.
Proof.
  unfold declared. intros Hf. apply find_some in Hf as [Hin Hname].
  split; [now apply in_rev | now apply String.eqb_eq].
Qed.

Lemma merge_declared ctx formFields input key field val :
  declared formFields key = Some field -> input !! key = Some val ->
  MergeFormInputIntoContext ctx formFields input !! key
  = mergeField input ctx field !! key.
Proof.
  revert field. induction formFields as [|f formFields IH] using rev_ind;
    intros field Hdecl Hval; [discriminate|].
  rewrite MergeFormInputIntoContext_snoc. unfold declared in Hdecl.
  rewrite rev_app_distr in Hdecl. cbn [rev app find] in Hdecl.
  destruct (String.eqb_spec (field_Name f) key) as [E|Hne].
  - injection Hdecl as <-. unfold mergeField. rewrite E, Hval.
    destruct (String.eqb (field_Type f) "number"); [destruct (Sscanf_f val)|];
      now rewrite !lookup_insert_eq.
  - rewrite mergeField_other by assumption. now apply IH.
Qed.

(** X7.  Validation and merge agree on numbers: when [ValidateFormInput]
    reports no error, a submitted, non-blank value of a field of type
    [number] scans as a float, and [MergeFormInputIntoContext] stores
    that float (not the text) under the field's name. *)
Theorem validated_number_is_stored_as_float ctx formFields input key field val :
  size (ValidateFormInput formFields input) = 0%nat ->
  declared formFields key = Some field ->
  field_Type field = "number" ->
  input !! key = Some val ->
  TrimSpace val <> EmptyString ->
  exists num,
    Sscanf_f val = Some num
    /\ MergeFormInputIntoContext ctx formFields input !! key = Some (VFloat num).
Proof.
  intros Hvalid Hdecl Hty Hval Hblank.
  destruct (declared_In _ _ _ Hdecl) as [Hin Hname].
  pose proof (ValidateFormInput_valid _ _ _ Hvalid Hin) as Hp.
  unfold passes in Hp. rewrite Hname, Hval in Hp.
  apply String.eqb_neq in Hblank. rewrite Hblank, Hty in Hp. cbn in Hp.
  destruct (Sscanf_f val) as [num|] eqn:Hscan; [|discriminate].
  exists num. split; [reflexivity|].
  rewrite (merge_declared _ _ _ _ _ _ Hdecl Hval).
  unfold mergeField. rewrite Hname, Hval, Hty. cbn. rewrite Hscan.
  apply lookup_insert_eq.
Qed.

End MergeFacts.

Lemma ValidateFormInput_errors_witness :
  is_Some (ValidateFormInput (H := Fixture.lib) [age_field] {["age" := "old"]} !! "age").
Proof.
  apply (ValidateFormInput_errors (H := Fixture.lib)). exists age_field.
  split; [now left|]. split; reflexivity.
Defined.

Lemma validated_number_is_stored_as_float_witness :
  exists num,
    MergeFormInputIntoContext (H := Fixture.lib) ∅ [age_field] {["age" := "31"]} !! "age"
    = Some (VFloat num).
Proof.
  destruct (validated_number_is_stored_as_float (H := Fixture.lib) ∅ [age_field]
              {["age" := "31"]} "age" age_field "31")
    as (num & _ & Hnum).
  - vm_compute. reflexivity.
  - reflexivity.
  - reflexivity.
  - apply lookup_singleton_eq.
  - vm_compute. discriminate.
  - now exists num.
Defined.

(** * Further facts: form submission *)

Lemma run_AdvanceInstanceAfterForm w instanceID nextNodeID formData :
  run (AdvanceInstanceAfterForm instanceID nextNodeID formData) w
  = after_form w instanceID nextNodeID formData.
Proof.
  unfold AdvanceInstanceAfterForm, after_form.
  rewrite run_try, run_GetInstanceAndDefinition.
  destruct (load w instanceID) as [instance|e] eqn:Hload; [|reflexivity].
  destruct (load_inv _ _ _ Hload) as (row & nrow & wf & def & _ & _ & _ & _ & Hid & _).
  rewrite Hid. rewrite run_try.
  destruct (workflow_instance_nodes (w_db w) !! advance_row_id w instanceID nextNodeID)
    eqn:Hrow.
  - rewrite run_UpdateInstanceCurrentNodeAndContext_taken by (rewrite Hrow; eauto).
    reflexivity.
  - rewrite run_UpdateInstanceCurrentNodeAndContext by exact Hrow.
    rewrite run_bind, run_call. cbn [handle run]. rewrite ?app_nil_r. reflexivity.
Qed.

(** X8.  [AdvanceInstanceAfterForm], for an instance that loads and a
    free row ID, lays the form data over the stored context (a key in
    both takes the form's value, every other key keeps its own), clears
    [waiting_signal] and [expires_at], points the head to a new row for
    the next node that holds the merged context, and starts
    [ExecuteNextNode]; it does so from whatever node the instance is at. *)
Theorem AdvanceInstanceAfterForm_merges w instanceID nextNodeID formData row :
  workflow_instances (w_db w) !! instanceID = Some row ->
  is_Ok (load w instanceID) = true ->
  let newID := nextNodeID +:+ "-" +:+ instanceID +:+ "-" +:+ itoa (next_now w) in
  workflow_instance_nodes (w_db w) !! newID = None ->
  let '(r, w', evs) := run (AdvanceInstanceAfterForm instanceID nextNodeID formData) w in
  r = Ok tt
  /\ exists row',
       workflow_instances (w_db w') !! instanceID = Some row'
       /\ (forall key,
             ir_context row' !! key =
               match formData !! key with
               | Some v => Some v
               | None => ir_context row !! key
               end)
       /\ ir_waiting_signal row' = EmptyString
       /\ ir_expires_at row' = None
       /\ ir_current_node_instance_id row' = newID
       /\ nr_node_id <$> workflow_instance_nodes (w_db w') !! newID = Some nextNodeID
       /\ nr_context <$> workflow_instance_nodes (w_db w') !! newID = Some (ir_context row')
       /\ EvGo (TExecuteNextNode instanceID) ∈ evs.
Proof.
  intros Hrow Hload newID Hfresh. rewrite run_AdvanceInstanceAfterForm. unfold after_form.
  destruct (load w instanceID) as [instance|] eqn:El; [|discriminate].
  destruct (load_inv _ _ _ El)
    as (row0 & nrow & wf & def & Hrow0 & _ & _ & _ & _ & _ & _ & Hctx & _).
  rewrite Hrow in Hrow0. injection Hrow0 as <-. rewrite Hctx.
  fold newID in Hfresh. unfold advance_row_id. fold newID. rewrite Hfresh.
  split; [reflexivity|].
  cbn [with_db w_db advanced workflow_instances workflow_instance_nodes].
  rewrite lookup_alter_eq, Hrow. eexists. split; [reflexivity|].
  cbn [advance_head ir_context ir_waiting_signal ir_expires_at
       ir_current_node_instance_id].
  split; [|split; [reflexivity|split; [reflexivity|split; [reflexivity|]]]].
  - intros key. rewrite lookup_union.
    destruct (formData !! key), (ir_context row !! key); reflexivity.
  - unfold advance_row_id. fold newID. rewrite lookup_insert_eq.
    split; [reflexivity|]. split; [reflexivity|].
    apply list_elem_of_In. right. right. right. now left.
Qed.

Section HandlerFacts.
Context `{GoLib}.
Variable fieldsNil : WorkflowNode -> bool.

(** X9.  The form handler changes the store only when it answers with
    the redirect: a request without an instance ID, for an instance that
    does not load or is not at a form node, with validation errors, or
    whose advance fails leaves every row as it was. *)
Theorem submitFormHandler_rejects_without_writing w instanceID formDataStr resp w' evs :
  run (submitFormHandler fieldsNil instanceID formDataStr) w = (resp, w', evs) ->
  (forall i, resp <> Found i) -> w_db w' = w_db w.
Proof.
  intros Hrun Hno.
  enough (Hlet : let '(resp0, w0, _) := run (submitFormHandler fieldsNil instanceID formDataStr) w in
                 (forall i, resp0 <> Found i) -> w_db w0 = w_db w)
    by (rewrite Hrun in Hlet; exact (Hlet Hno)).
  clear Hrun Hno.
  unfold submitFormHandler.
  destruct (String.eqb instanceID "form" || String.eqb instanceID EmptyString);
    [intros _; reflexivity|].
  rewrite run_bind, run_GetInstanceAndDefinition.
  destruct (load w instanceID) as [instance|e] eqn:Hload; [|intros _; reflexivity].
  destruct (inst_CurrentNodeDef instance) as [def|]; [|intros _; reflexivity].
  destruct (negb (String.eqb (node_Type def) "form")
            || fieldsNil def); [intros _; reflexivity|].
  destruct (negb (Nat.eqb (size (ValidateFormInput (node_Fields def) formDataStr)) 0));
    [intros _; reflexivity|].
  rewrite run_bind, run_AdvanceInstanceAfterForm. unfold after_form.
  destruct (load_inv _ _ _ Hload) as (row & nrow & wf & def' & _ & _ & _ & _ & Hid & _).
  rewrite Hid, Hload.
  destruct (workflow_instance_nodes (w_db w) !! _); cbn [run].
  - intros _; reflexivity.
  - intros Hno. now destruct (Hno instanceID).
Qed.

(** X10.  When the form handler answers with the redirect, the stored
    context holds every submitted key with its submitted text as a
    string, whether or not a field declares the key and whatever the
    field's type, and every other key keeps its value. *)
Theorem submitFormHandler_stores_strings w instanceID formDataStr w' evs i :
  run (submitFormHandler fieldsNil instanceID formDataStr) w = (Found i, w', evs) ->
  i = instanceID
  /\ exists row row',
       workflow_instances (w_db w) !! instanceID = Some row
       /\ workflow_instances (w_db w') !! instanceID = Some row'
       /\ forall key,
            ir_context row' !! key =
              match formDataStr !! key with
              | Some text => Some (VString text)
              | None => ir_context row !! key
              end.
Proof.
  unfold submitFormHandler.
  destruct (String.eqb instanceID "form" || String.eqb instanceID EmptyString);
    [discriminate|].
  rewrite run_bind, run_GetInstanceAndDefinition.
  destruct (load w instanceID) as [instance|e] eqn:Hload; [|discriminate].
  destruct (inst_CurrentNodeDef instance) as [def|]; [|discriminate].
  destruct (negb (String.eqb (node_Type def) "form")
            || fieldsNil def); [discriminate|].
  destruct (negb (Nat.eqb (size (ValidateFormInput (node_Fields def) formDataStr)) 0));
    [discriminate|].
  rewrite run_bind, run_AdvanceInstanceAfterForm. unfold after_form.
  destruct (load_inv _ _ _ Hload)
    as (row & nrow & wf & def' & Hrow & _ & _ & _ & Hid & _ & _ & Hctx & _).
  rewrite Hid, Hload, Hctx.
  destruct (workflow_instance_nodes (w_db w) !! _); cbn [run]; [discriminate|].
  intros [= <- <- _]. split; [reflexivity|].
  exists row. eexists. split; [exact Hrow|].
  cbn [with_db w_db advanced workflow_instances].
  rewrite lookup_alter_eq, Hrow. split; [reflexivity|].
  intros key. cbn [advance_head ir_context]. rewrite lookup_union, lookup_fmap.
  destruct (formDataStr !! key), (ir_context row !! key); reflexivity.
Qed.

(** X11.  The form handler answers with the redirect only when the
    instance is at a form node and every field the node declares passes
    validation against the submitted data. *)
Theorem submitFormHandler_redirect_only_if_valid w instanceID formDataStr w' evs i :
  run (submitFormHandler fieldsNil instanceID formDataStr) w = (Found i, w', evs) ->
  exists instance def,
    load w instanceID = Ok instance
    /\ inst_CurrentNodeDef instance = Some def
    /\ node_Type def = "form"
    /\ forall field, In field (node_Fields def) -> passes formDataStr field = true.
Proof.
  unfold submitFormHandler.
  destruct (String.eqb instanceID "form" || String.eqb instanceID EmptyString);
    [discriminate|].
  rewrite run_bind, run_GetInstanceAndDefinition.
  destruct (load w instanceID) as [instance|e] eqn:Hload; [|discriminate].
  destruct (inst_CurrentNodeDef instance) as [def|] eqn:Hdef; [|discriminate].
  destruct (String.eqb (node_Type def) "form") eqn:Hty; [|discriminate].
  cbn [negb orb].
  destruct (fieldsNil def); [discriminate|].
  destruct (Nat.eqb (size (ValidateFormInput (node_Fields def) formDataStr)) 0) eqn:Hsize;
    [|discriminate].
  intros _. exists instance, def. split; [reflexivity|]. split; [exact Hdef|].
  split; [now apply String.eqb_eq|].
  intros field Hin. apply Nat.eqb_eq in Hsize.
  now apply (ValidateFormInput_valid (node_Fields def)).
Qed.

End HandlerFacts.

Import Fixture Survey.

(** The instance at [first] is taken to [ask] with one answer. *)
Lemma AdvanceInstanceAfterForm_merges_witness :
  (run (AdvanceInstanceAfterForm "u1" "ask" {["answer" := VString "yes"]}) w_first).1.1
  = Ok tt.
Proof.
  destruct (workflow_instances (w_db w_first) !! "u1") as [row|] eqn:Hrow;
    [|vm_compute in Hrow; discriminate].
  assert (Hload : is_Ok (load w_first "u1") = true) by (vm_compute; reflexivity).
  assert (Hfresh : workflow_instance_nodes (w_db w_first)
                     !! ("ask" +:+ "-" +:+ "u1" +:+ "-" +:+ itoa (next_now w_first)) = None)
    by (vm_compute; reflexivity).
  pose proof (AdvanceInstanceAfterForm_merges w_first "u1" "ask"
                {["answer" := VString "yes"]} row Hrow Hload Hfresh) as Hm.
  destruct (run (AdvanceInstanceAfterForm "u1" "ask" {["answer" := VString "yes"]}) w_first)
    as [[r w'] evs].
  destruct Hm as [Hr _]. exact Hr.
Defined.

(** A submission whose age is not a number is answered with the form and
    its errors. *)
Lemma submitFormHandler_rejects_without_writing_witness :
  w_db (run (submitFormHandler (H := lib) no_fields "u1" bad_answers) w_profile).1.2 = w_db w_profile.
Proof.
  destruct (run (submitFormHandler (H := lib) no_fields "u1" bad_answers) w_profile)
    as [[resp w'] evs] eqn:E.
  apply (submitFormHandler_rejects_without_writing (H := lib) _ _ _ _ _ _ _ E).
  intros i. vm_compute in E. injection E as <- _ _. discriminate.
Defined.

(** A valid submission: the age is stored as the string it was sent as. *)
Lemma submitFormHandler_stores_strings_witness :
  exists row',
    workflow_instances
      (w_db (run (submitFormHandler (H := lib) no_fields "u1" answers) w_profile).1.2) !! "u1"
    = Some row'
    /\ ir_context row' !! "age" = Some (VString "30").
Proof.
  destruct (run (submitFormHandler (H := lib) no_fields "u1" answers) w_profile)
    as [[resp w'] evs] eqn:E.
  assert (Hresp : resp = Found "u1") by (vm_compute in E; now injection E as <- _ _).
  subst resp.
  destruct (submitFormHandler_stores_strings (H := lib) _ _ _ _ _ _ _ E)
    as (_ & row & row' & _ & Hrow' & Hkeys).
  exists row'. split; [exact Hrow'|]. rewrite Hkeys. reflexivity.
Defined.

Lemma submitFormHandler_redirect_only_if_valid_witness :
  passes (H := lib) answers age_field = true.
Proof.
  destruct (run (submitFormHandler (H := lib) no_fields "u1" answers) w_profile)
    as [[resp w'] evs] eqn:E.
  assert (Hresp : resp = Found "u1") by (vm_compute in E; now injection E as <- _ _).
  subst resp.
  destruct (submitFormHandler_redirect_only_if_valid (H := lib) _ _ _ _ _ _ _ E)
    as (instance & def & Hload & Hdef & _ & Hall).
  apply Hall.
  assert (Hp : def = profile).
  { vm_compute in Hload. injection Hload as <-. cbn in Hdef. now injection Hdef as <-. }
  rewrite Hp. now left.
Defined.

(** * Further facts: the store over time *)

Lemma extends_refl db : extends db db.
Proof. split; eauto. Qed.

Lemma extends_trans db1 db2 db3 : extends db1 db2 -> extends db2 db3 -> extends db1 db3.
Proof.
  intros [Hn1 Hi1] [Hn2 Hi2]. split; [eauto|].
  intros id row Hrow. destruct (Hi1 _ _ Hrow) as (row2 & Hrow2 & Hw2 & Hc2).
  destruct (Hi2 _ _ Hrow2) as (row3 & Hrow3 & Hw3 & Hc3).
  exists row3. split; [exact Hrow3|]. split; congruence.
Qed.

Lemma exec_stmt_extends s db db' : exec_stmt s db = Ok db' -> extends db db'.
Proof.
  destruct s as [id row|id nrow|cur id|cur ctx sig exp upd id]; cbn [exec_stmt].
  - destruct (workflow_instances db !! id) eqn:E; [discriminate|]. intros [= <-].
    split; cbn [workflow_instances workflow_instance_nodes]; [auto|].
    intros id0 row0 H0. destruct (decide (id0 = id)) as [->|Hne]; [congruence|].
    rewrite lookup_insert_ne by congruence. eauto.
  - destruct (workflow_instance_nodes db !! id) eqn:E; [discriminate|]. intros [= <-].
    split; cbn [workflow_instances workflow_instance_nodes]; [|eauto].
    intros id0 row0 H0. destruct (decide (id0 = id)) as [->|Hne]; [congruence|].
    rewrite lookup_insert_ne by congruence. exact H0.
  - intros [= <-]. split; cbn [workflow_instances workflow_instance_nodes]; [auto|].
    intros id0 row0 H0. destruct (decide (id0 = id)) as [->|Hne].
    + rewrite lookup_alter_eq, H0. eexists. split; [reflexivity|]. split; reflexivity.
    + rewrite lookup_alter_ne by congruence. eauto.
  - intros [= <-]. split; cbn [workflow_instances workflow_instance_nodes]; [auto|].
    intros id0 row0 H0. destruct (decide (id0 = id)) as [->|Hne].
    + rewrite lookup_alter_eq, H0. eexists. split; [reflexivity|]. split; reflexivity.
    + rewrite lookup_alter_ne by congruence. eauto.
Qed.

Lemma handle_extends {X : Type} (e : eff X) w :
  extends (w_db w) (w_db (handle e w).1.2).
Proof.
  destruct e; cbn [handle fst snd]; try apply extends_refl.
  destruct (exec_stmt s (w_db w)) as [db'|err] eqn:E; cbn [fst snd with_db w_db].
  - now apply exec_stmt_extends with s.
  - apply extends_refl.
Qed.

Lemma run_extends {A : Type} (p : prog A) :
  forall w, extends (w_db w) (w_db (run p w).1.2).
Proof.
  induction p as [a|X e k IH]; intros w; cbn [run fst snd]; [apply extends_refl|].
  pose proof (handle_extends e w) as He.
  destruct (handle e w) as [[x w1] evs1]. cbn [fst snd] in He.
  specialize (IH x w1). destruct (run (k x) w1) as [[a w2] evs2]. cbn [fst snd] in *.
  now apply extends_trans with (w_db w1).
Qed.

Lemma crash_after_extends {A : Type} n : forall (p : prog A) w,
  extends (w_db w) (w_db (crash_after n p w)).
Proof.
  induction n as [|n IH]; intros p w; [destruct p; apply extends_refl|].
  destruct p as [a|X e k]; cbn [crash_after]; [apply extends_refl|].
  pose proof (handle_extends e w) as He.
  destruct (handle e w) as [[x w1] evs1]. cbn [fst snd] in He.
  apply extends_trans with (w_db w1); [exact He|apply IH].
Qed.

Section ScheduleFacts.
Context `{GoLib}.

Lemma sched_step_extends i c :
  extends (w_db (c_world c)) (w_db (c_world (sched_step i c))).
Proof.
  unfold sched_step. destruct (c_threads c !! i) as [[a|X e k]|]; try apply extends_refl.
  pose proof (handle_extends e (c_world c)) as He.
  destruct (handle e (c_world c)) as [[x w1] evs1]. exact He.
Qed.

(** X12.  The two tables only grow: whatever programs run, in whatever
    interleaving of their operations and wherever the process stops, a
    node-execution row once written is never removed or changed, and an
    instance row is never removed and keeps its workflow and its
    creation time. *)
Theorem store_only_grows :
  (forall schedule c, extends (w_db (c_world c)) (w_db (c_world (sched schedule c))))
  /\ (forall (A : Type) (p : prog A) n w, extends (w_db w) (w_db (crash_after n p w)))
  /\ (forall (A : Type) (p : prog A) w, extends (w_db w) (w_db (run p w).1.2)).
Proof.
  split; [|split].
  - intros schedule. unfold sched.
    induction schedule as [|i schedule IH]; intros c; cbn [fold_left];
      [apply extends_refl|].
    apply extends_trans with (w_db (c_world (sched_step i c)));
      [apply sched_step_extends|apply IH].
  - intros A p n w. apply crash_after_extends.
  - intros A p w. apply run_extends.
Qed.

End ScheduleFacts.

(** ** The heads of the instances *)




(** * Further facts: node executions *)

Section ExecutionFacts.
Context `{GoLib}.

(** X13.  [ExecuteNextNode] leaves an instance alone that waits for a
    signal or whose expiry has passed: it returns no error, writes
    nothing and starts no goroutine, not even the node's timeout. *)
Theorem ExecuteNextNode_paused w instanceID instance :
  load w instanceID = Ok instance ->
  inst_WaitingSignal instance <> EmptyString
  \/ (exists expiresAt, inst_ExpiresAt instance = Some expiresAt /\ expiresAt < next_now w) ->
  let '(r, w', evs) := run (ExecuteNextNode instanceID) w in
  r = Ok tt /\ w_db w' = w_db w /\ evs = [head_read w instanceID].
Proof.
  intros Hload Hpaused. unfold ExecuteNextNode.
  rewrite run_try, run_GetInstanceAndDefinition, Hload. rewrite run_bind.
  unfold waitingOrExpired.
  destruct (String.eqb (inst_WaitingSignal instance) EmptyString) eqn:Hsig; cbn [negb].
  - apply String.eqb_eq in Hsig.
    destruct Hpaused as [Hne|(expiresAt & Hexp & Hlt)]; [now destruct Hne|].
    rewrite Hexp. rewrite run_bind, run_call. cbn [handle run].
    apply Z.ltb_lt in Hlt. rewrite Hlt. cbn [run]. auto.
  - cbn [run]. auto.
Qed.

(** X14.  At a node that is not a start, script or gateway node,
    [ExecuteNextNode] writes nothing: at a form node it returns and the
    instance rests until the form is submitted, at an end node it
    starts the emission of the end signal when one is configured, and
    for any other type it returns the unsupported-type error.  The
    node's timeout goroutine is started in each of these cases. *)
Theorem ExecuteNextNode_rests w instanceID instance def :
  load w instanceID = Ok instance ->
  inst_WaitingSignal instance = EmptyString ->
  inst_ExpiresAt instance = None ->
  inst_CurrentNodeDef instance = Some def ->
  node_Type def <> "start" -> node_Type def <> "script" -> node_Type def <> "gateway" ->
  run (ExecuteNextNode instanceID) w
  = (if String.eqb (node_Type def) "form" || String.eqb (node_Type def) "end"
     then Ok tt else Err (ErrUnsupportedNodeType (node_Type def)),
     w,
     (head_read w instanceID :: timeout_started instance def
      ++ (if String.eqb (node_Type def) "form" then []
          else if String.eqb (node_Type def) "end" then end_emits def else []))%list).
Proof.
  intros Hload Hsig Hexp Hdef Hstart Hscript Hgateway. unfold ExecuteNextNode.
  rewrite run_try, run_GetInstanceAndDefinition, Hload. rewrite run_bind.
  unfold waitingOrExpired. rewrite Hsig, Hexp. cbn [String.eqb negb run].
  rewrite Hdef. rewrite run_bind.
  apply String.eqb_neq in Hstart, Hscript, Hgateway.
  rewrite Hstart, Hscript, Hgateway.
  destruct (load_inv _ _ _ Hload) as (row & nrow & wf & def' & _ & _ & _ & _ & Hid & _).
  assert (Ht : run (match node_Timeout def with
                    | Some timeoutCfg =>
                        call (Go (TTimeout instanceID timeoutCfg
                                    (inst_CurrentNode instance)
                                    (inst_CurrentNodeInstanceDBID instance)))
                    | None => Ret tt
                    end) w = (tt, w, timeout_started instance def)).
  { unfold timeout_started. rewrite Hid. destruct (node_Timeout def); reflexivity. }
  rewrite Ht.
  destruct (String.eqb (node_Type def) "form"); cbn [orb run app].
  { now rewrite !app_nil_r. }
  destruct (String.eqb (node_Type def) "end"); cbn [run].
  - unfold executeEndNode, end_emits.
    destruct (node_End def) as [endConfig|]; [|cbn [run]; now rewrite !app_nil_r].
    destruct (end_Signal endConfig) as [s|]; [|cbn [run]; now rewrite !app_nil_r].
    destruct (String.eqb (sig_Emit s) EmptyString); cbn [negb run];
      [now rewrite !app_nil_r|].
    rewrite run_bind, run_call. cbn [handle run]. now rewrite !app_nil_r.
  - now rewrite !app_nil_r.
Qed.

End ExecutionFacts.

(** * Further facts: advancing and creating *)

(** X15.  When the definition has no node with the ID an instance is
    advanced to, [advanceInstance] still writes the node row and the
    head, fails where it reads the node's type, and leaves an instance
    that no longer loads: [GetInstanceAndDefinition] answers that the
    node is not in the definition. *)
Theorem advanceInstance_unknown_node w instanceID nextNodeID instance :
  load w instanceID = Ok instance ->
  GetNodeByID (inst_WorkflowDef instance) nextNodeID = None ->
  workflow_instance_nodes (w_db w) !! advance_row_id (tick w) instanceID nextNodeID = None ->
  let '(r, w', _) := run (advanceInstance instanceID nextNodeID None) w in
  r = Err PanicNilPointer
  /\ ir_current_node_instance_id <$> workflow_instances (w_db w') !! instanceID
     = Some (advance_row_id (tick w) instanceID nextNodeID)
  /\ load w' instanceID = Err (ErrNodeNotFound nextNodeID).
Proof.
  intros Hload Hnone Hfresh. rewrite (run_advanceInstance _ _ _ _ Hload Hfresh).
  rewrite Hnone.
  destruct (load_inv _ _ _ Hload)
    as (row & nrow & wf & def & Hrow & _ & Hwf & _ & _ & _ & _ & _ & _ & _ & Hdef & _).
  split; [reflexivity|].
  unfold load. cbn [with_db w_db w_defs advanced workflow_instances workflow_instance_nodes
                    tick].
  rewrite lookup_alter_eq, Hrow. cbn [fmap option_fmap option_map advance_head
                                     ir_current_node_instance_id ir_workflow_id].
  split; [reflexivity|].
  rewrite lookup_insert_eq. cbn [advance_node_row nr_node_id].
  rewrite Hwf. rewrite Hdef in Hnone. now rewrite Hnone.
Qed.

(** X16.  After [advanceInstance] has moved an instance to a node of the
    definition, it starts [ExecuteNextNode] for the instance unless the
    node is a form or an end node, and starts nothing else: an end node
    reached from a start, script or gateway node or by a timeout is not
    executed, so the signal its [end] block names is not emitted. *)
Theorem advanceInstance_continuation w instanceID nextNodeID instance def :
  load w instanceID = Ok instance ->
  GetNodeByID (inst_WorkflowDef instance) nextNodeID = Some def ->
  workflow_instance_nodes (w_db w) !! advance_row_id (tick w) instanceID nextNodeID = None ->
  let '(r, _, evs) := run (advanceInstance instanceID nextNodeID None) w in
  r = Ok tt
  /\ spawned evs
     = if String.eqb (node_Type def) "end" || String.eqb (node_Type def) "form"
       then [] else [TExecuteNextNode instanceID].
Proof.
  intros Hload Hdef Hfresh. rewrite (run_advanceInstance _ _ _ _ Hload Hfresh).
  rewrite Hdef. split; [reflexivity|]. unfold may_continue, head_read, advance_events.
  destruct (String.eqb (node_Type def) "end"), (String.eqb (node_Type def) "form");
    reflexivity.
Qed.

(** X17.  The ID of a node row is made of the node, the instance and
    the clock reading: when two advances of an instance to the same
    node read the same time, the first succeeds and the second fails on
    the primary key and leaves the store as the first left it. *)
Theorem UpdateInstanceCurrentNodeAndContext_same_reading
    w instanceID newNodeID ctx sig exp ctx' sig' exp' :
  workflow_instance_nodes (w_db w) !! advance_row_id w instanceID newNodeID = None ->
  next_now (tick w) = next_now w ->
  let '(r1, w1, _) :=
    run (UpdateInstanceCurrentNodeAndContext instanceID newNodeID ctx sig exp) w in
  let '(r2, w2, _) :=
    run (UpdateInstanceCurrentNodeAndContext instanceID newNodeID ctx' sig' exp') w1 in
  r1 = Ok (advance_row_id w instanceID newNodeID)
  /\ r2 = Err (ErrConstraint "workflow_instance_nodes"
                 (advance_row_id w instanceID newNodeID))
  /\ w_db w2 = w_db w1.
Proof.
  intros Hfresh Hsame.
  rewrite run_UpdateInstanceCurrentNodeAndContext by exact Hfresh.
  set (w1 := with_db (tick w) (advanced w instanceID newNodeID ctx sig exp)).
  assert (Hid : advance_row_id w1 instanceID newNodeID
                = advance_row_id w instanceID newNodeID).
  { unfold advance_row_id. now rewrite <- Hsame. }
  rewrite run_UpdateInstanceCurrentNodeAndContext_taken.
  - rewrite Hid. auto.
  - rewrite Hid. subst w1. cbn [with_db w_db advanced workflow_instance_nodes].
    rewrite lookup_insert_eq. eauto.
Qed.

(** X18.  [GetNodeByID] returns the first node of the definition that
    has the ID, and nothing when no node has it. *)
Theorem GetNodeByID_first wf nodeID :
  match GetNodeByID wf nodeID with
  | Some n =>
      exists before after,
        wf_Nodes wf = (before ++ n :: after)%list
        /\ node_ID n = nodeID
        /\ Forall (fun m => node_ID m <> nodeID) before
  | None => Forall (fun m => node_ID m <> nodeID) (wf_Nodes wf)
  end.
Proof.
  unfold GetNodeByID. induction (wf_Nodes wf) as [|m nodes IH]; cbn [find].
  - constructor.
  - destruct (String.eqb (node_ID m) nodeID) eqn:E.
    + apply String.eqb_eq in E. exists [], nodes. repeat split; [exact E|constructor].
    + apply String.eqb_neq in E. destruct (find _ nodes) as [n|].
      * destruct IH as (before & after & -> & Hid & Hall).
        exists (m :: before), after. repeat split; [exact Hid|now constructor].
      * now constructor.
Qed.

(** X19.  A successful [CreateNewInstance] stores the instance with the
    head at the start node's row, no expiry, and the signal the start
    node catches as its waiting signal; it starts [ExecuteNextNode] for
    the instance exactly when the start node catches no signal. *)
Theorem CreateNewInstance_waits_iff_catching w workflowID instance w' evs :
  run (CreateNewInstance workflowID) w = (Ok instance, w', evs) ->
  exists startNode row,
    w_defs w !! workflowID = Some (inst_WorkflowDef instance)
    /\ GetNodeByID (inst_WorkflowDef instance) "start_node" = Some startNode
    /\ workflow_instances (w_db w') !! inst_ID instance = Some row
    /\ ir_workflow_id row = workflowID
    /\ ir_current_node_instance_id row = node_ID startNode +:+ "-" +:+ inst_ID instance
    /\ ir_waiting_signal row
       = match node_Signal startNode with Some s => sig_Catch s | None => EmptyString end
    /\ ir_expires_at row = None
    /\ spawned evs
       = if String.eqb (ir_waiting_signal row) EmptyString
         then [TExecuteNextNode (inst_ID instance)] else [].
Proof.
  unfold CreateNewInstance. rewrite run_try.
  unfold GetWorkflowDefinition. rewrite run_bind, run_call. cbn [handle run].
  destruct (w_defs w !! workflowID) as [wf|] eqn:Hwf; [|discriminate].
  rewrite run_bind, run_call. cbn [handle].
  destruct (GetNodeByID wf "start_node") as [startNode|] eqn:Hstart; [|discriminate].
  rewrite run_try. unfold SaveNewInstance.
  rewrite run_bind, run_call. cbn [handle].
  rewrite run_try. unfold exec at 1. rewrite run_bind, run_call.
  cbn [handle exec_stmt tick draw w_db].
  destruct (workflow_instances (w_db w) !! next_uuid w); [discriminate|]. cbn [run].
  rewrite run_try. unfold exec at 1. rewrite run_bind, run_call.
  cbn [handle exec_stmt with_db w_db workflow_instances workflow_instance_nodes].
  destruct (workflow_instance_nodes (w_db w) !! _) eqn:Hfresh; [discriminate|].
  cbn [run]. rewrite run_try. unfold exec at 1. rewrite run_bind, run_call.
  cbn [handle exec_stmt with_db w_db workflow_instances workflow_instance_nodes run].
  rewrite run_bind, run_call. cbn [handle]. rewrite run_bind, run_call. cbn [handle].
  destruct (String.eqb (match node_Signal startNode with
                        | Some s => sig_Catch s
                        | None => EmptyString
                        end) EmptyString) eqn:Hcatch;
    [rewrite run_bind, run_call|]; cbn [handle run fst snd];
    intros [= <- <- <-]; cbn [inst_ID inst_WorkflowDef w_db with_db tick workflow_instances];
    exists startNode; eexists;
    (split; [reflexivity|]); (split; [exact Hstart|]);
    (split; [rewrite lookup_alter_eq, lookup_insert_eq; reflexivity|]);
    cbn [ir_workflow_id ir_current_node_instance_id ir_waiting_signal ir_expires_at];
    rewrite Hcatch; repeat split.
Qed.

Import Fixture.

(** The instance of [wf_signal] waits for ["go"]. *)
Lemma ExecuteNextNode_paused_witness :
  (run (ExecuteNextNode (H := lib) "u1") w_waiting).1.1 = Ok tt.
Proof.
  destruct (load w_waiting "u1") as [instance|] eqn:Hload;
    [|vm_compute in Hload; discriminate].
  assert (Hsig : inst_WaitingSignal instance <> EmptyString)
    by (vm_compute in Hload; injection Hload as <-; discriminate).
  pose proof (ExecuteNextNode_paused (H := lib) w_waiting "u1" instance Hload
                (or_introl Hsig)) as Hp.
  destruct (run (ExecuteNextNode (H := lib) "u1") w_waiting) as [[r w'] evs].
  destruct Hp as [Hr _]. exact Hr.
Defined.

(** The instance of [wf_forms] rests at its first form. *)
Lemma ExecuteNextNode_rests_witness :
  (run (ExecuteNextNode (H := lib) "u1") w_first).1 = (Ok tt, w_first).
Proof.
  destruct (load w_first "u1") as [instance|] eqn:Hload;
    [|vm_compute in Hload; discriminate].
  assert (Hinst : inst_WaitingSignal instance = EmptyString
                  /\ inst_ExpiresAt instance = None
                  /\ inst_CurrentNodeDef instance = Some (node "first" "form" "ask"))
    by (vm_compute in Hload; injection Hload as <-; repeat split).
  destruct Hinst as (Hsig & Hexp & Hdef).
  rewrite (ExecuteNextNode_rests (H := lib) w_first "u1" instance
             (node "first" "form" "ask") Hload Hsig Hexp Hdef);
    [reflexivity|discriminate|discriminate|discriminate].
Defined.

(** The instance at [first] is advanced to a node [wf_forms] lacks. *)
Lemma advanceInstance_unknown_node_witness :
  (run (advanceInstance "u1" "nowhere" None) w_first).1.1 = Err PanicNilPointer.
Proof.
  destruct (load w_first "u1") as [instance|] eqn:Hload;
    [|vm_compute in Hload; discriminate].
  assert (Hnone : GetNodeByID (inst_WorkflowDef instance) "nowhere" = None)
    by (vm_compute in Hload; injection Hload as <-; reflexivity).
  assert (Hfresh : workflow_instance_nodes (w_db w_first)
                     !! advance_row_id (tick w_first) "u1" "nowhere" = None)
    by (vm_compute; reflexivity).
  pose proof (advanceInstance_unknown_node w_first "u1" "nowhere" instance
                Hload Hnone Hfresh) as Hp.
  destruct (run (advanceInstance "u1" "nowhere" None) w_first) as [[r w'] evs].
  destruct Hp as [Hr _]. exact Hr.
Defined.

(** Two advances to [ask] that both read the time 200. *)
Lemma UpdateInstanceCurrentNodeAndContext_same_reading_witness :
  (run (UpdateInstanceCurrentNodeAndContext "u1" "ask" ∅ EmptyString None)
       (run (UpdateInstanceCurrentNodeAndContext "u1" "ask" ∅ EmptyString None)
            w_same_reading).1.2).1.1
  = Err (ErrConstraint "workflow_instance_nodes" "ask-u1-200").
Proof.
  assert (Hfresh : workflow_instance_nodes (w_db w_same_reading)
                     !! advance_row_id w_same_reading "u1" "ask" = None)
    by (vm_compute; reflexivity).
  pose proof (UpdateInstanceCurrentNodeAndContext_same_reading w_same_reading "u1" "ask"
                ∅ EmptyString None ∅ EmptyString None Hfresh eq_refl) as Hp.
  destruct (run (UpdateInstanceCurrentNodeAndContext "u1" "ask" ∅ EmptyString None)
                w_same_reading) as [[r1 w1] evs1].
  cbn [fst snd].
  destruct (run (UpdateInstanceCurrentNodeAndContext "u1" "ask" ∅ EmptyString None) w1)
    as [[r2 w2] evs2].
  destruct Hp as (_ & Hr2 & _). exact Hr2.
Defined.

(** An instance of [wf_signal] is created waiting, and nothing is started. *)
Lemma CreateNewInstance_waits_iff_catching_witness :
  spawned (run (CreateNewInstance "wf_signal") w_empty).2 = [].
Proof.
  destruct (run (CreateNewInstance "wf_signal") w_empty) as [[[instance|e] w'] evs] eqn:E;
    [|vm_compute in E; discriminate].
  destruct (CreateNewInstance_waits_iff_catching _ _ _ _ _ E)
    as (startNode & row & Hwf & Hstart & _ & _ & _ & Hsig & _ & Hgo).
  cbn [snd]. rewrite Hgo, Hsig.
  assert (Hs : startNode = start_catching).
  { assert (Hw : w_defs w_empty !! "wf_signal" = Some wf_signal)
      by (vm_compute; reflexivity).
    rewrite Hw in Hwf. injection Hwf as Hwf. rewrite <- Hwf in Hstart.
    vm_compute in Hstart. now injection Hstart as <-. }
  rewrite Hs. reflexivity.
Defined.

(** The instance at [first] is advanced to the end node [done]. *)
Lemma advanceInstance_continuation_witness :
  spawned (run (advanceInstance "u1" "done" None) w_first).2 = [].
Proof.
  destruct (load w_first "u1") as [instance|] eqn:Hload;
    [|vm_compute in Hload; discriminate].
  assert (Hdef : GetNodeByID (inst_WorkflowDef instance) "done"
                 = Some (node "done" "end" EmptyString))
    by (vm_compute in Hload; injection Hload as <-; reflexivity).
  assert (Hfresh : workflow_instance_nodes (w_db w_first)
                     !! advance_row_id (tick w_first) "u1" "done" = None)
    by (vm_compute; reflexivity).
  pose proof (advanceInstance_continuation w_first "u1" "done" instance
                (node "done" "end" EmptyString) Hload Hdef Hfresh) as Hp.
  destruct (run (advanceInstance "u1" "done" None) w_first) as [[r w'] evs].
  destruct Hp as [_ Hgo]. exact Hgo.
Defined.

(** * Further facts: the heads under interleaving *)


















Section InterleavingFacts.
Context `{GoLib}.
Variable fieldsNil : WorkflowNode -> bool.















End InterleavingFacts.

Import Fixture Survey.


(** * Further facts: what the engine keeps under interleaving *)

Section Discipline.
Variable R : string -> instance_row -> Prop.
Variable ok : stmt -> Prop.

Lemma obeys_bind {A B : Type} (Q : A -> Prop) (Q' : B -> Prop)
    (p : prog A) (f : A -> prog B) :
  obeys R ok Q p -> (forall a, Q a -> obeys R ok Q' (f a)) -> obeys R ok Q' (bind p f).
Proof.
  intros Hp Hf. induction p as [a|X e k IH]; [now apply Hf|].
  cbn [bind]. destruct e; cbn [obeys] in *; try (intros x; now apply IH).
  - destruct Hp as [Hs Hk]. split; [exact Hs|]. intros x. now apply IH.
  - intros r Hr. apply IH. now apply Hp.
Qed.

Lemma obeys_try {A B : Type} (Q : result A -> Prop) (p : prog (result A))
    (k : A -> prog (result B)) :
  obeys R ok Q p -> (forall a, Q (Ok a) -> obeys R ok anything (k a)) ->
  obeys R ok anything (try p k).
Proof.
  intros Hp Hk. unfold try. apply obeys_bind with Q; [exact Hp|].
  intros [a|e] HQ; [now apply Hk|exact I].
Qed.

Lemma obeys_any {A B : Type} (p : prog A) (f : A -> prog B) :
  obeys R ok anything p -> (forall a, obeys R ok anything (f a)) ->
  obeys R ok anything (bind p f).
Proof. intros Hp Hf. apply obeys_bind with anything; [exact Hp|]. intros a _. apply Hf. Qed.

Lemma obeys_GetInstanceAndDefinition instanceID :
  obeys R ok (loaded R instanceID) (GetInstanceAndDefinition instanceID).
Proof.
  unfold GetInstanceAndDefinition, GetInstance, GetNodeInstance, GetWorkflowDefinition.
  cbn. intros [row|] Hrow; cbn; [|exact I]. intros [nrow|]; cbn; [|exact I].
  intros [wf|]; cbn; [|exact I].
  destruct (GetNodeByID wf (nr_node_id nrow)); cbn; [|exact I].
  exists row. split; [now apply Hrow|]. auto.
Qed.

Lemma obeys_Update instanceID newNodeID ctx sig exp :
  (forall nid nrow,
      nr_workflow_instance_id nrow = instanceID -> nr_context nrow = ctx ->
      nr_waiting_signal nrow = sig -> nr_expires_at nrow = exp ->
      ok (InsertNode nid nrow)) ->
  (forall nid upd, ok (UpdateInstance nid ctx sig exp upd instanceID)) ->
  obeys R ok anything
    (UpdateInstanceCurrentNodeAndContext instanceID newNodeID ctx sig exp).
Proof.
  intros Hnode Hhead. unfold UpdateInstanceCurrentNodeAndContext, try, exec. cbn.
  intros now. split; [now apply Hnode|]. intros [err|]; cbn; [exact I|].
  split; [apply Hhead|]. intros [err|]; exact I.
Qed.

Ltac obeyed :=
  repeat first
    [ exact I
    | apply obeys_any; [|intros ?]
    | match goal with
      | |- obeys _ _ _ (call _) => cbn; intros; exact I
      | |- obeys _ _ _ (Ret _) => exact I
      | |- obeys _ _ _ (if ?b then _ else _) => destruct b
      | |- obeys _ _ _ (match ?x with _ => _ end) => destruct x
      end ].

(** What a goroutine writes: the context and the expiry it has read,
    with no waiting signal. *)
Hypothesis ok_back_node : forall id row nid nrow,
  R id row -> nr_expires_at nrow = ir_expires_at row -> ok (InsertNode nid nrow).
Hypothesis ok_back_head : forall id row nid upd,
  R id row ->
  ok (UpdateInstance nid (ir_context row) EmptyString (ir_expires_at row) upd id).

Lemma obeys_loaded_Update instanceID instance newNodeID :
  loaded R instanceID (Ok instance) ->
  obeys R ok anything
    (UpdateInstanceCurrentNodeAndContext (inst_ID instance) newNodeID
       (inst_Context instance) EmptyString (inst_ExpiresAt instance)).
Proof.
  intros (row & Hrow & Hid & Hctx & Hexp). rewrite Hid, Hctx, Hexp.
  apply obeys_Update.
  - intros nid nrow _ _ _ Hnexp. now apply ok_back_node with instanceID row.
  - intros nid upd. now apply ok_back_head.
Qed.

Lemma obeys_advanceInstance instanceID nextNodeID :
  obeys R ok anything (advanceInstance instanceID nextNodeID None).
Proof.
  unfold advanceInstance.
  apply obeys_try with (loaded R instanceID); [apply obeys_GetInstanceAndDefinition|].
  intros instance Hl.
  apply obeys_any; [cbn; intros; exact I|]. intros _.
  apply obeys_try with anything; [now apply obeys_loaded_Update with instanceID|].
  intros _ _. obeyed.
Qed.

Lemma obeys_resumeEach instanceIDs : obeys R ok anything (resumeEach instanceIDs).
Proof.
  induction instanceIDs as [|id rest IH]; [exact I|]. cbn [resumeEach].
  apply obeys_bind with (loaded R id); [apply obeys_GetInstanceAndDefinition|].
  intros [instance|e] Hl.
  - apply obeys_any; [now apply obeys_loaded_Update with id|].
    intros [u|e]; (apply obeys_any; [cbn; intros; exact I|]); intros _; exact IH.
  - apply obeys_any; [cbn; intros; exact I|]. intros _. exact IH.
Qed.

Lemma obeys_EmitSignal signalName : obeys R ok anything (EmitSignal signalName).
Proof.
  unfold EmitSignal, ResumeWorkflowsBySignal, GetInstancesWaitingForSignal.
  apply obeys_try with anything; [cbn; intros; exact I|].
  intros [|id ids] _; [exact I|].
  apply obeys_any; [apply obeys_resumeEach|]. intros _. exact I.
Qed.

Context `{GoLib}.
Variable fieldsNil : WorkflowNode -> bool.

Lemma obeys_ExecuteNextNode instanceID : obeys R ok anything (ExecuteNextNode instanceID).
Proof.
  unfold ExecuteNextNode, waitingOrExpired, executeScriptNode, executeEndNode.
  apply obeys_try with (loaded R instanceID); [apply obeys_GetInstanceAndDefinition|].
  intros instance (row & _ & Hid & _).
  apply obeys_any; [obeyed|]. intros [|]; [exact I|].
  destruct (inst_CurrentNodeDef instance) as [def|]; [|exact I].
  apply obeys_any; [obeyed|]. intros _.
  destruct (String.eqb (node_Type def) "start").
  { destruct (negb _); [apply obeys_advanceInstance|exact I]. }
  destruct (String.eqb (node_Type def) "form"); [exact I|].
  destruct (String.eqb (node_Type def) "script").
  { destruct (node_Script def) as [scriptConfig|]; [|exact I].
    destruct (ExecuteScript _ _); [apply obeys_advanceInstance|exact I]. }
  destruct (String.eqb (node_Type def) "gateway").
  { destruct (ResolveGatewayConditions instance) as [[nextNodeID signalToThrow]|e];
      [|exact I].
    apply obeys_any; [obeyed|]. intros _. apply obeys_advanceInstance. }
  destruct (String.eqb (node_Type def) "end"); obeyed.
Qed.

Lemma obeys_logged (p : prog (result unit)) :
  obeys R ok anything p -> obeys R ok anything (logged p).
Proof. intros Hp. unfold logged. apply obeys_any; [exact Hp|]. intros r. obeyed. Qed.

Lemma obeys_timeoutGoroutine instID timeoutCfg originalNodeID originalNodeInstanceDBID :
  obeys R ok anything
    (timeoutGoroutine instID timeoutCfg originalNodeID originalNodeInstanceDBID).
Proof.
  unfold timeoutGoroutine.
  destruct (ParseDuration (to_Duration timeoutCfg)); [|obeyed].
  apply obeys_any; [obeyed|]. intros _.
  apply obeys_bind with (loaded R instID); [apply obeys_GetInstanceAndDefinition|].
  intros [currentInstance|e] _; [|obeyed].
  destruct (String.eqb _ _); [|exact I].
  apply obeys_any; [apply obeys_advanceInstance|]. intros a. obeyed.
Qed.

Lemma obeys_task t : obeys R ok anything (task_prog t).
Proof.
  destruct t; cbn [task_prog].
  - apply obeys_logged, obeys_ExecuteNextNode.
  - apply obeys_logged, obeys_EmitSignal.
  - apply obeys_timeoutGoroutine.
Qed.

(** What a creation and a form submission write: rows without an expiry,
    and a head without a waiting signal. *)
Hypothesis ok_new_instance : forall id row,
  ir_expires_at row = None -> ok (InsertInstance id row).
Hypothesis ok_new_node : forall nid nrow,
  nr_expires_at nrow = None -> ok (InsertNode nid nrow).
Hypothesis ok_point : forall cur id, ok (UpdateCurrentNodeInstance cur id).
Hypothesis ok_form : forall id nid ctx upd,
  ok (UpdateInstance nid ctx EmptyString None upd id).

Lemma obeys_SaveNewInstance instanceID workflowID initialNodeID ctx sig :
  obeys R ok anything (SaveNewInstance instanceID workflowID initialNodeID ctx sig None).
Proof.
  unfold SaveNewInstance, try, exec. cbn. intros now.
  split; [now apply ok_new_instance|]. intros [err|]; cbn; [exact I|].
  split; [now apply ok_new_node|]. intros [err|]; cbn; [exact I|].
  split; [apply ok_point|]. intros [err|]; exact I.
Qed.

Lemma obeys_CreateNewInstance workflowID :
  obeys R ok anything (CreateNewInstance workflowID).
Proof.
  unfold CreateNewInstance, GetWorkflowDefinition.
  apply obeys_try with anything; [obeyed|]. intros wf _.
  apply obeys_any; [cbn; intros; exact I|]. intros instanceID.
  destruct (GetNodeByID wf "start_node") as [startNode|]; [|exact I].
  apply obeys_try with anything; [apply obeys_SaveNewInstance|]. intros ids _. obeyed.
Qed.

Lemma obeys_AdvanceInstanceAfterForm instanceID nextNodeID formData :
  obeys R ok anything (AdvanceInstanceAfterForm instanceID nextNodeID formData).
Proof.
  unfold AdvanceInstanceAfterForm.
  apply obeys_try with (loaded R instanceID); [apply obeys_GetInstanceAndDefinition|].
  intros instance _.
  apply obeys_try with anything.
  - apply obeys_Update.
    + intros nid nrow _ _ _ Hexp. now apply ok_new_node.
    + intros nid upd. apply ok_form.
  - intros _ _. obeyed.
Qed.

Lemma obeys_submitFormHandler instanceID formDataStr :
  obeys R ok anything (submitFormHandler fieldsNil instanceID formDataStr).
Proof.
  unfold submitFormHandler.
  destruct (_ || _); [exact I|].
  apply obeys_bind with (loaded R instanceID); [apply obeys_GetInstanceAndDefinition|].
  intros [instance|e] _; [|exact I].
  destruct (inst_CurrentNodeDef instance) as [def|]; [|exact I].
  destruct (_ || _); [exact I|].
  destruct (negb _); [exact I|].
  apply obeys_any; [apply obeys_AdvanceInstanceAfterForm|].
  intros a. obeyed.
Qed.

Lemma obeys_entry e : obeys R ok anything (entry_prog fieldsNil e).
Proof.
  destruct e; cbn [entry_prog].
  - apply obeys_any; [apply obeys_CreateNewInstance|]. intros _. exact I.
  - apply obeys_any; [apply obeys_submitFormHandler|]. intros _. exact I.
  - apply obeys_task.
Qed.

End Discipline.

Section Invariant.
Context `{GoLib}.
Variable R : string -> instance_row -> Prop.
Variable ok : stmt -> Prop.
Variable Inv : store -> Prop.
Hypothesis Inv_read : forall db id row,
  Inv db -> workflow_instances db !! id = Some row -> R id row.
Hypothesis Inv_exec : forall db db' s,
  Inv db -> ok s -> exec_stmt s db = Ok db' -> Inv db'.
Hypothesis tasks_obey : forall t, obeys R ok anything (task_prog t).

Lemma handle_obeys {X : Type} (e : eff X) (k : X -> prog unit) w :
  Inv (w_db w) -> obeys R ok anything (Vis e k) ->
  Inv (w_db (handle e w).1.2) /\ obeys R ok anything (k (handle e w).1.1).
Proof.
  intros HI Hk.
  destruct e; cbn [obeys handle fst snd] in *; try (split; [exact HI|apply Hk]).
  - destruct Hk as [Hs Hk].
    destruct (exec_stmt s (w_db w)) as [db'|err] eqn:Hexec; cbn [fst snd with_db w_db].
    + split; [now apply Inv_exec with (w_db w) s|apply Hk].
    + split; [exact HI|apply Hk].
  - intros row Hrow. now apply Inv_read with (w_db w).
Qed.

Lemma sched_step_obeys i c :
  Inv (w_db (c_world c)) /\ Forall (obeys R ok anything) (c_threads c) ->
  Inv (w_db (c_world (sched_step i c)))
  /\ Forall (obeys R ok anything) (c_threads (sched_step i c)).
Proof.
  intros [HI Hall]. unfold sched_step.
  destruct (c_threads c !! i) as [[a|X e k]|] eqn:Hi; try (split; assumption).
  pose proof (Forall_lookup_1 _ _ _ _ Hall Hi) as Hk.
  destruct (handle_obeys e k (c_world c) HI Hk) as [HI' Hk'].
  destruct (handle e (c_world c)) as [[x w'] evs]. cbn [fst snd] in *.
  split; cbn [c_world c_threads]; [exact HI'|].
  apply Forall_app. split.
  - apply Forall_insert; [exact Hall|exact Hk'].
  - apply Forall_forall. intros p Hin. apply list_elem_of_In, in_map_iff in Hin.
    destruct Hin as (t & <- & _). apply tasks_obey.
Qed.

Lemma sched_obeys schedule : forall c,
  Inv (w_db (c_world c)) -> Forall (obeys R ok anything) (c_threads c) ->
  Inv (w_db (c_world (sched schedule c))).
Proof.
  unfold sched. induction schedule as [|i schedule IH]; intros c HI Hall; [exact HI|].
  cbn [fold_left]. destruct (sched_step_obeys i c (conj HI Hall)) as [HI' Hall'].
  now apply IH.
Qed.

End Invariant.

Lemma exec_stmt_context_kept c0 db db' s :
  contexts db = c0 -> context_kept c0 s -> exec_stmt s db = Ok db' -> contexts db' = c0.
Proof.
  intros <- Hs. unfold contexts.
  destruct s as [id row|nid nrow|cur id|cur ctx sig exp upd id];
    cbn [exec_stmt context_kept] in *.
  - destruct Hs.
  - destruct (workflow_instance_nodes db !! nid); [discriminate|]. now intros [= <-].
  - intros [= <-]. cbn [workflow_instances]. apply map_eq. intros k.
    rewrite !lookup_fmap. destruct (decide (k = id)) as [->|Hne].
    + rewrite lookup_alter_eq. now destruct (workflow_instances db !! id).
    + now rewrite lookup_alter_ne by congruence.
  - intros [= <-]. cbn [workflow_instances]. apply map_eq. intros k.
    rewrite !lookup_fmap. destruct (decide (k = id)) as [->|Hne].
    + rewrite lookup_alter_eq.
      destruct (workflow_instances db !! id) as [row|] eqn:Hrow; [|reflexivity].
      cbn. f_equal. symmetry. apply Hs. unfold contexts.
      now rewrite lookup_fmap, Hrow.
    + now rewrite lookup_alter_ne by congruence.
Qed.


Lemma waits_less_refl db : waits_less db db.
Proof. intros id row Hrow. eauto. Qed.

Lemma exec_stmt_signal_cleared db0 db db' s :
  waits_less db0 db -> signal_cleared s -> exec_stmt s db = Ok db' -> waits_less db0 db'.
Proof.
  intros Hw Hs Hexec id0 row0 Hrow0.
  destruct (Hw id0 row0 Hrow0) as (row & Hrow & Hsig).
  destruct s as [id new|nid nrow|cur id|cur ctx sig exp upd id];
    cbn [exec_stmt signal_cleared] in *.
  - destruct (workflow_instances db !! id) eqn:Hfresh; [discriminate|].
    injection Hexec as <-. cbn [workflow_instances]. exists row. split; [|exact Hsig].
    rewrite lookup_insert_ne; [exact Hrow|]. intros ->. congruence.
  - destruct (workflow_instance_nodes db !! nid); [discriminate|].
    injection Hexec as <-. eauto.
  - injection Hexec as <-. cbn [workflow_instances].
    destruct (decide (id0 = id)) as [->|Hne].
    + rewrite lookup_alter_eq, Hrow. eexists. split; [reflexivity|exact Hsig].
    + rewrite lookup_alter_ne by congruence. eauto.
  - injection Hexec as <-. cbn [workflow_instances].
    destruct (decide (id0 = id)) as [->|Hne].
    + rewrite lookup_alter_eq, Hrow. eexists. split; [reflexivity|]. now right.
    + rewrite lookup_alter_ne by congruence. eauto.
Qed.

Section InterleavingInvariants.
Context `{GoLib}.
Variable fieldsNil : WorkflowNode -> bool.

(** X21.  The goroutines of the engine, in any number and under every
    interleaving of their operations, leave the stored context of every
    instance as it was: node executions (script nodes among them, whose
    result is dropped), signal emissions and timeouts only ever write
    back a context they have read, and none of them writes another one
    in between. *)
Theorem goroutines_keep_contexts tasks schedule w :
  contexts (w_db (c_world (sched schedule (running w tasks)))) = contexts (w_db w).
Proof.
  set (c0 := contexts (w_db w)).
  apply (sched_obeys (context_read c0) (context_kept c0) (fun db => contexts db = c0)).
  - intros db id row <- Hrow. unfold context_read, contexts.
    now rewrite lookup_fmap, Hrow.
  - intros db db' s. apply exec_stmt_context_kept.
  - intros t. apply obeys_task.
    + intros id row nid nrow _ _. exact I.
    + intros id row nid upd Hread c Hc. unfold context_read in Hread. congruence.
  - reflexivity.
  - cbn [running c_threads]. apply Forall_forall. intros p Hin.
    apply list_elem_of_In, in_map_iff in Hin. destruct Hin as (t & <- & _).
    apply obeys_task.
    + intros id row nid nrow _ _. exact I.
    + intros id row nid upd Hread c Hc. unfold context_read in Hread. congruence.
Qed.



Lemma signal_entry e : obeys any_row signal_cleared anything (entry_prog fieldsNil e).
Proof. apply obeys_entry; cbn [signal_cleared]; intros; first [exact I | reflexivity]. Qed.

(** X23.  A waiting signal is set at creation only: under every
    interleaving of creations, form submissions and goroutines, each
    instance stays in the store and waits for the signal it waited for
    or for none; an instance that does not wait never waits again,
    whatever [signal.catch] the nodes it reaches declare. *)
Theorem waiting_signal_only_cleared entries schedule w :
  waits_less (w_db w) (w_db (c_world (sched schedule (serving fieldsNil w entries)))).
Proof.
  apply (sched_obeys any_row signal_cleared (waits_less (w_db w))).
  - intros db id row _ _. exact I.
  - intros db db' s. apply exec_stmt_signal_cleared.
  - intros t. apply (signal_entry (ETask t)).
  - apply waits_less_refl.
  - cbn [serving c_threads]. apply Forall_forall. intros p Hin.
    apply list_elem_of_In, in_map_iff in Hin. destruct Hin as (e & <- & _).
    apply signal_entry.
Qed.

End InterleavingInvariants.

Import Fixture Survey.


(** * Further facts: the start and signal handlers *)

Lemma append_empty_r s : s +:+ EmptyString = s.
Proof. induction s as [|c s IH]; [reflexivity|]. now rewrite append_cons, IH. Qed.

(** The third segment of a path [first/second/third] or
    [first/second/third/rest]. *)
Lemma third_segment first second third tail :
  lacks "/" first = true -> lacks "/" second = true -> lacks "/" third = true ->
  tail = EmptyString \/ (exists rest, tail = "/" +:+ rest) ->
  exists more,
    GoStrings.Split (first +:+ "/" +:+ second +:+ "/" +:+ third +:+ tail) "/"
    = first :: second :: third :: more.
Proof.
  intros Hfirst Hsecond Hthird Htail.
  change (first +:+ "/" +:+ second +:+ "/" +:+ third +:+ tail)
    with (first +:+ String "/" (second +:+ String "/" (third +:+ tail))).
  rewrite !SplitFacts.Split_first by assumption.
  destruct Htail as [->|(rest & ->)].
  - rewrite append_empty_r, SplitFacts.Split_no_separator by assumption. now exists [].
  - change (third +:+ "/" +:+ rest) with (third +:+ String "/" rest).
    rewrite SplitFacts.Split_first by assumption. eauto.
Qed.

Lemma GetNodeByID_ID wf nodeID n : GetNodeByID wf nodeID = Some n -> node_ID n = nodeID.
Proof.
  unfold GetNodeByID. intros Hfind. apply find_some in Hfind as [_ Heq].
  now apply String.eqb_eq.
Qed.

Lemma CreateNewInstance_returns w workflowID instance w' evs :
  run (CreateNewInstance workflowID) w = (Ok instance, w', evs) ->
  inst_ID instance = next_uuid w
  /\ inst_WorkflowID instance = workflowID
  /\ inst_CurrentNode instance = "start_node".
Proof.
  unfold CreateNewInstance. rewrite run_try.
  unfold GetWorkflowDefinition. rewrite run_bind, run_call. cbn [handle run].
  destruct (w_defs w !! workflowID) as [wf|] eqn:Hwf; [|discriminate].
  rewrite run_bind, run_call. cbn [handle].
  destruct (GetNodeByID wf "start_node") as [startNode|] eqn:Hstart; [|discriminate].
  apply GetNodeByID_ID in Hstart.
  rewrite run_try.
  destruct (run (SaveNewInstance _ _ _ _ _ _) (draw w)) as [[[ids|e] w1] evs1];
    [|discriminate].
  rewrite run_bind, run_call. cbn [handle]. rewrite run_bind, run_call. cbn [handle].
  destruct (String.eqb _ EmptyString);
    [rewrite run_bind, run_call|]; cbn [handle run fst snd];
    intros [= <- _ _]; cbn [inst_ID inst_WorkflowID inst_CurrentNode]; auto.
Qed.

(** X24.  The start handler creates an instance of the workflow named by
    the third segment of the path, whatever follows a further slash, for
    [GET] as for [POST].  It answers 500 with the error of the creation,
    or 200 with the new instance's ID and status URL and with
    [start_node] as the current node, whether or not the execution it
    has started has moved on; the form URL is given only when the
    instance does not wait for a signal and the start node itself is a
    form. *)
Theorem startWorkflowHandler_creates method first second workflowID tail w :
  method = "GET" \/ method = "POST" ->
  lacks "/" first = true -> lacks "/" second = true -> lacks "/" workflowID = true ->
  workflowID <> EmptyString ->
  tail = EmptyString \/ (exists rest, tail = "/" +:+ rest) ->
  let '(resp, w', evs) :=
    run (startWorkflowHandler method
           (first +:+ "/" +:+ second +:+ "/" +:+ workflowID +:+ tail)) w in
  let '(r, w1, evs1) := run (CreateNewInstance workflowID) w in
  w' = w1 /\ evs = evs1
  /\ match r with
     | Err e => resp = InternalServerError e
     | Ok instance =>
         exists body,
           resp = OK body
           /\ api_InstanceID body = next_uuid w
           /\ api_WorkflowID body = workflowID
           /\ api_CurrentNode body = "start_node"
           /\ api_StatusURL body = "/status/" +:+ next_uuid w
           /\ api_FormURL body
              = if String.eqb (inst_WaitingSignal instance) EmptyString
                   && match inst_CurrentNodeDef instance with
                      | Some def => String.eqb (node_Type def) "form"
                      | None => false
                      end
                then "/form/" +:+ next_uuid w else EmptyString
     end.
Proof.
  intros Hmethod Hfirst Hsecond Hwf Hne Htail. unfold startWorkflowHandler.
  assert (Hm : negb (String.eqb method "GET") && negb (String.eqb method "POST") = false)
    by (destruct Hmethod as [->| ->]; reflexivity).
  rewrite Hm.
  destruct (third_segment first second workflowID tail Hfirst Hsecond Hwf Htail)
    as (more & ->).
  cbn [length nth Nat.ltb Nat.leb orb].
  apply String.eqb_neq in Hne. rewrite Hne.
  rewrite run_bind.
  destruct (run (CreateNewInstance workflowID) w) as [[[instance|e] w1] evs1] eqn:Hrun.
  - destruct (CreateNewInstance_returns _ _ _ _ _ Hrun) as (Hid & Hwfid & Hcur).
    destruct (String.eqb (inst_WaitingSignal instance) EmptyString); cbn [negb andb].
    + destruct (match inst_CurrentNodeDef instance with
                | Some def => String.eqb (node_Type def) "form"
                | None => false
                end); cbn [run]; rewrite app_nil_r;
        (split; [reflexivity|]); (split; [reflexivity|]); eexists;
        (split; [reflexivity|]); cbn; rewrite ?Hid, ?Hwfid, ?Hcur; auto.
    + cbn [run]. rewrite app_nil_r.
      (split; [reflexivity|]); (split; [reflexivity|]); eexists;
        (split; [reflexivity|]); cbn; rewrite ?Hid, ?Hwfid, ?Hcur; auto.
  - cbn [run]. rewrite app_nil_r. auto.
Qed.

(** X25.  For a [GET] whose path has a third segment, the signal handler
    emits the signal of that name and answers 200, whatever became of
    the instances that waited for it: an instance that failed to load
    or to advance is logged and does not show in the answer. *)
Theorem signalWorkflowHandler_emits first second signalName tail w :
  lacks "/" first = true -> lacks "/" second = true -> lacks "/" signalName = true ->
  signalName <> EmptyString ->
  tail = EmptyString \/ (exists rest, tail = "/" +:+ rest) ->
  let '(resp, w', evs) :=
    run (signalWorkflowHandler "GET"
           (first +:+ "/" +:+ second +:+ "/" +:+ signalName +:+ tail)) w in
  let '(_, w1, evs1) := run (EmitSignal signalName) w in
  (exists body, resp = OK body) /\ w' = w1 /\ evs = evs1.
Proof.
  intros Hfirst Hsecond Hname Hne Htail. unfold signalWorkflowHandler.
  cbn [String.eqb Ascii.eqb Bool.eqb negb].
  destruct (third_segment first second signalName tail Hfirst Hsecond Hname Htail)
    as (more & ->).
  cbn [length nth Nat.ltb Nat.leb orb].
  apply String.eqb_neq in Hne. rewrite Hne.
  rewrite run_bind. unfold EmitSignal. rewrite run_ResumeWorkflowsBySignal.
  destruct (run (resumeEach (select_waiting signalName (w_db w))) w) as [[u w1] evs1].
  cbn [run]. rewrite app_nil_r. eauto.
Qed.

Import Fixture.

Lemma startWorkflowHandler_creates_witness :
  exists body,
    (run (startWorkflowHandler "GET" "/start/wf_forms") w_empty).1.1 = OK body
    /\ api_CurrentNode body = "start_node".
Proof.
  pose proof (startWorkflowHandler_creates "GET" EmptyString "start" "wf_forms" EmptyString
                w_empty (or_introl eq_refl) eq_refl eq_refl eq_refl
                ltac:(discriminate) (or_introl eq_refl)) as Hs.
  change (EmptyString +:+ "/" +:+ "start" +:+ "/" +:+ "wf_forms" +:+ EmptyString)
    with "/start/wf_forms" in Hs.
  destruct (run (startWorkflowHandler "GET" "/start/wf_forms") w_empty)
    as [[resp w'] evs].
  destruct (run (CreateNewInstance "wf_forms") w_empty) as [[[instance|e] w1] evs1] eqn:E;
    [|vm_compute in E; discriminate].
  destruct Hs as (_ & _ & body & -> & _ & _ & Hcur & _).
  exists body. split; [reflexivity|exact Hcur].
Defined.

Lemma signalWorkflowHandler_emits_witness :
  exists body, (run (signalWorkflowHandler "GET" "/signal/go") w_waiting).1.1 = OK body.
Proof.
  pose proof (signalWorkflowHandler_emits EmptyString "signal" "go" EmptyString
                w_waiting eq_refl eq_refl eq_refl ltac:(discriminate)
                (or_introl eq_refl)) as Hs.
  change (EmptyString +:+ "/" +:+ "signal" +:+ "/" +:+ "go" +:+ EmptyString)
    with "/signal/go" in Hs.
  destruct (run (signalWorkflowHandler "GET" "/signal/go") w_waiting) as [[resp w'] evs].
  destruct (run (EmitSignal "go") w_waiting) as [[r w1] evs1].
  destruct Hs as ((body & ->) & _). now exists body.
Defined.
